(** * PostyBirb+ : submission service, Furbooru and Weasyl adapters, e621 tag search

    A shallow embedding of the TypeScript sources

    - [src/unnamed/part_000] (the custom-e621 tag search provider and the
      [Furbooru] website class),
    - [src/electron-app/src/websites/weasyl/weasyl.service.ts],
    - [src/electron-app/src/submission/submission.service.ts],
    - [src/electron-app/src/server/websites/custom-e621/custom-e621.module.ts]
      (the platform helpers and [getBaseE621Url]),

    the properties the specification states about them, and further
    properties of the code.  Of the sources, [Furbooru.preparseDescription]
    and [Furbooru.parseDescription] are not embedded: they are made of
    regular-expression replacements, whose engine is not modelled.

    Asynchronous code is sequentialised: an [await] is the point where the
    awaited effect runs.  Exceptions are results ([Throw]); the state reached
    before a throw is kept, as in the source. *)

From Stdlib Require Import String Ascii List ZArith Bool Lia Permutation Sorted.
From Stdlib Require Import DecimalString.
From Stdlib Require QArith.
Import ListNotations.
#[local] Set Warnings "-register-all".
Local Open Scope string_scope.
Local Open Scope list_scope.

(** ** Results and the state-and-exception monad *)

Module Eff.

(** What the sources throw.  [ExternalError] stands for whatever a collaborator
    that is not in the sources (HTTP, browser window, repository, file system)
    raises. *)
Inductive Error : Type :=
| BadRequestException (msg : string)
| NotFoundException (msg : string)
| InternalServerErrorException (cause : Error)
| NotImplementedException (msg : string)
| Cancelled
| TypeError (msg : string)
| ExternalError (msg : string).

Inductive Result (A : Type) : Type :=
| Ok (a : A)
| Throw (e : Error).
Arguments Ok {A} a.
Arguments Throw {A} e.


(** A computation over a world [W]: a result and the world it leaves. *)
Definition M (W A : Type) : Type := W -> Result A * W.

Definition ret {W A} (a : A) : M W A := fun w => (Ok a, w).

Definition throw {W A} (e : Error) : M W A := fun w => (Throw e, w).

Definition bind {W A B} (m : M W A) (k : A -> M W B) : M W B :=
  fun w => match m w with
           | (Ok a, w') => k a w'
           | (Throw e, w') => (Throw e, w')
           end.

(** [try { m } catch (err) { h err }] *)
Definition tryCatch {W A} (m : M W A) (h : Error -> M W A) : M W A :=
  fun w => match m w with
           | (Ok a, w') => (Ok a, w')
           | (Throw e, w') => h e w'
           end.

Definition gets {W A} (f : W -> A) : M W A := fun w => (Ok (f w), w).

Definition modify {W} (f : W -> W) : M W unit := fun w => (Ok tt, f w).

(** A pure fallible step ([Result]) run inside a computation. *)
Definition lift {W A} (r : Result A) : M W A := fun w => (r, w).

(** [for (const x of xs) { await f x }]: stops at the first throw. *)
Fixpoint forEachM {W A} (f : A -> M W unit) (xs : list A) : M W unit :=
  match xs with
  | [] => ret tt
  | x :: xs' => bind (f x) (fun _ => forEachM f xs')
  end.

(** [await Promise.all(xs.map(f))]: every call is started by [map] and runs
    whatever happens to the others; the promise rejects with the first
    rejection, and fulfils with all the values otherwise. *)
Fixpoint promiseAll {W A B} (f : A -> M W B) (xs : list A) : M W (list B) :=
  match xs with
  | [] => ret []
  | x :: xs' =>
      fun w =>
        match f x w with
        | (Ok b, w1) =>
            match promiseAll f xs' w1 with
            | (Ok bs, w2) => (Ok (b :: bs), w2)
            | (Throw e, w2) => (Throw e, w2)
            end
        | (Throw e, w1) => (Throw e, snd (promiseAll f xs' w1))
        end
  end.

End Eff.

Import Eff.

Declare Scope eff_scope.
Delimit Scope eff_scope with eff.
Notation "x <- m ;; k" := (bind m (fun x => k))
  (at level 100, m at next level, right associativity) : eff_scope.
Notation "m ;;; k" := (bind m (fun _ => k))
  (at level 100, right associativity) : eff_scope.
Local Open Scope eff_scope.

(** ** JavaScript values, as far as the sources inspect them *)

Module Js.

(** A JSON value, or [undefined].  Numbers are integers here: the sources only
    test a number for being zero. *)
Inductive JValue : Type :=
| JUndefined
| JNull
| JBool (b : bool)
| JNumber (z : Z)
| JString (s : string)
| JArray (items : list JValue)
| JObject (fields : list (string * JValue)).

(** [!!v] *)
Definition truthy (v : JValue) : bool :=
  match v with
  | JUndefined | JNull => false
  | JBool b => b
  | JNumber z => negb (Z.eqb z 0)
  | JString s => negb (String.eqb s "")
  | JArray _ | JObject _ => true
  end.

(** The value of key [k] in an object literal: the last binding wins. *)
Fixpoint lookupField (k : string) (fields : list (string * JValue)) : option JValue :=
  match fields with
  | [] => None
  | (k', v) :: rest =>
      match lookupField k rest with
      | Some v' => Some v'
      | None => if String.eqb k k' then Some v else None
      end
  end.

(** [d.name]: a [TypeError] on [undefined] and [null]; [undefined] on a value
    without that property. *)
Definition getName (d : JValue) : Result JValue :=
  match d with
  | JUndefined | JNull => Throw (TypeError "Cannot read properties of undefined")
  | JObject fields =>
      match lookupField "name" fields with
      | Some v => Ok v
      | None => Ok JUndefined
      end
  | JBool _ | JNumber _ | JString _ | JArray _ => Ok JUndefined
  end.

(** [xs.map(f)] for a callback that may throw. *)
Fixpoint mapResult {A B} (f : A -> Result B) (xs : list A) : Result (list B) :=
  match xs with
  | [] => Ok []
  | x :: xs' =>
      match f x with
      | Throw e => Throw e
      | Ok b =>
          match mapResult f xs' with
          | Throw e => Throw e
          | Ok bs => Ok (b :: bs)
          end
      end
  end.

(** [xs.sort(compare)], a stable sort; [after a b] is [compare(a, b) > 0]. *)
Fixpoint insertBy {A} (after : A -> A -> bool) (x : A) (l : list A) : list A :=
  match l with
  | [] => [x]
  | y :: l' => if after x y then y :: insertBy after x l' else x :: y :: l'
  end.

Fixpoint sortBy {A} (after : A -> A -> bool) (l : list A) : list A :=
  match l with
  | [] => []
  | x :: l' => insertBy after x (sortBy after l')
  end.

(** [xs.includes(s)] on an array of strings. *)
Definition includes (xs : list string) (s : string) : bool :=
  existsb (String.eqb s) xs.

End Js.

Import Js.

(** ** Platform helpers ([utils], after the module declaration in
    [custom-e621.module.ts]) *)

Module Utils.

(** [process.platform === 'win32'] *)
Definition isWindows (platform : string) : bool := String.eqb platform "win32".

(** [process.platform === 'darwin'] *)
Definition isOSX (platform : string) : bool := String.eqb platform "darwin".

Definition isLinux (platform : string) : bool :=
  negb (isWindows platform || isOSX platform).

(** *** Properties *)

(** X3.  Whatever [process.platform] is, exactly one of [isWindows], [isOSX]
    and [isLinux] answers [true]; [isLinux] answers [true] for every platform
    other than [win32] and [darwin], whether it is Linux or not. *)
Theorem exactly_one_platform (platform : string) :
  ((isWindows platform = true /\ isOSX platform = false /\ isLinux platform = false)
   \/ (isWindows platform = false /\ isOSX platform = true /\ isLinux platform = false)
   \/ (isWindows platform = false /\ isOSX platform = false /\ isLinux platform = true))
  /\ (isLinux platform = true <-> platform <> "win32" /\ platform <> "darwin")
  /\ isLinux "freebsd" = true.
Proof.
  unfold isLinux, isWindows, isOSX.
  destruct (String.eqb platform "win32") eqn:Hw; destruct (String.eqb platform "darwin") eqn:Hd;
    cbn [orb negb].
  - apply String.eqb_eq in Hw. apply String.eqb_eq in Hd. subst. discriminate Hd.
  - apply String.eqb_eq in Hw. split; [left; repeat split|]. split; [|reflexivity].
    split; [discriminate|]. intros [H _]. contradiction.
  - apply String.eqb_eq in Hd. split; [right; left; repeat split|]. split; [|reflexivity].
    split; [discriminate|]. intros [_ H]. contradiction.
  - apply String.eqb_neq in Hw. apply String.eqb_neq in Hd.
    split; [right; right; repeat split|]. split; [|reflexivity].
    split; [intros _; split; assumption | reflexivity].
Qed.

End Utils.

(** ** The custom-e621 tag search provider ([part_000], lines 4-16) *)

Module CustomE621.

(** [process.env], as far as [getBaseE621Url] reads it. *)
Record ProcessEnv : Type := { E621_BASE_URL : option string }.

(** [process.env.E621_BASE_URL ?? 'http://192.168.0.113'] *)
Definition getBaseE621Url (env : ProcessEnv) : string :=
  match E621_BASE_URL env with
  | Some u => u
  | None => "http://192.168.0.113"
  end.

Record Request : Type := {
  url : string;
  params : list (string * string)
}.

(** How the promise of [Axios.get] settles: with a response, of which only
    [data] is read, or with an error. *)
Inductive AxiosOutcome : Type :=
| AxiosResolved (data : JValue)
| AxiosRejected (err : Error).

Inductive Settled (A : Type) : Type :=
| Fulfilled (a : A)
| Rejected (e : Error).
Arguments Fulfilled {A} a.
Arguments Rejected {A} e.

Definition tagSearchRequest (env : ProcessEnv) (value : string) : Request :=
  {| url := getBaseE621Url env ++ "/tags/autocomplete.json?";
     params := [("expiry", "7"); ("search[name_matches]", value)] |}.

(** [({ data }) => (data || []).map(d => d.name)]: only an array has [map]. *)
Definition onFulfilled (data : JValue) : Result (list JValue) :=
  match (if truthy data then data else JArray []) with
  | JArray items => mapResult getName items
  | _ => Throw (TypeError "(data || []).map is not a function")
  end.

(** The provider: the settled promise, and what [console.error] printed.
    [axios] is the network, an oracle from requests to outcomes. *)
Definition customE621TagSearchProvider
  (axios : Request -> AxiosOutcome) (env : ProcessEnv) (value : string)
  : Settled (list JValue) * list Error :=
  match axios (tagSearchRequest env value) with
  | AxiosResolved data =>
      match onFulfilled data with
      | Ok names => (Fulfilled names, [])
      | Throw err => (Fulfilled [], [err])
      end
  | AxiosRejected err => (Fulfilled [], [err])
  end.

(** An entry of the response that carries the tag name [n]. *)
Definition tagEntry (n : string) : JValue :=
  JObject [("id", JNumber 1); ("name", JString n); ("post_count", JNumber 0)].

(** Reading [name] off an object never throws. *)
Definition isObject (v : JValue) : bool :=
  match v with JObject _ => true | _ => false end.

Definition nameOf (v : JValue) : JValue :=
  match getName v with Ok n => n | Throw _ => JUndefined end.

(** The network of the examples: the autocomplete endpoint answers two tags
    for the prefix [wol], and fails for every other request. *)
Definition sampleAxios (r : Request) : AxiosOutcome :=
  if String.eqb (url r) "http://192.168.0.113/tags/autocomplete.json?"
     && existsb (fun p => String.eqb (fst p) "search[name_matches]" && String.eqb (snd p) "wol")
                (params r)
  then AxiosResolved (JArray (map tagEntry ["wolf"; "wolverine"]))
  else AxiosRejected (ExternalError "Network Error").

(** *** Properties *)

Lemma mapResult_getName_tagEntry (ns : list string) :
  mapResult getName (map tagEntry ns) = Ok (map JString ns).
Proof.
  induction ns as [|n ns IH]; [reflexivity|].
  change (map tagEntry (n :: ns)) with (tagEntry n :: map tagEntry ns).
  cbn [mapResult]. rewrite IH. reflexivity.
Qed.

Lemma mapResult_getName_objects (items : list JValue) :
  forallb isObject items = true ->
  mapResult getName items = Ok (map nameOf items).
Proof.
  induction items as [|d items IH]; [reflexivity|].
  cbn [forallb mapResult map].
  intros H. apply andb_true_iff in H. destruct H as [Hd Hr].
  destruct d; try discriminate Hd.
  rewrite (IH Hr). unfold nameOf, getName.
  destruct (lookupField "name" fields); reflexivity.
Qed.

(** C9.  For every input string, whatever the network does, the provider's
    promise is fulfilled with a list and never rejected; a rejected request
    gives the empty list; a response without data (a falsy [data]) gives the
    empty list; a response whose data is an array of objects gives the [name]
    field of each entry, in order, and these are the tag name strings when the
    entries carry string names. *)
Theorem customE621TagSearchProvider_resolves
  (axios : Request -> AxiosOutcome) (env : ProcessEnv) (value : string) :
  (exists names, fst (customE621TagSearchProvider axios env value) = Fulfilled names)
  /\ (forall err, axios (tagSearchRequest env value) = AxiosRejected err ->
        fst (customE621TagSearchProvider axios env value) = Fulfilled [])
  /\ (forall data, axios (tagSearchRequest env value) = AxiosResolved data ->
        truthy data = false ->
        fst (customE621TagSearchProvider axios env value) = Fulfilled [])
  /\ (forall items, axios (tagSearchRequest env value) = AxiosResolved (JArray items) ->
        forallb isObject items = true ->
        fst (customE621TagSearchProvider axios env value) = Fulfilled (map nameOf items))
  /\ (forall ns, axios (tagSearchRequest env value) = AxiosResolved (JArray (map tagEntry ns)) ->
        fst (customE621TagSearchProvider axios env value) = Fulfilled (map JString ns)).
Proof.
  unfold customE621TagSearchProvider.
  repeat split.
  - destruct (axios (tagSearchRequest env value)) as [data|err].
    + destruct (onFulfilled data) as [names|e]; eexists; reflexivity.
    + eexists; reflexivity.
  - intros err ->. reflexivity.
  - intros data -> Hf. unfold onFulfilled. rewrite Hf. reflexivity.
  - intros items -> Hobj. unfold onFulfilled. simpl.
    rewrite (mapResult_getName_objects items Hobj). reflexivity.
  - intros ns ->. unfold onFulfilled. simpl.
    rewrite mapResult_getName_tagEntry. reflexivity.
Qed.

Lemma customE621TagSearchProvider_resolves_witness :
  fst (customE621TagSearchProvider sampleAxios {| E621_BASE_URL := None |} "wol")
    = Fulfilled [JString "wolf"; JString "wolverine"]
  /\ fst (customE621TagSearchProvider sampleAxios {| E621_BASE_URL := None |} "fox")
    = Fulfilled [].
Proof.
  split.
  - apply (proj2 (proj2 (proj2 (proj2
      (customE621TagSearchProvider_resolves sampleAxios {| E621_BASE_URL := None |} "wol"))))
      ["wolf"; "wolverine"]).
    reflexivity.
  - apply (proj1 (proj2
      (customE621TagSearchProvider_resolves sampleAxios {| E621_BASE_URL := None |} "fox"))
      (ExternalError "Network Error")).
    reflexivity.
Defined.

(** A response whose data is not an array, or holds a [null] entry, makes the
    callback throw; the [catch] turns that into the empty list as well. *)
Example customE621_bad_payload :
  customE621TagSearchProvider
    (fun _ => AxiosResolved (JArray [tagEntry "wolf"; JNull])) {| E621_BASE_URL := None |} "wol"
  = (Fulfilled [], [TypeError "Cannot read properties of undefined"]).
Proof. reflexivity. Qed.

(** X4.  Whatever the network does, the provider prints to [console.error]
    at most once, and exactly when something failed: it prints nothing if and
    only if the request resolved and the callback returned, and then it
    answers what the callback returned; a rejected request prints its error
    and answers the empty list; a response whose callback throws prints that
    error and answers the empty list.  The callback returns on absent data
    (the empty list) and on an array of objects (one name per entry), so
    nothing is printed there. *)
Theorem customE621_failures_are_logged
  (axios : Request -> AxiosOutcome) (env : ProcessEnv) (value : string) :
  let r := customE621TagSearchProvider axios env value in
  (snd r = [] \/ exists err, snd r = [err] /\ fst r = Fulfilled [])
  /\ (snd r = [] <->
      exists data names, axios (tagSearchRequest env value) = AxiosResolved data
                         /\ onFulfilled data = Ok names)
  /\ (forall data names, axios (tagSearchRequest env value) = AxiosResolved data ->
        onFulfilled data = Ok names -> r = (Fulfilled names, []))
  /\ (forall err, axios (tagSearchRequest env value) = AxiosRejected err ->
        r = (Fulfilled [], [err]))
  /\ (forall data err, axios (tagSearchRequest env value) = AxiosResolved data ->
        onFulfilled data = Throw err -> r = (Fulfilled [], [err]))
  /\ (forall data, axios (tagSearchRequest env value) = AxiosResolved data ->
        truthy data = false -> r = (Fulfilled [], []))
  /\ (forall items, axios (tagSearchRequest env value) = AxiosResolved (JArray items) ->
        forallb isObject items = true ->
        snd r = [] /\ exists names, fst r = Fulfilled names /\ length names = length items).
Proof.
  cbv zeta. unfold customE621TagSearchProvider.
  split; [|split; [|split; [|split; [|split; [|split]]]]].
  - destruct (axios (tagSearchRequest env value)) as [data|err].
    + destruct (onFulfilled data) as [names|e]; [left; reflexivity|].
      right. exists e. split; reflexivity.
    + right. exists err. split; reflexivity.
  - destruct (axios (tagSearchRequest env value)) as [data|err].
    + destruct (onFulfilled data) as [names|e] eqn:Hcb; cbn [snd]; split.
      * intros _. exists data, names. split; [reflexivity | exact Hcb].
      * intros _. reflexivity.
      * intros H. discriminate H.
      * intros (data' & names & Hreq & Hok). injection Hreq as <-.
        rewrite Hcb in Hok. discriminate Hok.
    + cbn [snd]. split.
      * intros H. discriminate H.
      * intros (data & names & Hreq & _). discriminate Hreq.
  - intros data names -> ->. reflexivity.
  - intros err ->. reflexivity.
  - intros data err -> ->. reflexivity.
  - intros data -> Hf. unfold onFulfilled. rewrite Hf. reflexivity.
  - intros items -> Hobj. unfold onFulfilled. cbn [truthy].
    rewrite (mapResult_getName_objects items Hobj). split; [reflexivity|].
    exists (map nameOf items). split; [reflexivity | apply length_map].
Qed.

Lemma customE621_failures_are_logged_witness :
  customE621TagSearchProvider sampleAxios {| E621_BASE_URL := None |} "fox"
  = (Fulfilled [], [ExternalError "Network Error"])
  /\ snd (customE621TagSearchProvider sampleAxios {| E621_BASE_URL := None |} "wol") = []
  /\ customE621TagSearchProvider (fun _ => AxiosResolved JUndefined)
       {| E621_BASE_URL := None |} "wol" = (Fulfilled [], []).
Proof.
  split; [|split].
  - apply (proj1 (proj2 (proj2 (proj2
      (customE621_failures_are_logged sampleAxios {| E621_BASE_URL := None |} "fox"))))).
    reflexivity.
  - apply (proj2 (proj2 (proj2 (proj2 (proj2 (proj2
      (customE621_failures_are_logged sampleAxios {| E621_BASE_URL := None |} "wol"))))))
      (map tagEntry ["wolf"; "wolverine"])); reflexivity.
  - apply (proj1 (proj2 (proj2 (proj2 (proj2 (proj2
      (customE621_failures_are_logged (fun _ => AxiosResolved JUndefined)
         {| E621_BASE_URL := None |} "wol"))))))
      JUndefined); reflexivity.
Defined.

End CustomE621.

(** ** What the website classes share: files, parts, validation results *)

Module Commons.

Inductive FileSubmissionType : Type := IMAGE | TEXT | VIDEO | AUDIO | UNKNOWN.

(** [submission.primary], as far as the validators read it. *)
Record FileRecord : Type := {
  type : FileSubmissionType;
  size : Z;
  name : string;
  mimetype : string
}.

Record FileSubmission : Type := { primary : FileRecord }.

(** [ValidationParts]: what [Furbooru.validateFileSubmission] returns. *)
Record ValidationParts : Type := {
  problems : list string;
  warnings : list string
}.

(** The validation helpers of the repository that are not in the sources
    ([FormContent], [WebsiteValidator], [FileSize], [ImageManipulator]), the tag
    data they read, and the string value of a [FileSubmissionType]. *)
Class ValidatorUtils : Type := {
  TagData : Type;
  (** [FormContent.getTags(defaultTags, partTags)], [WebsiteValidator.getTags] *)
  getTags : TagData -> TagData -> list string;
  (** [WebsiteValidator.supportsFileType(file, accepted)] *)
  supportsFileType : FileRecord -> list string -> bool;
  (** [FileSize.MBtoBytes(mb)], [WebsiteValidator.MBtoBytes(mb)] *)
  MBtoBytes : Z -> Z;
  (** [ImageManipulator.isMimeType(mimetype)] *)
  isMimeType : string -> bool;
  typeName : FileSubmissionType -> string
}.

(** [submissionPart.data] and [defaultPart.data]. *)
Record PartData {utils : ValidatorUtils} : Type := {
  autoScale : bool;
  tagData : TagData
}.

Record SubmissionPart {utils : ValidatorUtils} : Type := { data : PartData }.

(** A non-negative integer in a template string. *)
Definition numberToString (z : Z) : string :=
  NilZero.string_of_uint (N.to_uint (Z.to_N z)).

(** [s.includes(sub)] on strings. *)
Definition stringIncludes (s sub : string) : bool :=
  match index 0 sub s with Some _ => true | None => false end.

Definition isIMAGE (t : FileSubmissionType) : bool :=
  match t with IMAGE => true | _ => false end.

End Commons.

Import Commons.

(** ** The Furbooru website class ([part_000], lines 44-215) *)

Module Furbooru.

Inductive SubmissionRating : Type :=
| GENERAL
| MATURE
| ADULT
| EXTREME
| UNRATED. (* any value outside the enum: the [default] branch *)

Definition BASE_URL : string := "https://furbooru.org".

Definition acceptsFiles : list string := ["jpeg"; "jpg"; "png"; "svg"; "gif"; "webm"].

Definition getRating (rating : SubmissionRating) : string :=
  match rating with
  | MATURE => "questionable"
  | ADULT | EXTREME => "explicit"
  | GENERAL | UNRATED => "safe"
  end.

Definition knownRatings : list string :=
  ["safe"; "suggestive"; "questionable"; "explicit"; "semi-grimdark"; "grimdark"; "grotesque"].

(** A field of the multipart form: text, or the file to upload. *)
Inductive FormValue : Type :=
| FText (s : string)
| FFile (file : string).

Definition Form : Type := list (string * FormValue).

(** [{ ...o, k: v }]: an existing key keeps its place and takes the new value. *)
Fixpoint setKey (k : string) (v : FormValue) (o : Form) : Form :=
  match o with
  | [] => [(k, v)]
  | (k', v') :: rest =>
      if String.eqb k k' then (k', v) :: rest else (k', v') :: setKey k v rest
  end.

Fixpoint formField (k : string) (o : Form) : option FormValue :=
  match o with
  | [] => None
  | (k', v) :: rest => if String.eqb k k' then Some v else formField k rest
  end.

Record FilePostData : Type := {
  tags : list string;
  rating : SubmissionRating;
  accountId : string;              (* data.part.accountId *)
  primaryFile : string;            (* data.primary.file *)
  description : string;
  optionsSource : option string;   (* data.options.source *)
  sources : list string
}.

Record HttpResponse : Type := { body : string }.

(** The shared flag a token stands for is part of the environment; the token
    itself is the name of that flag. *)
Definition CancellationToken : Type := nat.

(** What an awaited external call answers, and the tokens the issuer of the
    post cancelled while the call was pending. *)
Record Reply (A : Type) : Type := {
  outcome : Result A;
  cancelledMeanwhile : list CancellationToken
}.
Arguments outcome {A} r.
Arguments cancelledMeanwhile {A} r.

Inductive Event : Type :=
| GetFormData (account url custom : string)
| HttpPost (url account : string) (form : Form)
| LoggerWarn (err : Error) (context : string).

(** The environment of a post: the cancelled tokens, the answers of the browser
    window and of the HTTP layer (by the number of external events so far), and
    the events so far. *)
Record Env : Type := {
  cancelledTokens : list CancellationToken;
  browser : nat -> Reply Form;
  http : nat -> Form -> Reply HttpResponse;
  trace : list Event
}.

Definition isCancelled (token : CancellationToken) (env : Env) : bool :=
  existsb (Nat.eqb token) (cancelledTokens env).

Definition record (ev : Event) (cancelledNow : list CancellationToken) (env : Env) : Env :=
  {| cancelledTokens := cancelledNow ++ cancelledTokens env;
     browser := browser env;
     http := http env;
     trace := trace env ++ [ev] |}.

(** [await BrowserWindowUtil.getFormData(account, url, { custom })] *)
Definition getFormData (account url custom : string) : M Env Form :=
  fun env =>
    let r := browser env (length (trace env)) in
    (outcome r, record (GetFormData account url custom) (cancelledMeanwhile r) env).

(** [await Http.post<string>(url, account, { type: 'multipart', data: form })] *)
Definition httpPost (url account : string) (form : Form) : M Env HttpResponse :=
  fun env =>
    let r := http env (length (trace env)) form in
    (outcome r, record (HttpPost url account form) (cancelledMeanwhile r) env).

(** [this.logger.warn(err, context)] *)
Definition loggerWarn (err : Error) (context : string) : M Env unit :=
  modify (record (LoggerWarn err context) []).

(** Modelled from the spec: [Website.checkCancelled] is not in the sources; the
    adapter "aborts with a [Cancelled] outcome if [the token is] set". *)
Definition checkCancelled (token : CancellationToken) : M Env unit :=
  fun env => if isCancelled token env then (Throw Cancelled, env) else (Ok tt, env).

(** Strings are sequences of bytes: the UTF-8 encoding of the JavaScript
    string.  [byteIs c n]: the byte [c] is [n]. *)
Definition byteIs (c : ascii) (n : nat) : bool := Nat.eqb (nat_of_ascii c) n.

Definition doubleQuote : ascii := ascii_of_nat 34.

(** The white space and line terminators of one byte: TAB, LF, VT, FF, CR and
    the space. *)
Definition isSpace (c : ascii) : bool :=
  let n := nat_of_ascii c in
  Nat.eqb n 32 || (Nat.leb 9 n && Nat.leb n 13).

(** U+00A0, encoded [C2 A0]. *)
Definition isSpace2 (a b : ascii) : bool := byteIs a 194 && byteIs b 160.

(** The white space and line terminators of three bytes: U+1680 [E1 9A 80],
    U+2000 to U+200A [E2 80 80] to [E2 80 8A], U+2028 and U+2029 [E2 80 A8],
    [E2 80 A9], U+202F [E2 80 AF], U+205F [E2 81 9F], U+3000 [E3 80 80] and
    U+FEFF [EF BB BF]. *)
Definition isSpace3 (a b c : ascii) : bool :=
  let n := nat_of_ascii c in
  (byteIs a 225 && byteIs b 154 && byteIs c 128)
  || (byteIs a 226 && byteIs b 128
      && ((Nat.leb 128 n && Nat.leb n 138) || Nat.eqb n 168 || Nat.eqb n 169 || Nat.eqb n 175))
  || (byteIs a 226 && byteIs b 129 && byteIs c 159)
  || (byteIs a 227 && byteIs b 128 && byteIs c 128)
  || (byteIs a 239 && byteIs b 187 && byteIs c 191).

(** [String.prototype.trimStart] *)
Fixpoint trimStart (s : string) : string :=
  match s with
  | EmptyString => EmptyString
  | String a s1 =>
      if isSpace a then trimStart s1
      else match s1 with
           | EmptyString => s
           | String b s2 =>
               if isSpace2 a b then trimStart s2
               else match s2 with
                    | EmptyString => s
                    | String c s3 => if isSpace3 a b c then trimStart s3 else s
                    end
           end
  end.

(** [String.prototype.trimEnd]: what is white space to its end is dropped.  A
    byte in the middle of an encoded character starts no white space. *)
Fixpoint trimEnd (s : string) : string :=
  match s with
  | EmptyString => EmptyString
  | String c s' =>
      match trimStart s with
      | EmptyString => EmptyString
      | _ => String c (trimEnd s')
      end
  end.

(** [String.prototype.trim] *)
Definition trim (s : string) : string := trimEnd (trimStart s).

(** [a || b || ''] on the source URL candidates. *)
Definition sourceUrl (data : FilePostData) : string :=
  match optionsSource data with
  | Some s =>
      if negb (String.eqb s "") then s
      else match sources data with s0 :: _ => s0 | [] => "" end
  | None => match sources data with s0 :: _ => s0 | [] => "" end
  end.

(** What [Furbooru] inherits from the [Website] base class, which is not in the
    sources, and the response type it produces. *)
Class WebsiteBase : Type := {
  PostResponse : Type;
  (** [this.parseTags(tags, { spaceReplacer: ' ', minLength: 1, maxLength: 100 })] *)
  parseTags : list string -> list string;
  (** [super.formatTags(tags)] *)
  superFormatTags : list string -> list string;
  (** [this.verifyResponse(postResponse)] *)
  verifyResponse : HttpResponse -> Result unit;
  (** [this.createPostResponse({})] *)
  createPostResponse : PostResponse
}.

(** [`${this.BASE_URL}/images/new`] *)
Definition formUrl : string := BASE_URL ++ "/images/new".

(** The [custom] selector of the form: [form] stands between double quotes. *)
Definition formSelector : string :=
  String.append "document.body.querySelectorAll("
    (String doubleQuote (String.append "form" (String doubleQuote ")[3]"))).

Section Adapter.

Context {base : WebsiteBase}.

(** [String.prototype.toLowerCase] *)
Variable toLowerCase : string -> string.

(** [super.formatTags(tags).join(', ').trim()] *)
Definition formatTags (tags : list string) : string :=
  trim (String.concat ", " (superFormatTags tags)).

(** The loop over [knownRatings] with its [break]. *)
Fixpoint scanKnownRatings (lowerCaseTags rs : list string) (add : bool) : bool :=
  match rs with
  | [] => add
  | r :: rs' => if includes lowerCaseTags r then false else scanKnownRatings lowerCaseTags rs' add
  end.

(** Lines 130-154 of [attemptFilePost]: the parsed tags, with the rating tag
    pushed at the end or not. *)
Definition withRatingTag (tags : list string) (rating : SubmissionRating) : list string :=
  let ratingTag := getRating rating in
  let lowerCaseTags := map toLowerCase tags in
  if negb (includes lowerCaseTags ratingTag) then
    if scanKnownRatings lowerCaseTags knownRatings true then tags ++ [ratingTag] else tags
  else tags.

Definition postTags (data : FilePostData) : list string :=
  withRatingTag (parseTags (tags data)) (rating data).

(** The object literal [form] of [attemptFilePost]. *)
Definition buildForm (data : FilePostData) (formData : Form) : Form :=
  setKey "image[source_url]" (FText (sourceUrl data))
    (setKey "image[description]" (FText (description data))
      (setKey "image[image]" (FFile (primaryFile data))
        (setKey "image[tag_input]" (FText (formatTags (postTags data)))
          (setKey "_method" (FText "post") formData)))).

Definition attemptFilePost (cancellationToken : CancellationToken) (data : FilePostData)
  : M Env PostResponse :=
  formData <- getFormData (accountId data) formUrl formSelector ;;
  let form := buildForm data formData in
  checkCancelled cancellationToken ;;;
  postResponse <- httpPost (BASE_URL ++ "/images") (accountId data) form ;;
  lift (verifyResponse postResponse) ;;;
  ret createPostResponse.

Definition postFileSubmission (cancellationToken : CancellationToken) (data : FilePostData)
  : M Env PostResponse :=
  tryCatch (attemptFilePost cancellationToken data)
    (fun err =>
       (* Users have reported it working on a second post *)
       loggerWarn err "Furbooru Post Retry" ;;;
       attemptFilePost cancellationToken data).

End Adapter.

(** *** Validation ([part_000], lines 181-214) *)

Section Validate.

Context {utils : ValidatorUtils}.

Definition validateFileSubmission
  (submission : FileSubmission) (submissionPart defaultPart : SubmissionPart)
  : ValidationParts :=
  let isAutoscaling := autoScale (data submissionPart) in
  let problems1 :=
    if Nat.ltb (length (getTags (tagData (data defaultPart)) (tagData (data submissionPart)))) 5
    then ["Requires at least 5 tags."] else [] in
  let problems2 :=
    if negb (supportsFileType (primary submission) acceptsFiles)
    then problems1 ++ [("Currently supported file formats: "
                        ++ String.concat ", " acceptsFiles)%string]
    else problems1 in
  let maxMB := 100%Z in
  if Z.ltb (MBtoBytes maxMB) (size (primary submission)) then
    if isAutoscaling && isIMAGE (type (primary submission))
       && isMimeType (mimetype (primary submission))
    then {| problems := problems2;
            warnings := [(name (primary submission) ++ " will be scaled down to "
                          ++ numberToString maxMB ++ "MB")%string] |}
    else {| problems := problems2 ++ [("Furbooru limits " ++ mimetype (primary submission)
                                       ++ " to " ++ numberToString maxMB ++ "MB")%string];
            warnings := [] |}
  else {| problems := problems2; warnings := [] |}.

End Validate.

(** *** Scaling ([part_000], lines 69-71) *)

Record ScalingOptions : Type := { maxSize : Z }.

Section Scaling.

Context {utils : ValidatorUtils}.

Definition getScalingOptions (file : FileRecord) : ScalingOptions :=
  {| maxSize := MBtoBytes 100 |}.

End Scaling.

(** *** The login check ([part_000], lines 58-67) *)

Record LoginResponse : Type := {
  loggedIn : bool;
  username : option string   (* [null] is [None] *)
}.

(** [Http.saveSessionCookies(url, account)] *)
Inductive SessionEffect : Type :=
| SaveSessionCookies (url account : string).

(** The line terminators of one byte, LF and CR. *)
Definition isLineTerminator (c : ascii) : bool :=
  let n := nat_of_ascii c in Nat.eqb n 10 || Nat.eqb n 13.

(** [s] starts with U+2028 or U+2029, the line terminators of three bytes
    ([E2 80 A8] and [E2 80 A9]). *)
Definition startsLineSeparator (s : string) : bool :=
  match s with
  | String a (String b (String c _)) =>
      byteIs a 226 && byteIs b 128 && (byteIs c 168 || byteIs c 169)
  | _ => false
  end.

(** [s] without its prefix [p], if it has that prefix. *)
Fixpoint stripPrefix (p s : string) : option string :=
  match p with
  | EmptyString => Some s
  | String a p' =>
      match s with
      | String b s' => if Ascii.eqb a b then stripPrefix p' s' else None
      | EmptyString => None
      end
  end.

(** The rest of the pattern, a lazy [(.*?)] and the closing quote, matched at
    the start of [s]: the characters before the first double quote, if no line
    terminator comes before it.  The [.] of a regular expression matches
    everything but LF, CR, U+2028 and U+2029. *)
Fixpoint lazyUntilQuote (s : string) : option string :=
  match s with
  | EmptyString => None
  | String c s' =>
      if Ascii.eqb c doubleQuote then Some EmptyString
      else if isLineTerminator c || startsLineSeparator s then None
      else match lazyUntilQuote s' with
           | Some captured => Some (String c captured)
           | None => None
           end
  end.

(** No double quote and no line terminator in [s]: what the group [(.*?)] can
    capture. *)
Fixpoint capturable (s : string) : bool :=
  match s with
  | EmptyString => true
  | String c s' =>
      negb (Ascii.eqb c doubleQuote) && negb (isLineTerminator c)
      && negb (startsLineSeparator s) && capturable s'
  end.

(** The literal start of the pattern: [data-user-name=] and a double quote. *)
Definition userNameAttribute : string :=
  String.append "data-user-name=" (String doubleQuote EmptyString).

(** The pattern matched at the start of [s]. *)
Definition userNameHere (s : string) : option string :=
  match stripPrefix userNameAttribute s with
  | Some rest => lazyUntilQuote rest
  | None => None
  end.

(** [body.match(/data-user-name=(.*?)/)], with the double quotes of the
    pattern around the group: the group of the leftmost match, [None] for
    [null]. *)
Fixpoint matchUserName (body : string) : option string :=
  match userNameHere body with
  | Some captured => Some captured
  | None =>
      match body with
      | EmptyString => None
      | String _ rest => matchUserName rest
      end
  end.

(** [httpGet] is [Http.get]: what the site answers to a request of [url] for
    the account.  The result comes with the calls of
    [Http.saveSessionCookies]. *)
Definition checkLoginStatus (httpGet : string -> string -> Result HttpResponse)
  (account : string) : Result LoginResponse * list SessionEffect :=
  match httpGet BASE_URL account with
  | Throw e => (Throw e, [])
  | Ok res =>
      if stringIncludes (body res) "Logout" then
        match matchUserName (body res) with
        | Some name =>
            (Ok {| loggedIn := true; username := Some name |},
             [SaveSessionCookies BASE_URL account])
        | None =>
            (* [null[1]] *)
            (Throw (TypeError "Cannot read properties of null"), [])
        end
      else (Ok {| loggedIn := false; username := None |}, [])
  end.

(** A page of a logged-in user, and the site that serves it. *)
Definition loggedInPage : string :=
  String.append "<a href=/session>Logout</a><div class=js-datastore data-user-name="
    (String doubleQuote (String.append "wolf" (String doubleQuote " data-user-id=7></div>"))).

(** A user name with U+2028 in it: [a], [E2 80 A8], [b]. *)
Definition lineSeparatorName : string :=
  String "a" (String (ascii_of_nat 226) (String (ascii_of_nat 128)
    (String (ascii_of_nat 168) "b"))).

Definition siteServing (page : string) : string -> string -> Result HttpResponse :=
  fun url _ =>
    if String.eqb url BASE_URL then Ok {| body := page |}
    else Throw (ExternalError "404").

(** *** What a run did, counted on its events *)

Definition isGetFormData (ev : Event) : bool :=
  match ev with GetFormData _ _ _ => true | _ => false end.

Definition isHttpPost (ev : Event) : bool :=
  match ev with HttpPost _ _ _ => true | _ => false end.

Definition isRetry (ev : Event) : bool :=
  match ev with LoggerWarn _ "Furbooru Post Retry" => true | _ => false end.

(** Every attempt opens the browser window once, first thing. *)
Definition attemptsStarted (evs : list Event) : nat := length (filter isGetFormData evs).

Definition postsDispatched (evs : list Event) : nat := length (filter isHttpPost evs).

Definition retries (evs : list Event) : nat := length (filter isRetry evs).

(** *** A concrete site and environment, for the examples *)

Definition lowerAscii (c : ascii) : ascii :=
  let n := nat_of_ascii c in
  if Nat.leb 65 n && Nat.leb n 90 then ascii_of_nat (n + 32) else c.

(** [toLowerCase] on ASCII strings. *)
Fixpoint asciiLower (s : string) : string :=
  match s with
  | EmptyString => EmptyString
  | String c s' => String (lowerAscii c) (asciiLower s')
  end.

Definition sampleBase : WebsiteBase :=
  {| PostResponse := string;
     parseTags := fun ts => ts;
     superFormatTags := fun ts => ts;
     verifyResponse := fun r =>
       if String.eqb (body r) "" then Throw (ExternalError "Unknown response") else Ok tt;
     createPostResponse := "posted" |}.

Definition samplePost (ts : list string) (r : SubmissionRating) : FilePostData :=
  {| tags := ts; rating := r; accountId := "acc1"; primaryFile := "wolf.png";
     description := "A wolf"; optionsSource := None; sources := [] |}.

(** Environments of concrete runs. *)

Definition browserOk : nat -> Reply Form :=
  fun _ => {| outcome := Ok [("authenticity_token", FText "t0k")]; cancelledMeanwhile := [] |}.

(** The first post (event 1) fails, a later one is accepted. *)
Definition flakyEnv : Env :=
  {| cancelledTokens := [];
     browser := browserOk;
     http := fun n _ =>
       {| outcome := if Nat.leb n 1 then Throw (ExternalError "socket hang up")
                     else Ok {| body := "<html>uploaded</html>" |};
          cancelledMeanwhile := [] |};
     trace := [] |}.

(** The site always refuses. *)
Definition refusingEnv : Env :=
  {| cancelledTokens := [];
     browser := browserOk;
     http := fun n _ =>
       {| outcome := if Nat.leb n 1 then Throw (ExternalError "socket hang up")
                     else Throw (ExternalError "500");
          cancelledMeanwhile := [] |};
     trace := [] |}.


Definition wolfPost : FilePostData := samplePost ["wolf"; "forest"] GENERAL.

(** *** Notions the statements below are written with *)

(** The state in which the retry starts: the first attempt's, with the warning
    logged. *)
Definition retryEnv (err : Error) (env1 : Env) : Env :=
  record (LoggerWarn err "Furbooru Post Retry") [] env1.

(** *** Properties *)

(** *** Facts about the rating tag *)

Lemma includes_In (xs : list string) (s : string) :
  includes xs s = true <-> In s xs.
Proof.
  unfold includes. rewrite existsb_exists. split.
  - intros [x [Hin Heq]]. apply String.eqb_eq in Heq. subst. exact Hin.
  - intros Hin. exists s. split; [exact Hin | apply String.eqb_refl].
Qed.

Lemma includes_false (xs : list string) (s : string) :
  includes xs s = false <-> ~ In s xs.
Proof.
  rewrite <- includes_In. destruct (includes xs s); split; intro H;
    try reflexivity; try discriminate; try (intro; discriminate).
  exfalso. apply H. reflexivity.
Qed.

Lemma scanKnownRatings_true (lowerCaseTags rs : list string) :
  scanKnownRatings lowerCaseTags rs true = true
  <-> forall r, In r rs -> ~ In r lowerCaseTags.
Proof.
  induction rs as [|r rs IH]; simpl.
  - split; [intros _ r [] | reflexivity].
  - destruct (includes lowerCaseTags r) eqn:Hr.
    + split; [discriminate|]. intros H. exfalso.
      apply (H r (or_introl eq_refl)). apply includes_In. exact Hr.
    + rewrite IH. split.
      * intros H r' [<-|Hin]; [apply includes_false; exact Hr | apply H; exact Hin].
      * intros H r' Hin. apply H. right. exact Hin.
Qed.

Lemma app_one_neq {A} (xs : list A) (x : A) : xs ++ [x] <> xs.
Proof.
  intros H. apply (f_equal (@length A)) in H. rewrite length_app in H. simpl in H. lia.
Qed.

Lemma formField_setKey (k k' : string) (v : FormValue) (o : Form) :
  formField k (setKey k' v o) = if String.eqb k k' then Some v else formField k o.
Proof.
  induction o as [|[k0 v0] o IH]; simpl.
  - destruct (String.eqb k k'); reflexivity.
  - destruct (String.eqb k' k0) eqn:E0; simpl.
    + apply String.eqb_eq in E0. subst k0.
      destruct (String.eqb k k'); reflexivity.
    + rewrite IH. destruct (String.eqb k k0) eqn:E1; [|reflexivity].
      apply String.eqb_eq in E1. subst k0.
      destruct (String.eqb k k') eqn:E2; [|reflexivity].
      apply String.eqb_eq in E2. subst k'. rewrite String.eqb_refl in E0. discriminate.
Qed.

(** C10.  The rating is mapped to its tag (GENERAL and unknown ratings to
    [safe], MATURE to [questionable], ADULT and EXTREME to [explicit]); the
    rating tag is pushed at the end of the parsed tags exactly when no
    lower-cased tag is the rating tag or one of the known rating tags, the tags
    are left as they are otherwise; and the form that is posted carries the
    formatted result. *)
Theorem rating_tag_appended_iff_no_rating_tag
  {base : WebsiteBase} (toLowerCase : string -> string)
  (data : FilePostData) (formData : Form) :
  let parsed := parseTags (tags data) in
  let ratingTag := getRating (rating data) in
  let unrated :=
    ~ In ratingTag (map toLowerCase parsed)
    /\ (forall r, In r knownRatings -> ~ In r (map toLowerCase parsed)) in
  (getRating GENERAL = "safe" /\ getRating UNRATED = "safe"
   /\ getRating MATURE = "questionable"
   /\ getRating ADULT = "explicit" /\ getRating EXTREME = "explicit")
  /\ (postTags toLowerCase data = parsed ++ [ratingTag] <-> unrated)
  /\ (postTags toLowerCase data = parsed <-> ~ unrated)
  /\ formField "image[tag_input]" (buildForm toLowerCase data formData)
     = Some (FText (formatTags (postTags toLowerCase data))).
Proof.
  intros parsed ratingTag unrated.
  split; [repeat split; reflexivity|].
  assert (Hcases :
    (unrated /\ postTags toLowerCase data = parsed ++ [ratingTag])
    \/ (~ unrated /\ postTags toLowerCase data = parsed)).
  { unfold postTags, withRatingTag. cbv zeta. fold parsed. fold ratingTag.
    destruct (includes (map toLowerCase parsed) ratingTag) eqn:Hinc; cbn [negb].
    - right. split; [|reflexivity]. intros [Hn _]. apply Hn. apply includes_In. exact Hinc.
    - destruct (scanKnownRatings (map toLowerCase parsed) knownRatings true) eqn:Hscan.
      + left. split; [|reflexivity]. split.
        * apply includes_false. exact Hinc.
        * apply scanKnownRatings_true. exact Hscan.
      + right. split; [|reflexivity]. intros [_ Hk].
        apply scanKnownRatings_true in Hk. rewrite Hk in Hscan. discriminate. }
  split; [|split].
  - split.
    + intros Heq. destruct Hcases as [[Hu _]|[_ Hp]]; [exact Hu|].
      rewrite Hp in Heq. symmetry in Heq. exfalso. exact (app_one_neq _ _ Heq).
    + intros Hu. destruct Hcases as [[_ Hp]|[Hn _]]; [exact Hp | contradiction].
  - split.
    + intros Heq. destruct Hcases as [[_ Hp]|[Hn _]]; [|exact Hn].
      rewrite Hp in Heq. exfalso. exact (app_one_neq _ _ Heq).
    + intros Hn. destruct Hcases as [[Hu _]|[_ Hp]]; [contradiction | exact Hp].
  - unfold buildForm. rewrite !formField_setKey. reflexivity.
Qed.

Example postTags_appends :
  postTags (base := sampleBase) asciiLower (samplePost ["Wolf"; "Forest"] MATURE)
  = ["Wolf"; "Forest"; "questionable"].
Proof. reflexivity. Qed.

Example postTags_keeps_other_rating :
  postTags (base := sampleBase) asciiLower (samplePost ["wolf"; "SAFE"] ADULT)
  = ["wolf"; "SAFE"].
Proof. reflexivity. Qed.

Lemma rating_tag_appended_iff_no_rating_tag_witness :
  postTags (base := sampleBase) asciiLower (samplePost ["Wolf"; "Forest"] MATURE)
  = ["Wolf"; "Forest"] ++ ["questionable"]
  /\ postTags (base := sampleBase) asciiLower (samplePost ["wolf"; "SAFE"] ADULT)
     = ["wolf"; "SAFE"].
Proof.
  split.
  - apply (proj2 (proj1 (proj2
      (rating_tag_appended_iff_no_rating_tag (base := sampleBase) asciiLower
         (samplePost ["Wolf"; "Forest"] MATURE) [])))).
    split.
    + simpl. intros [H|[H|[]]]; discriminate H.
    + intros r Hr Hin. simpl in Hin. destruct Hin as [<-|[<-|[]]];
        simpl in Hr; repeat (destruct Hr as [Hr|Hr]; [discriminate Hr|]); exact Hr.
  - apply (proj2 (proj1 (proj2 (proj2
      (rating_tag_appended_iff_no_rating_tag (base := sampleBase) asciiLower
         (samplePost ["wolf"; "SAFE"] ADULT) []))))).
    intros [_ Hk]. apply (Hk "safe"); simpl; auto.
Defined.

(** *** Facts about the retry *)

Section Retry.

Context {base : WebsiteBase}.
Variable toLowerCase : string -> string.

#[local] Abbreviation attempt := (attemptFilePost toLowerCase).
#[local] Abbreviation post := (postFileSubmission toLowerCase).

(** One attempt, step by step. *)
Lemma attemptFilePost_run (token : CancellationToken) (data : FilePostData) (env : Env) :
  let r := browser env (length (trace env)) in
  let env1 := record (GetFormData (accountId data) formUrl formSelector)
                (cancelledMeanwhile r) env in
  attempt token data env =
  match outcome r with
  | Throw e => (Throw e, env1)
  | Ok formData =>
      if isCancelled token env1 then (Throw Cancelled, env1)
      else
        let form := buildForm toLowerCase data formData in
        let q := http env1 (length (trace env1)) form in
        let env2 := record (HttpPost (BASE_URL ++ "/images") (accountId data) form)
                      (cancelledMeanwhile q) env1 in
        match outcome q with
        | Throw e => (Throw e, env2)
        | Ok resp =>
            match verifyResponse resp with
            | Throw e => (Throw e, env2)
            | Ok _ => (Ok createPostResponse, env2)
            end
        end
  end.
Proof.
  cbv zeta. unfold attemptFilePost, bind, getFormData, checkCancelled, httpPost, lift, ret.
  destruct (outcome (browser env (length (trace env)))) as [formData|e]; [|reflexivity].
  match goal with |- context [isCancelled token ?e1] => destruct (isCancelled token e1) end;
    [reflexivity|].
  match goal with |- context [outcome ?q] => destruct (outcome q) as [resp|e] end;
    [|reflexivity].
  destruct (verifyResponse resp); reflexivity.
Qed.


(** The events one attempt adds: the browser window is opened once, at most
    one post is dispatched, nothing is logged as a retry. *)
Lemma attemptFilePost_events (token : CancellationToken) (data : FilePostData) (env : Env) :
  exists evs,
    trace (snd (attempt token data env)) = trace env ++ evs
    /\ attemptsStarted evs = 1 /\ retries evs = 0 /\ postsDispatched evs <= 1.
Proof.
  rewrite attemptFilePost_run. cbv zeta.
  destruct (outcome (browser env (length (trace env)))) as [formData|e].
  - match goal with |- context [isCancelled token ?e1] => destruct (isCancelled token e1) end.
    + eexists [_]. simpl. repeat split; auto.
    + match goal with |- context [outcome ?q] => destruct (outcome q) as [resp|e] end.
      * destruct (verifyResponse resp);
          (eexists [_; _]; simpl; rewrite <- app_assoc; repeat split; auto).
      * eexists [_; _]. simpl. rewrite <- app_assoc. repeat split; auto.
  - eexists [_]. simpl. repeat split; auto.
Qed.

Lemma attemptsStarted_app (xs ys : list Event) :
  attemptsStarted (xs ++ ys) = attemptsStarted xs + attemptsStarted ys.
Proof. unfold attemptsStarted. rewrite filter_app, length_app. reflexivity. Qed.

Lemma retries_app (xs ys : list Event) : retries (xs ++ ys) = retries xs + retries ys.
Proof. unfold retries. rewrite filter_app, length_app. reflexivity. Qed.

Lemma postsDispatched_app (xs ys : list Event) :
  postsDispatched (xs ++ ys) = postsDispatched xs + postsDispatched ys.
Proof. unfold postsDispatched. rewrite filter_app, length_app. reflexivity. Qed.

(** What [postFileSubmission] does after a first attempt that throws. *)
Lemma postFileSubmission_after_throw
  (token : CancellationToken) (data : FilePostData) (env env1 : Env) (err : Error) :
  attempt token data env = (Throw err, env1) ->
  post token data env = attempt token data (retryEnv err env1).
Proof.
  intros H1. unfold postFileSubmission, tryCatch. rewrite H1.
  unfold bind, loggerWarn, modify. reflexivity.
Qed.

(** C1.  A first attempt that returns is the result, with no second attempt.
    A first attempt that throws is followed by exactly one more attempt, with
    the same token and the same data, started right after the warning is
    logged; what that second attempt does is the result: its response when it
    succeeds, its error when it throws.  Two attempts are made in all. *)
Theorem postFileSubmission_retries_once
  (token : CancellationToken) (data : FilePostData) (env : Env) :
  (forall r env1,
      attempt token data env = (Ok r, env1) ->
      post token data env = (Ok r, env1)
      /\ attemptsStarted (trace env1) = attemptsStarted (trace env) + 1
      /\ retries (trace env1) = retries (trace env))
  /\ (forall err env1,
      attempt token data env = (Throw err, env1) ->
      post token data env = attempt token data (retryEnv err env1)
      /\ attemptsStarted (trace (snd (post token data env)))
         = attemptsStarted (trace env) + 2
      /\ retries (trace (snd (post token data env))) = retries (trace env) + 1
      /\ (forall r env2,
            attempt token data (retryEnv err env1) = (Ok r, env2) ->
            post token data env = (Ok r, env2))
      /\ (forall err2 env2,
            attempt token data (retryEnv err env1) = (Throw err2, env2) ->
            post token data env = (Throw err2, env2))).
Proof.
  split.
  - intros r env1 H1.
    destruct (attemptFilePost_events token data env) as [evs [Htr [Ha [Hr _]]]].
    rewrite H1 in Htr. simpl in Htr.
    unfold postFileSubmission, tryCatch. rewrite H1.
    split; [reflexivity|]. rewrite Htr, attemptsStarted_app, retries_app. lia.
  - intros err env1 H1.
    pose proof (postFileSubmission_after_throw token data env env1 err H1) as Hpost.
    destruct (attemptFilePost_events token data env) as [evs [Htr [Ha [Hr _]]]].
    rewrite H1 in Htr. simpl in Htr.
    destruct (attemptFilePost_events token data (retryEnv err env1))
      as [evs2 [Htr2 [Ha2 [Hr2 _]]]].
    rewrite Hpost.
    split; [reflexivity|].
    rewrite Htr2. unfold retryEnv at 2 4. simpl trace. rewrite Htr.
    rewrite !attemptsStarted_app, !retries_app, Ha, Ha2, Hr, Hr2.
    change (attemptsStarted [LoggerWarn err "Furbooru Post Retry"]) with 0.
    change (retries [LoggerWarn err "Furbooru Post Retry"]) with 1.
    split; [lia|]. split; [lia|]. split; intros ? ? H; exact H.
Qed.


End Retry.

Lemma postFileSubmission_retries_once_witness :
  fst (postFileSubmission (base := sampleBase) asciiLower 7 wolfPost flakyEnv) = Ok "posted"
  /\ fst (postFileSubmission (base := sampleBase) asciiLower 7 wolfPost refusingEnv)
     = Throw (ExternalError "500").
Proof.
  split.
  - rewrite (proj1 (proj2 (postFileSubmission_retries_once (base := sampleBase)
               asciiLower 7 wolfPost flakyEnv)
             (ExternalError "socket hang up")
             (snd (attemptFilePost (base := sampleBase) asciiLower 7 wolfPost flakyEnv))
             eq_refl)).
    reflexivity.
  - rewrite (proj1 (proj2 (postFileSubmission_retries_once (base := sampleBase)
               asciiLower 7 wolfPost refusingEnv)
             (ExternalError "socket hang up")
             (snd (attemptFilePost (base := sampleBase) asciiLower 7 wolfPost refusingEnv))
             eq_refl)).
    reflexivity.
Defined.



(** *** Facts about the tags and the form that are posted *)

Lemma scanKnownRatings_false (lowerCaseTags rs : list string) :
  scanKnownRatings lowerCaseTags rs true = false ->
  exists r, In r rs /\ In r lowerCaseTags.
Proof.
  induction rs as [|r rs IH]; simpl; [discriminate|].
  destruct (includes lowerCaseTags r) eqn:Hr.
  - intros _. exists r. split; [left; reflexivity | apply includes_In; exact Hr].
  - intros H. destruct (IH H) as [r' [Hin Hl]]. exists r'. split; [right; exact Hin | exact Hl].
Qed.

Lemma getRating_known (rating : SubmissionRating) : In (getRating rating) knownRatings.
Proof. destruct rating; simpl; auto 8. Qed.

(** X5.  Where lower-casing leaves the three rating tags as they are, the
    tags that are posted always hold a known rating tag, up to case: the
    rating tag of the submission, or a rating tag the user wrote. *)
Theorem posted_tags_carry_a_rating
  {base : WebsiteBase} (toLowerCase : string -> string) (data : FilePostData) :
  (forall r, toLowerCase (getRating r) = getRating r) ->
  exists r, In r knownRatings /\ In r (map toLowerCase (postTags toLowerCase data)).
Proof.
  intros Hlower. unfold postTags, withRatingTag. cbv zeta.
  destruct (includes (map toLowerCase (parseTags (tags data))) (getRating (rating data)))
    eqn:Hinc; cbn [negb].
  - exists (getRating (rating data)). split; [apply getRating_known|].
    apply includes_In. exact Hinc.
  - destruct (scanKnownRatings (map toLowerCase (parseTags (tags data))) knownRatings true)
      eqn:Hscan.
    + exists (getRating (rating data)). split; [apply getRating_known|].
      rewrite map_app. apply in_or_app. right. left. apply Hlower.
    + destruct (scanKnownRatings_false _ _ Hscan) as [r [Hk Hin]].
      exists r. split; assumption.
Qed.

Lemma posted_tags_carry_a_rating_witness :
  exists r, In r knownRatings
            /\ In r (map asciiLower
                       (postTags (base := sampleBase) asciiLower
                          (samplePost ["Wolf"; "Forest"] MATURE))).
Proof.
  apply (posted_tags_carry_a_rating (base := sampleBase) asciiLower
           (samplePost ["Wolf"; "Forest"] MATURE)).
  intros r. destruct r; reflexivity.
Defined.

(** The five keys the object literal of [attemptFilePost] writes. *)
Lemma formField_buildForm_other
  {base : WebsiteBase} (toLowerCase : string -> string) (data : FilePostData)
  (formData : Form) (k : string) :
  ~ In k ["_method"; "image[tag_input]"; "image[image]"; "image[description]";
          "image[source_url]"] ->
  formField k (buildForm toLowerCase data formData) = formField k formData.
Proof.
  intros Hk. unfold buildForm. rewrite !formField_setKey.
  repeat match goal with
         | |- context [String.eqb k ?c] =>
             destruct (String.eqb k c) eqn:E;
             [apply String.eqb_eq in E; exfalso; apply Hk; subst k; simpl; tauto | clear E]
         end.
  reflexivity.
Qed.

(** X6.  The form that is posted: whatever the form read in the browser
    window holds, five fields are written over it: [_method] is [post], the
    tag input is the formatted tags with their rating tag, the file is the
    primary file, the description is the submission's, and the source URL is
    the source of the options when there is a non-empty one, the first of the
    sources otherwise, the empty string when there is none; every field other
    than these five is the one read in the browser window. *)
Theorem posted_form_overrides_browser_form
  {base : WebsiteBase} (toLowerCase : string -> string) (data : FilePostData)
  (formData : Form) :
  let form := buildForm toLowerCase data formData in
  formField "_method" form = Some (FText "post")
  /\ formField "image[tag_input]" form
     = Some (FText (formatTags (postTags toLowerCase data)))
  /\ formField "image[image]" form = Some (FFile (primaryFile data))
  /\ formField "image[description]" form = Some (FText (description data))
  /\ formField "image[source_url]" form = Some (FText (sourceUrl data))
  /\ (forall s, optionsSource data = Some s -> s <> "" -> sourceUrl data = s)
  /\ (optionsSource data = None \/ optionsSource data = Some "" ->
      sourceUrl data = hd "" (sources data))
  /\ (forall k,
        ~ In k ["_method"; "image[tag_input]"; "image[image]"; "image[description]";
                "image[source_url]"] ->
        formField k form = formField k formData).
Proof.
  cbv zeta. repeat apply conj.
  - unfold buildForm. rewrite !formField_setKey. reflexivity.
  - unfold buildForm. rewrite !formField_setKey. reflexivity.
  - unfold buildForm. rewrite !formField_setKey. reflexivity.
  - unfold buildForm. rewrite !formField_setKey. reflexivity.
  - unfold buildForm. rewrite !formField_setKey. reflexivity.
  - intros s Hs Hne. unfold sourceUrl. rewrite Hs.
    destruct (String.eqb s "") eqn:E; [apply String.eqb_eq in E; contradiction | reflexivity].
  - intros [H|H]; unfold sourceUrl; rewrite H; cbn [String.eqb negb];
      destruct (sources data); reflexivity.
  - intros k Hk. apply formField_buildForm_other. exact Hk.
Qed.

Lemma posted_form_overrides_browser_form_witness :
  formField "authenticity_token"
    (buildForm (base := sampleBase) asciiLower wolfPost
       [("authenticity_token", FText "t0k"); ("_method", FText "put");
        ("image[tag_input]", FText "typed in the browser")])
  = Some (FText "t0k")
  /\ formField "_method"
       (buildForm (base := sampleBase) asciiLower wolfPost
          [("authenticity_token", FText "t0k"); ("_method", FText "put");
           ("image[tag_input]", FText "typed in the browser")])
     = Some (FText "post")
  /\ formField "image[tag_input]"
       (buildForm (base := sampleBase) asciiLower wolfPost
          [("authenticity_token", FText "t0k"); ("_method", FText "put");
           ("image[tag_input]", FText "typed in the browser")])
     = Some (FText (formatTags (base := sampleBase)
                      (postTags (base := sampleBase) asciiLower wolfPost))).
Proof.
  split; [|split].
  - rewrite (proj2 (proj2 (proj2 (proj2 (proj2 (proj2 (proj2
      (posted_form_overrides_browser_form (base := sampleBase) asciiLower wolfPost
         [("authenticity_token", FText "t0k"); ("_method", FText "put");
          ("image[tag_input]", FText "typed in the browser")])))))))
      "authenticity_token").
    + reflexivity.
    + simpl. intros [H|[H|[H|[H|[H|[]]]]]]; discriminate H.
  - apply (proj1 (posted_form_overrides_browser_form (base := sampleBase) asciiLower wolfPost
         [("authenticity_token", FText "t0k"); ("_method", FText "put");
          ("image[tag_input]", FText "typed in the browser")])).
  - apply (proj1 (proj2
      (posted_form_overrides_browser_form (base := sampleBase) asciiLower wolfPost
         [("authenticity_token", FText "t0k"); ("_method", FText "put");
          ("image[tag_input]", FText "typed in the browser")]))).
Defined.

(** *** How many posts a run dispatches *)

Section Posts.

Context {base : WebsiteBase}.
Variable toLowerCase : string -> string.

(** An attempt that returns has dispatched its post; one that throws has
    dispatched one post at most. *)
Lemma attemptFilePost_posts (token : CancellationToken) (data : FilePostData) (env : Env) :
  exists evs,
    trace (snd (attemptFilePost toLowerCase token data env)) = trace env ++ evs
    /\ attemptsStarted evs = 1
    /\ postsDispatched evs <= 1
    /\ (forall r, fst (attemptFilePost toLowerCase token data env) = Ok r ->
          postsDispatched evs = 1).
Proof.
  rewrite attemptFilePost_run. cbv zeta.
  destruct (outcome (browser env (length (trace env)))) as [formData|e].
  - match goal with |- context [isCancelled token ?e1] => destruct (isCancelled token e1) end.
    + eexists [_]. simpl. repeat split; auto. intros r H. discriminate H.
    + match goal with |- context [outcome ?q] => destruct (outcome q) as [resp|e] end.
      * destruct (verifyResponse resp);
          (eexists [_; _]; simpl; rewrite <- app_assoc; repeat split; auto).
      * eexists [_; _]. simpl. rewrite <- app_assoc. repeat split; auto.
  - eexists [_]. simpl. repeat split; auto. intros r H. discriminate H.
Qed.

(** X7.  A run of [postFileSubmission] opens the browser window once or
    twice and dispatches two HTTP posts at most; a run that returns a response
    has dispatched one at least. *)
Theorem postFileSubmission_posts_at_most_twice
  (token : CancellationToken) (data : FilePostData) (env : Env) :
  exists evs,
    trace (snd (postFileSubmission toLowerCase token data env)) = trace env ++ evs
    /\ 1 <= attemptsStarted evs <= 2
    /\ postsDispatched evs <= 2
    /\ retries evs <= 1
    /\ (forall r, fst (postFileSubmission toLowerCase token data env) = Ok r ->
          1 <= postsDispatched evs).
Proof.
  destruct (attemptFilePost_posts token data env) as [evs1 [Htr1 [Ha1 [Hp1 Hok1]]]].
  destruct (attemptFilePost_events toLowerCase token data env) as [evs1' [Htr1' [_ [Hr1 _]]]].
  rewrite Htr1 in Htr1'. apply app_inv_head in Htr1'. subst evs1'.
  destruct (attemptFilePost toLowerCase token data env) as [[r|err] env1] eqn:H1.
  - exists evs1. unfold postFileSubmission, tryCatch. rewrite H1.
    cbn [snd fst] in *. split; [exact Htr1|]. split; [lia|]. split; [lia|]. split; [lia|].
    intros r0 Hr0. rewrite (Hok1 r eq_refl). lia.
  - rewrite (postFileSubmission_after_throw toLowerCase token data env env1 err H1).
    destruct (attemptFilePost_posts token data (retryEnv err env1))
      as [evs2 [Htr2 [Ha2 [Hp2 Hok2]]]].
    destruct (attemptFilePost_events toLowerCase token data (retryEnv err env1))
      as [evs2' [Htr2' [_ [Hr2 _]]]].
    rewrite Htr2 in Htr2'. apply app_inv_head in Htr2'. subst evs2'.
    exists (evs1 ++ [LoggerWarn err "Furbooru Post Retry"] ++ evs2).
    cbn [snd] in Htr1. split.
    + rewrite Htr2. unfold retryEnv. cbn [record trace]. rewrite Htr1.
      rewrite <- !app_assoc. reflexivity.
    + rewrite !attemptsStarted_app, !postsDispatched_app, !retries_app.
      change (attemptsStarted [LoggerWarn err "Furbooru Post Retry"]) with 0.
      change (postsDispatched [LoggerWarn err "Furbooru Post Retry"]) with 0.
      change (retries [LoggerWarn err "Furbooru Post Retry"]) with 1.
      split; [lia|]. split; [lia|]. split; [lia|].
      intros r Hr. rewrite (Hok2 r Hr). lia.
Qed.

End Posts.

Lemma postFileSubmission_posts_at_most_twice_witness :
  exists evs,
    trace (snd (postFileSubmission (base := sampleBase) asciiLower 7 wolfPost flakyEnv))
    = trace flakyEnv ++ evs
    /\ 1 <= attemptsStarted evs <= 2
    /\ postsDispatched evs <= 2
    /\ retries evs <= 1
    /\ (forall r,
          fst (postFileSubmission (base := sampleBase) asciiLower 7 wolfPost flakyEnv) = Ok r ->
          1 <= postsDispatched evs).
Proof.
  apply (postFileSubmission_posts_at_most_twice (base := sampleBase) asciiLower 7 wolfPost
           flakyEnv).
Defined.

(** *** Facts about the validation *)

Section ValidationFacts.

Context {utils : ValidatorUtils}.

(** X8.  Furbooru's validation finds no problem exactly when there are five
    tags at least, the file type is supported, and the file is within 100MB or
    is an image that will be scaled down; it warns exactly when the file is
    over 100MB and will be scaled down; it answers three problems and one
    warning at most; and the size
    [getScalingOptions] scales down to is within the limit that is
    validated. *)
Theorem furbooru_validation_outcomes
  (submission : FileSubmission) (submissionPart defaultPart : SubmissionPart) :
  let v := validateFileSubmission submission submissionPart defaultPart in
  let file := primary submission in
  let nTags := length (getTags (tagData (data defaultPart)) (tagData (data submissionPart))) in
  let oversize := Z.ltb (MBtoBytes 100) (size file) in
  let scalable :=
    autoScale (data submissionPart) && isIMAGE (type file) && isMimeType (mimetype file) in
  (problems v = [] <->
     5 <= nTags /\ supportsFileType file acceptsFiles = true
     /\ (oversize = false \/ scalable = true))
  /\ (warnings v <> [] <-> oversize = true /\ scalable = true)
  /\ length (problems v) <= 3
  /\ length (warnings v) <= 1
  /\ Z.ltb (MBtoBytes 100) (maxSize (getScalingOptions file)) = false.
Proof.
  cbv zeta. unfold validateFileSubmission. cbv zeta.
  change (numberToString 100) with "100".
  change (String.concat ", " acceptsFiles) with "jpeg, jpg, png, svg, gif, webm".
  destruct (Nat.ltb (length (getTags (tagData (data defaultPart))
                               (tagData (data submissionPart)))) 5) eqn:Ht;
    [apply Nat.ltb_lt in Ht | apply Nat.ltb_ge in Ht];
    destruct (supportsFileType (primary submission) acceptsFiles) eqn:Hs;
    destruct (Z.ltb (MBtoBytes 100) (size (primary submission))) eqn:Ho;
    destruct (autoScale (data submissionPart) && isIMAGE (type (primary submission))
              && isMimeType (mimetype (primary submission))) eqn:Hsc;
    cbn [negb problems warnings app length];
    unfold getScalingOptions; cbn [maxSize]; rewrite Z.ltb_irrefl;
    intuition (try congruence; try lia).
Qed.

End ValidationFacts.

(** *** Facts about the login check *)

Lemma startsLineSeparator_before_quote (c : ascii) (name rest : string) :
  startsLineSeparator (String c (String.append name (String doubleQuote rest)))
  = startsLineSeparator (String c name).
Proof.
  destruct name as [|b [|d name]]; cbn [String.append startsLineSeparator].
  - destruct rest; [reflexivity|].
    change (byteIs doubleQuote 128) with false. rewrite andb_false_r. reflexivity.
  - change (byteIs doubleQuote 168) with false. change (byteIs doubleQuote 169) with false.
    rewrite andb_false_r. reflexivity.
  - reflexivity.
Qed.

Lemma lazyUntilQuote_found (name rest : string) :
  capturable name = true ->
  lazyUntilQuote (String.append name (String doubleQuote rest)) = Some name.
Proof.
  induction name as [|c name IH]; intros H.
  - reflexivity.
  - cbn [capturable] in H.
    apply andb_true_iff in H. destruct H as [H Hn].
    apply andb_true_iff in H. destruct H as [H Hs].
    apply andb_true_iff in H. destruct H as [Hq Hl].
    apply negb_true_iff in Hq. apply negb_true_iff in Hl. apply negb_true_iff in Hs.
    cbn [String.append]. cbn [lazyUntilQuote].
    rewrite startsLineSeparator_before_quote.
    rewrite Hq, Hl, Hs. cbn [orb]. rewrite (IH Hn). reflexivity.
Qed.

Lemma lazyUntilQuote_captures (s name : string) :
  lazyUntilQuote s = Some name ->
  capturable name = true
  /\ exists rest, s = String.append name (String doubleQuote rest).
Proof.
  revert name. induction s as [|c s IH]; intros name H; [discriminate H|].
  cbn [lazyUntilQuote] in H.
  destruct (Ascii.eqb c doubleQuote) eqn:Hq.
  - injection H as <-. apply Ascii.eqb_eq in Hq. subst c.
    split; [reflexivity | exists s; reflexivity].
  - destruct (isLineTerminator c) eqn:Hl; [discriminate H|].
    destruct (startsLineSeparator (String c s)) eqn:Hs; [discriminate H|].
    cbn [orb] in H.
    destruct (lazyUntilQuote s) as [captured|] eqn:Hrec; [|discriminate H].
    injection H as <-.
    destruct (IH captured eq_refl) as [Hcap [rest Hrest]].
    split.
    + cbn [capturable]. rewrite Hq, Hl, Hcap. cbn [negb andb].
      rewrite Hrest in Hs. rewrite startsLineSeparator_before_quote in Hs.
      rewrite Hs. reflexivity.
    + exists rest. cbn [String.append]. rewrite Hrest. reflexivity.
Qed.

Lemma stripPrefix_append (p s : string) : stripPrefix p (String.append p s) = Some s.
Proof.
  induction p as [|a p IH]; [reflexivity|].
  cbn [String.append stripPrefix]. rewrite Ascii.eqb_refl. exact IH.
Qed.

(** X9.  The login check of Furbooru.  A failed request is thrown as it is.
    A page without [Logout] answers "not logged in", with no user name, and
    saves no cookies.  A page with [Logout] and the user-name attribute answers
    "logged in" with the name between the quotes, and saves the session
    cookies of the account.  A page with [Logout] where the attribute is not
    found throws a [TypeError] and answers nothing.  So an answer says
    "logged in" exactly when it carries a user name, and exactly then the
    cookies were saved.  The attribute is found where a name without a double
    quote and without a line terminator (LF, CR, U+2028, U+2029) stands
    between the quotes; a name the check answers is such a name; and where a
    line terminator stands between the only quotes of the page the attribute
    is not found. *)
Theorem furbooru_login_check
  (httpGet : string -> string -> Result HttpResponse) (account : string) :
  let r := checkLoginStatus httpGet account in
  (forall e, httpGet BASE_URL account = Throw e -> r = (Throw e, []))
  /\ (forall res, httpGet BASE_URL account = Ok res ->
        stringIncludes (body res) "Logout" = false ->
        r = (Ok {| loggedIn := false; username := None |}, []))
  /\ (forall res name, httpGet BASE_URL account = Ok res ->
        stringIncludes (body res) "Logout" = true ->
        matchUserName (body res) = Some name ->
        r = (Ok {| loggedIn := true; username := Some name |},
             [SaveSessionCookies BASE_URL account]))
  /\ (forall res, httpGet BASE_URL account = Ok res ->
        stringIncludes (body res) "Logout" = true ->
        matchUserName (body res) = None ->
        r = (Throw (TypeError "Cannot read properties of null"), []))
  /\ (forall status effects, r = (Ok status, effects) ->
        (loggedIn status = true <-> exists name, username status = Some name)
        /\ (loggedIn status = true <-> effects = [SaveSessionCookies BASE_URL account])
        /\ (loggedIn status = false <-> effects = []))
  /\ (forall name rest,
        capturable name = true ->
        matchUserName
          (String.append userNameAttribute (String.append name (String doubleQuote rest)))
        = Some name)
  /\ (forall page name, matchUserName page = Some name -> capturable name = true)
  /\ (forall rest name,
        userNameHere (String.append userNameAttribute rest) = Some name <->
        capturable name = true
        /\ exists rest', rest = String.append name (String doubleQuote rest'))
  /\ matchUserName (String.append userNameAttribute (String.append lineSeparatorName
                       (String doubleQuote EmptyString))) = None.
Proof.
  cbv zeta. unfold checkLoginStatus.
  split; [|split; [|split; [|split; [|split; [|split; [|split; [|split]]]]]]].
  - intros e ->. reflexivity.
  - intros res -> ->. reflexivity.
  - intros res name -> -> ->. reflexivity.
  - intros res -> -> ->. reflexivity.
  - intros status effects.
    destruct (httpGet BASE_URL account) as [res|e]; [|discriminate].
    destruct (stringIncludes (body res) "Logout").
    + destruct (matchUserName (body res)) as [name|]; [|discriminate].
      intros H. inversion H; subst. cbn [loggedIn username].
      split; [split; [intros _; exists name; reflexivity | reflexivity]|].
      split; [split; reflexivity | split; discriminate].
    + intros H. inversion H; subst. cbn [loggedIn username].
      split; [split; [discriminate | intros [n Hn]; discriminate Hn]|].
      split; [split; discriminate | split; reflexivity].
  - intros name rest Hname.
    destruct (String.append userNameAttribute (String.append name (String doubleQuote rest)))
      as [|c0 s0] eqn:Hbody; [discriminate Hbody|].
    rewrite <- Hbody. clear Hbody.
    assert (Hhere : userNameHere
              (String.append userNameAttribute
                 (String.append name (String doubleQuote rest))) = Some name).
    { unfold userNameHere. rewrite stripPrefix_append.
      apply lazyUntilQuote_found. exact Hname. }
    destruct (String.append userNameAttribute (String.append name (String doubleQuote rest)))
      eqn:Hb; cbn [matchUserName]; rewrite Hhere; reflexivity.
  - intros page. induction page as [|c page IH]; intros name H.
    + cbn [matchUserName] in H. unfold userNameHere in H. discriminate H.
    + cbn [matchUserName] in H.
      destruct (userNameHere (String c page)) as [captured|] eqn:Hhere.
      * injection H as <-. unfold userNameHere in Hhere.
        destruct (stripPrefix userNameAttribute (String c page)); [|discriminate Hhere].
        exact (proj1 (lazyUntilQuote_captures _ _ Hhere)).
      * exact (IH name H).
  - intros rest name. unfold userNameHere. rewrite stripPrefix_append. split.
    + apply lazyUntilQuote_captures.
    + intros [Hcap [rest' ->]]. apply lazyUntilQuote_found. exact Hcap.
  - vm_compute. reflexivity.
Qed.

Lemma furbooru_login_check_witness :
  checkLoginStatus (siteServing loggedInPage) "acc1"
  = (Ok {| loggedIn := true; username := Some "wolf" |},
     [SaveSessionCookies BASE_URL "acc1"])
  /\ checkLoginStatus (siteServing "<a href=/session>Logout</a>") "acc1"
     = (Throw (TypeError "Cannot read properties of null"), [])
  /\ matchUserName
       (String.append userNameAttribute (String.append "wolf" (String doubleQuote ">")))
     = Some "wolf".
Proof.
  split; [|split].
  - apply (proj1 (proj2 (proj2
      (furbooru_login_check (siteServing loggedInPage) "acc1")))
      {| body := loggedInPage |} "wolf"); reflexivity.
  - apply (proj1 (proj2 (proj2 (proj2
      (furbooru_login_check (siteServing "<a href=/session>Logout</a>") "acc1"))))
      {| body := "<a href=/session>Logout</a>" |}); reflexivity.
  - apply (proj1 (proj2 (proj2 (proj2 (proj2 (proj2
      (furbooru_login_check (siteServing loggedInPage) "acc1")))))) "wolf" ">").
    reflexivity.
Defined.

(** A page of a logged-in user whose name holds U+2028: the pattern does not
    match, and the check throws. *)
Example furbooru_login_line_separator :
  checkLoginStatus
    (siteServing (String.append "Logout "
       (String.append userNameAttribute
          (String.append lineSeparatorName (String doubleQuote ">"))))) "acc1"
  = (Throw (TypeError "Cannot read properties of null"), []).
Proof. vm_compute. reflexivity. Qed.

End Furbooru.

(** ** The Weasyl website class ([weasyl.service.ts]) *)

Module Weasyl.

Definition BASE_URL : string := "https://www.weasyl.com".

Definition acceptsFiles : list string :=
  ["jpg"; "jpeg"; "png"; "gif"; "md"; "txt"; "pdf"; "swf"; "mp3"].

(** [postFileSubmission(data)] *)
Definition postFileSubmission {Data A : Type} (data : Data) : Result A :=
  Throw (NotImplementedException "Method not implemented.").

Section Validate.

Context {utils : ValidatorUtils}.

(** Lines 109-119: the size limit for the file's type. *)
Definition maxMBFor (file : FileRecord) : Z :=
  match type file with
  | VIDEO | AUDIO => 15
  | TEXT =>
      if stringIncludes (name file) ".md" || stringIncludes (name file) ".md"
      then 2 else 10 (* assume pdf *)
  | _ => 10
  end.

(** The method is declared to return [string[]]: the problems. *)
Definition validateFileSubmission
  (submission : FileSubmission) (submissionPart defaultPart : SubmissionPart)
  : list string :=
  let problems1 :=
    if negb (supportsFileType (primary submission) acceptsFiles)
    then [("Weasyl does not support file format: " ++ mimetype (primary submission)
           ++ ".")%string]
    else [] in
  let problems2 :=
    if Nat.ltb (length (getTags (tagData (data defaultPart)) (tagData (data submissionPart)))) 2
    then problems1 ++ ["Weasyl requires at least 2 tags."] else problems1 in
  let maxMB := maxMBFor (primary submission) in
  if Z.ltb (MBtoBytes maxMB) (size (primary submission))
  then problems2 ++ [("Weasyl limits " ++ typeName (type (primary submission)) ++ " to "
                      ++ numberToString maxMB ++ "MB")%string]
  else problems2.

End Validate.

(** [parseDescription(text)], [postStatusSubmission(data)] and
    [validateStatusSubmission(submission, part)] *)
Definition parseDescription (text : string) : Result string :=
  Throw (NotImplementedException "Method not implemented.").

Definition postStatusSubmission {Data A : Type} (data : Data) : Result A :=
  Throw (NotImplementedException "Method not implemented.").

Definition validateStatusSubmission {S P : Type} (submission : S) (submissionPart : P)
  : Result (list string) :=
  Throw (NotImplementedException "Method not implemented.").

(** *** Folders and the login check (lines 41-92) *)

(** A folder of the site's answer, as far as [retrieveFolders] reads it. *)
Record RawSubfolder : Type := {
  sub_title : string;
  sub_folder_id : Z
}.

Record RawFolder : Type := {
  raw_title : string;
  raw_folder_id : Z;
  subfolders : option (list RawSubfolder)   (* [folder.subfolders], or [undefined] *)
}.

Record Folder : Type := {
  title : string;
  id : Z
}.

(** The body of [/api/users/<name>/view]. *)
Record ViewBody : Type := { folders : option (list RawFolder) }.

(** The body of [/api/whoami]; [_.get(res.body, 'login')] is [undefined]
    ([None]) where there is none. *)
Record WhoamiBody : Type := { login : option string }.

Record LoginResponse : Type := {
  loggedIn : bool;
  username : option string
}.

(** [Http.get], by URL and account. *)
Record Network : Type := {
  getWhoami : string -> string -> Result WhoamiBody;
  getView : string -> string -> Result ViewBody
}.

(** The requests made so far, and [this.accountInformation]. *)
Record Site : Type := {
  requests : list string;
  accountInformation : list (string * list Folder)
}.

Definition request (url : string) (st : Site) : Site :=
  {| requests := requests st ++ [url]; accountInformation := accountInformation st |}.

(** [this.accountInformation.set(id, { folders })] *)
Definition setAccountInformation (account : string) (fs : list Folder) (st : Site) : Site :=
  {| requests := requests st;
     accountInformation :=
       (account, fs)
       :: filter (fun kv => negb (String.eqb account (fst kv))) (accountInformation st) |}.

Definition accountFolders (account : string) (st : Site) : option (list Folder) :=
  match find (fun kv => String.eqb account (fst kv)) (accountInformation st) with
  | Some kv => Some (snd kv)
  | None => None
  end.

(** The inner loop: the subfolders of [parent] pushed on [converted]. *)
Fixpoint pushSubfolders (parent : Folder) (subs : list RawSubfolder) (converted : list Folder)
  : list Folder :=
  match subs with
  | [] => converted
  | subfolder :: rest =>
      pushSubfolders parent rest
        (converted ++ [{| title := (title parent ++ " / " ++ sub_title subfolder)%string;
                          id := sub_folder_id subfolder |}])
  end.

(** The outer loop. *)
Fixpoint pushFolders (fs : list RawFolder) (converted : list Folder) : list Folder :=
  match fs with
  | [] => converted
  | folder :: rest =>
      let _folder := {| title := raw_title folder; id := raw_folder_id folder |} in
      let converted1 := converted ++ [_folder] in
      pushFolders rest
        (match subfolders folder with
         | Some subs => pushSubfolders _folder subs converted1
         | None => converted1
         end)
  end.

(** [`${loginName}`] *)
Definition templateOf (loginName : option string) : string :=
  match loginName with Some n => n | None => "undefined" end.

Definition viewUrl (loginName : option string) : string :=
  (BASE_URL ++ "/api/users/" ++ templateOf loginName ++ "/view")%string.

Section Login.

Variable net : Network.

Definition retrieveFolders (account : string) (loginName : option string) : M Site unit :=
  res <- (fun st => (getView net (viewUrl loginName) account, request (viewUrl loginName) st)) ;;
  let fs := match folders res with Some l => l | None => [] end in
  modify (setAccountInformation account (pushFolders fs [])).

(** [!!login] *)
Definition truthyLogin (l : option string) : bool :=
  match l with Some n => negb (String.eqb n "") | None => false end.

Definition checkLoginStatus (account : string) : M Site LoginResponse :=
  res <- (fun st => (getWhoami net (BASE_URL ++ "/api/whoami") account,
                     request (BASE_URL ++ "/api/whoami") st)) ;;
  let status := {| loggedIn := truthyLogin (login res); username := login res |} in
  tryCatch (retrieveFolders account (username status) ;;; ret status)
    (fun _ => (* Swallow *) ret status).

End Login.

(** The folders a site answers, as the page shows them. *)
Definition flatFolders (fs : list RawFolder) : list Folder :=
  flat_map
    (fun folder =>
       {| title := raw_title folder; id := raw_folder_id folder |}
       :: map (fun subfolder =>
                 {| title := (raw_title folder ++ " / " ++ sub_title subfolder)%string;
                    id := sub_folder_id subfolder |})
              (match subfolders folder with Some subs => subs | None => [] end))
    fs.

Definition countFolders (fs : list RawFolder) : nat :=
  fold_right
    (fun folder n =>
       S (length (match subfolders folder with Some subs => subs | None => [] end)) + n)
    0 fs.

(** A site with two folders, one of them with a subfolder; the user is
    [wolf]. *)
Definition sampleNetwork : Network :=
  {| getWhoami := fun _ _ => Ok {| login := Some "wolf" |};
     getView := fun url _ =>
       if String.eqb url "https://www.weasyl.com/api/users/wolf/view"
       then Ok {| folders :=
                    Some [{| raw_title := "Art"; raw_folder_id := 1;
                             subfolders := Some [{| sub_title := "Sketches";
                                                    sub_folder_id := 2 |}] |};
                          {| raw_title := "Photos"; raw_folder_id := 3;
                             subfolders := None |}] |}
       else Throw (ExternalError "404") |}.

(** Nobody is logged in, and the site does not know the user [undefined]. *)
Definition anonymousNetwork : Network :=
  {| getWhoami := fun _ _ => Ok {| login := None |};
     getView := fun _ _ => Throw (ExternalError "404") |}.

Definition emptySite : Site := {| requests := []; accountInformation := [] |}.

(** *** Properties *)

Section ValidationFacts.

Context {utils : ValidatorUtils}.

(** X10.  Weasyl's validation finds no problem exactly when the file type is
    supported, there are two tags at least, and the file is within the limit
    of its type; it answers three problems at most.  The limit is 15MB for
    video and audio, 2MB for a text file whose name holds [.md] anywhere, and
    10MB for everything else. *)
Theorem weasyl_validation_outcomes
  (submission : FileSubmission) (submissionPart defaultPart : SubmissionPart) :
  let file := primary submission in
  let nTags := length (getTags (tagData (data defaultPart)) (tagData (data submissionPart))) in
  (validateFileSubmission submission submissionPart defaultPart = [] <->
     supportsFileType file acceptsFiles = true /\ 2 <= nTags
     /\ Z.ltb (MBtoBytes (maxMBFor file)) (size file) = false)
  /\ length (validateFileSubmission submission submissionPart defaultPart) <= 3
  /\ (maxMBFor file = 15%Z <-> type file = VIDEO \/ type file = AUDIO)
  /\ (maxMBFor file = 2%Z <-> type file = TEXT /\ stringIncludes (name file) ".md" = true)
  /\ (maxMBFor file = 2%Z \/ maxMBFor file = 10%Z \/ maxMBFor file = 15%Z).
Proof.
  cbv zeta. split; [|split; [|split; [|split]]].
  - unfold validateFileSubmission. cbv zeta.
    destruct (supportsFileType (primary submission) acceptsFiles);
      destruct (Nat.ltb (length (getTags (tagData (data defaultPart))
                                   (tagData (data submissionPart)))) 2) eqn:Ht;
      [apply Nat.ltb_lt in Ht | apply Nat.ltb_ge in Ht
       | apply Nat.ltb_lt in Ht | apply Nat.ltb_ge in Ht];
      destruct (Z.ltb (MBtoBytes (maxMBFor (primary submission))) (size (primary submission)));
      cbn [negb app]; intuition (try congruence; try lia).
  - unfold validateFileSubmission. cbv zeta.
    destruct (supportsFileType (primary submission) acceptsFiles);
      destruct (Nat.ltb _ 2); destruct (Z.ltb _ _); simpl; lia.
  - unfold maxMBFor. destruct (type (primary submission));
      try destruct (stringIncludes (name (primary submission)) ".md");
      cbn [orb]; intuition (try congruence; try lia).
  - unfold maxMBFor. destruct (type (primary submission));
      try destruct (stringIncludes (name (primary submission)) ".md");
      cbn [orb]; intuition (try congruence; try lia).
  - unfold maxMBFor. destruct (type (primary submission));
      try destruct (stringIncludes (name (primary submission)) ".md");
      cbn [orb]; auto.
Qed.

End ValidationFacts.

Lemma pushSubfolders_spec (parent : Folder) (subs : list RawSubfolder) :
  forall converted,
    pushSubfolders parent subs converted
    = converted ++ map (fun subfolder =>
                          {| title := (title parent ++ " / " ++ sub_title subfolder)%string;
                             id := sub_folder_id subfolder |}) subs.
Proof.
  induction subs as [|x subs IH]; intros converted; cbn [pushSubfolders map].
  - rewrite app_nil_r. reflexivity.
  - rewrite IH, <- app_assoc. reflexivity.
Qed.

Lemma pushFolders_spec (fs : list RawFolder) :
  forall converted, pushFolders fs converted = converted ++ flatFolders fs.
Proof.
  induction fs as [|folder fs IH]; intros converted; cbn [pushFolders flatFolders flat_map].
  - rewrite app_nil_r. reflexivity.
  - cbv zeta. rewrite IH. fold (flatFolders fs).
    destruct (subfolders folder) as [subs|].
    + rewrite pushSubfolders_spec. cbn [title map]. rewrite <- !app_assoc. reflexivity.
    + cbn [map app]. rewrite <- app_assoc. reflexivity.
Qed.

Lemma length_flatFolders (fs : list RawFolder) : length (flatFolders fs) = countFolders fs.
Proof.
  induction fs as [|folder fs IH]; [reflexivity|].
  cbn [flatFolders flat_map countFolders fold_right].
  rewrite length_app. cbn [length]. rewrite length_map.
  fold (flatFolders fs). rewrite IH. reflexivity.
Qed.

Section LoginFacts.

Variable net : Network.

Lemma retrieveFolders_run (account : string) (loginName : option string) (st : Site) :
  retrieveFolders net account loginName st
  = match getView net (viewUrl loginName) account with
    | Ok body =>
        (Ok tt,
         setAccountInformation account
           (flatFolders (match folders body with Some l => l | None => [] end))
           (request (viewUrl loginName) st))
    | Throw e => (Throw e, request (viewUrl loginName) st)
    end.
Proof.
  unfold retrieveFolders, bind, modify.
  destruct (getView net (viewUrl loginName) account) as [body|e]; [|reflexivity].
  rewrite pushFolders_spec. reflexivity.
Qed.

Lemma accountFolders_set (account : string) (fs : list Folder) (st : Site) :
  accountFolders account (setAccountInformation account fs st) = Some fs.
Proof.
  unfold accountFolders, setAccountInformation. cbn [accountInformation find fst snd].
  rewrite String.eqb_refl. reflexivity.
Qed.

Lemma accountFolders_set_other (account other : string) (fs : list Folder) (st : Site) :
  other <> account ->
  accountFolders other (setAccountInformation account fs st) = accountFolders other st.
Proof.
  intros Hne. unfold accountFolders, setAccountInformation.
  cbn [accountInformation find fst snd].
  destruct (String.eqb other account) eqn:E; [apply String.eqb_eq in E; contradiction|].
  assert (Hfind : forall l,
            find (fun kv : string * list Folder => String.eqb other (fst kv))
              (filter (fun kv => negb (String.eqb account (fst kv))) l)
            = find (fun kv => String.eqb other (fst kv)) l).
  { induction l as [|kv l IHl]; [reflexivity|]. cbn [filter find].
    destruct (String.eqb account (fst kv)) eqn:Ea; cbn [negb find].
    - apply String.eqb_eq in Ea. rewrite <- Ea. rewrite E. exact IHl.
    - destruct (String.eqb other (fst kv)); [reflexivity | exact IHl]. }
  rewrite Hfind. reflexivity.
Qed.

Lemma checkLoginStatus_run (account : string) (st : Site) (body : WhoamiBody) :
  getWhoami net (BASE_URL ++ "/api/whoami")%string account = Ok body ->
  checkLoginStatus net account st
  = (Ok {| loggedIn := truthyLogin (login body); username := login body |},
     snd (retrieveFolders net account (login body)
            (request (BASE_URL ++ "/api/whoami")%string st))).
Proof.
  intros Hb. unfold checkLoginStatus, bind, tryCatch, ret. rewrite Hb. cbn [username].
  destruct (retrieveFolders net account (login body) _) as [[u|e] st1]; reflexivity.
Qed.

(** X11.  The folders [retrieveFolders] keeps for an account: every folder
    of the answer in the order of the answer, each followed by its
    subfolders, whose titles are prefixed with the title of the folder; as
    many entries as there are folders and subfolders; none when the answer
    has no [folders].  They replace what was kept for that account, and what
    is kept for other accounts stays.  A failed request is thrown and keeps
    what was there. *)
Theorem retrieveFolders_flattens (account : string) (loginName : option string) (st : Site) :
  (forall body, getView net (viewUrl loginName) account = Ok body ->
     let fs := match folders body with Some l => l | None => [] end in
     exists st',
       retrieveFolders net account loginName st = (Ok tt, st')
       /\ accountFolders account st' = Some (flatFolders fs)
       /\ length (flatFolders fs) = countFolders fs
       /\ (folders body = None -> accountFolders account st' = Some [])
       /\ (forall other, other <> account ->
             accountFolders other st' = accountFolders other st)
       /\ requests st' = requests st ++ [viewUrl loginName])
  /\ (forall e, getView net (viewUrl loginName) account = Throw e ->
        retrieveFolders net account loginName st = (Throw e, request (viewUrl loginName) st)
        /\ accountFolders account (request (viewUrl loginName) st)
           = accountFolders account st).
Proof.
  split.
  - intros body Hb. cbv zeta. eexists. rewrite retrieveFolders_run, Hb.
    split; [reflexivity|].
    split; [apply accountFolders_set|].
    split; [apply length_flatFolders|].
    split; [intros Hn; rewrite Hn; apply accountFolders_set|].
    split; [|reflexivity].
    intros other Hne. rewrite (accountFolders_set_other account other _ _ Hne). reflexivity.
  - intros e He. rewrite retrieveFolders_run, He. split; reflexivity.
Qed.

(** X12.  The login check of Weasyl.  A failed [whoami] request is thrown.
    Otherwise the check answers, and never throws: "logged in" exactly when
    the site names a non-empty login, with that login as user name.  The
    folders are then asked for in every case, also when nobody is logged in
    (for the user [undefined]); a failure of that second request is swallowed:
    the answer is the same and the folders kept for the account stay as they
    were. *)
Theorem weasyl_login_check (account : string) (st : Site) :
  let whoamiUrl := (BASE_URL ++ "/api/whoami")%string in
  (forall e, getWhoami net whoamiUrl account = Throw e ->
     checkLoginStatus net account st = (Throw e, request whoamiUrl st))
  /\ (forall body, getWhoami net whoamiUrl account = Ok body ->
        let status := {| loggedIn := truthyLogin (login body); username := login body |} in
        fst (checkLoginStatus net account st) = Ok status
        /\ (loggedIn status = true <-> exists n, login body = Some n /\ n <> "")
        /\ requests (snd (checkLoginStatus net account st))
           = requests st ++ [whoamiUrl; viewUrl (login body)]
        /\ (forall e, getView net (viewUrl (login body)) account = Throw e ->
              accountFolders account (snd (checkLoginStatus net account st))
              = accountFolders account st)
        /\ (forall view, getView net (viewUrl (login body)) account = Ok view ->
              accountFolders account (snd (checkLoginStatus net account st))
              = Some (flatFolders (match folders view with Some l => l | None => [] end)))).
Proof.
  cbv zeta. split.
  - intros e He. unfold checkLoginStatus, bind. rewrite He. reflexivity.
  - intros body Hb. rewrite (checkLoginStatus_run account st body Hb).
    rewrite retrieveFolders_run. cbn [fst snd].
    split; [reflexivity|]. split; [|split; [|split]].
    + cbn [loggedIn]. unfold truthyLogin. destruct (login body) as [n|].
      * destruct (String.eqb n "") eqn:E; cbn [negb].
        -- apply String.eqb_eq in E. split; [discriminate|].
           intros [n' [Hn Hne]]. inversion Hn; subst. contradiction.
        -- apply String.eqb_neq in E. split; [|reflexivity].
           intros _. exists n. split; [reflexivity | exact E].
      * split; [discriminate|]. intros [n [Hn _]]. discriminate Hn.
    + destruct (getView net (viewUrl (login body)) account); cbn [snd];
        unfold setAccountInformation, request; cbn [requests];
        rewrite <- app_assoc; reflexivity.
    + intros e ->. reflexivity.
    + intros view ->. cbn [snd]. apply accountFolders_set.
Qed.

End LoginFacts.

Lemma retrieveFolders_flattens_witness :
  exists st',
    retrieveFolders sampleNetwork "acc1" (Some "wolf") emptySite = (Ok tt, st')
    /\ accountFolders "acc1" st'
       = Some [{| title := "Art"; id := 1 |}; {| title := "Art / Sketches"; id := 2 |};
               {| title := "Photos"; id := 3 |}].
Proof.
  destruct (proj1 (retrieveFolders_flattens sampleNetwork "acc1" (Some "wolf") emptySite)
              _ eq_refl) as [st' [Hrun [Hf _]]].
  exists st'. split; [exact Hrun | exact Hf].
Defined.

Lemma weasyl_login_check_witness :
  fst (checkLoginStatus anonymousNetwork "acc1" emptySite)
  = Ok {| loggedIn := false; username := None |}
  /\ requests (snd (checkLoginStatus anonymousNetwork "acc1" emptySite))
     = ["https://www.weasyl.com/api/whoami";
        "https://www.weasyl.com/api/users/undefined/view"].
Proof.
  destruct (proj2 (weasyl_login_check anonymousNetwork "acc1" emptySite)
              {| login := None |} eq_refl) as [Hfst [_ [Hreq _]]].
  split; [exact Hfst | exact Hreq].
Defined.

End Weasyl.

(** ** The two website classes behind one call *)

Module Adapters.

Inductive Website : Type := FurbooruSite | WeasylSite.

(** What the caller of a site's [validateFileSubmission] receives: the object
    [{ problems, warnings }], or a bare array of problems. *)
Inductive Validation : Type :=
| PartsObject (parts : ValidationParts)
| ProblemsArray (problems : list string).

(** [result.problems] and [result.warnings]: [undefined] ([None]) on an array. *)
Definition problemsOf (v : Validation) : option (list string) :=
  match v with
  | PartsObject parts => Some (problems parts)
  | ProblemsArray _ => None
  end.

Definition warningsOf (v : Validation) : option (list string) :=
  match v with
  | PartsObject parts => Some (warnings parts)
  | ProblemsArray _ => None
  end.

Section Dispatch.

Context {utils : ValidatorUtils}.

(** [website.validateFileSubmission(submission, part, defaultPart)] *)
Definition validateFileSubmission (website : Website)
  (submission : FileSubmission) (submissionPart defaultPart : SubmissionPart) : Validation :=
  match website with
  | FurbooruSite =>
      PartsObject (Furbooru.validateFileSubmission submission submissionPart defaultPart)
  | WeasylSite =>
      ProblemsArray (Weasyl.validateFileSubmission submission submissionPart defaultPart)
  end.

End Dispatch.

(** *** A concrete run *)

Definition sampleUtils : ValidatorUtils :=
  {| TagData := list string;
     getTags := fun defaultTags partTags => defaultTags ++ partTags;
     supportsFileType := fun file accepted =>
       existsb (fun ext => stringIncludes (mimetype file) ext) accepted;
     MBtoBytes := fun mb => (mb * 1048576)%Z;
     isMimeType := fun m => stringIncludes m "image/";
     typeName := fun t =>
       match t with
       | IMAGE => "IMAGE" | TEXT => "TEXT" | VIDEO => "VIDEO"
       | AUDIO => "AUDIO" | UNKNOWN => "UNKNOWN"
       end |}.

Definition wolfPng : FileSubmission :=
  {| primary := {| type := IMAGE; size := 2000000; name := "wolf.png";
                   mimetype := "image/png" |} |}.

Definition partWith (ts : list string) : SubmissionPart (utils := sampleUtils) :=
  @Build_SubmissionPart sampleUtils (@Build_PartData sampleUtils true ts).

(** *** Properties *)

Section DispatchFacts.

Context {utils : ValidatorUtils}.

(** C7, as the code has it.  Furbooru's validation returns the object
    [{ problems, warnings }]: the problems in the order tags, file format, size
    limit, and as only warning the announcement that an oversize image will be
    scaled down (then the size is no problem).  Weasyl's validation returns the
    ordered problems only (file format, tags, size limit): an array, with no
    warnings in it. *)
Theorem validateFileSubmission_shapes
  (submission : FileSubmission) (submissionPart defaultPart : SubmissionPart) :
  let file := primary submission in
  let nTags := length (getTags (tagData (data defaultPart)) (tagData (data submissionPart))) in
  let scalable :=
    autoScale (data submissionPart) && isIMAGE (type file) && isMimeType (mimetype file) in
  validateFileSubmission FurbooruSite submission submissionPart defaultPart
  = PartsObject
      {| problems :=
           (if Nat.ltb nTags 5 then ["Requires at least 5 tags."] else [])
           ++ (if supportsFileType file Furbooru.acceptsFiles then []
               else ["Currently supported file formats: jpeg, jpg, png, svg, gif, webm"])
           ++ (if Z.ltb (MBtoBytes 100) (size file) && negb scalable
               then [("Furbooru limits " ++ mimetype file ++ " to 100MB")%string] else []);
         warnings :=
           if Z.ltb (MBtoBytes 100) (size file) && scalable
           then [(name file ++ " will be scaled down to 100MB")%string] else [] |}
  /\ validateFileSubmission WeasylSite submission submissionPart defaultPart
     = ProblemsArray
         ((if supportsFileType file Weasyl.acceptsFiles then []
           else [("Weasyl does not support file format: " ++ mimetype file ++ ".")%string])
          ++ (if Nat.ltb nTags 2 then ["Weasyl requires at least 2 tags."] else [])
          ++ (if Z.ltb (MBtoBytes (Weasyl.maxMBFor file)) (size file)
              then [("Weasyl limits " ++ typeName (type file) ++ " to "
                     ++ numberToString (Weasyl.maxMBFor file) ++ "MB")%string]
              else []))
  /\ warningsOf (validateFileSubmission WeasylSite submission submissionPart defaultPart)
     = None.
Proof.
  cbv zeta. split; [|split; [|reflexivity]].
  - unfold validateFileSubmission, Furbooru.validateFileSubmission. cbv zeta.
    change (numberToString 100) with "100".
    change (String.concat ", " Furbooru.acceptsFiles) with "jpeg, jpg, png, svg, gif, webm".
    destruct (Nat.ltb _ 5);
      destruct (supportsFileType (primary submission) Furbooru.acceptsFiles);
      destruct (Z.ltb _ _);
      destruct (autoScale (data submissionPart) && isIMAGE (type (primary submission))
                && isMimeType (mimetype (primary submission)));
      reflexivity.
  - unfold validateFileSubmission, Weasyl.validateFileSubmission. cbv zeta.
    destruct (Nat.ltb _ 2);
      destruct (supportsFileType (primary submission) Weasyl.acceptsFiles);
      destruct (Z.ltb _ _); reflexivity.
Qed.

End DispatchFacts.

(** Weasyl answers an array of problems: a caller reading [warnings] (or
    [problems]) off the result finds nothing there. *)
Lemma weasyl_validation_is_a_bare_array :
  validateFileSubmission (utils := sampleUtils) WeasylSite wolfPng (partWith ["wolf"])
    (partWith [])
  = ProblemsArray ["Weasyl requires at least 2 tags."]
  /\ warningsOf (validateFileSubmission (utils := sampleUtils) WeasylSite wolfPng
                   (partWith ["wolf"]) (partWith [])) = None
  /\ ~ (exists ps ws,
          validateFileSubmission (utils := sampleUtils) WeasylSite wolfPng
            (partWith ["wolf"]) (partWith [])
          = PartsObject {| problems := ps; warnings := ws |}).
Proof.
  split; [reflexivity|]. split; [reflexivity|].
  intros [ps [ws H]]. discriminate H.
Qed.

Example furbooru_validation_warns :
  validateFileSubmission (utils := sampleUtils) FurbooruSite
    {| primary := {| type := IMAGE; size := 200000000; name := "wolf.png";
                     mimetype := "image/png" |} |}
    (partWith ["wolf"; "forest"; "night"]) (partWith ["canine"; "feral"])
  = PartsObject {| problems := []; warnings := ["wolf.png will be scaled down to 100MB"] |}.
Proof. reflexivity. Qed.

(** A small image with five tags passes Furbooru's validation; with the two
    tags Weasyl asks for, it passes Weasyl's. *)
Lemma furbooru_validation_outcomes_witness :
  Commons.problems
    (Furbooru.validateFileSubmission (utils := sampleUtils) wolfPng
       (partWith ["wolf"; "forest"; "night"]) (partWith ["canine"; "feral"])) = [].
Proof.
  apply (proj2 (proj1 (Furbooru.furbooru_validation_outcomes (utils := sampleUtils) wolfPng
                         (partWith ["wolf"; "forest"; "night"]) (partWith ["canine"; "feral"])))).
  split; [simpl; lia|]. split; [reflexivity|]. left. reflexivity.
Defined.

Lemma weasyl_validation_outcomes_witness :
  Weasyl.validateFileSubmission (utils := sampleUtils) wolfPng
    (partWith ["wolf"]) (partWith ["canine"]) = [].
Proof.
  apply (proj2 (proj1 (Weasyl.weasyl_validation_outcomes (utils := sampleUtils) wolfPng
                         (partWith ["wolf"]) (partWith ["canine"])))).
  split; [reflexivity|]. split; [simpl; lia | reflexivity].
Defined.

End Adapters.

(** ** The submission service ([submission.service.ts]) *)

Module SubmissionService.

(** *** Data *)

Inductive SubmissionType : Type := FILE | NOTIFICATION.

(** Modelled from the spec: the status enumeration is not in the sources, which
    only write ['UNPOSTED']; the spec lists
    [UNPOSTED | QUEUED | POSTING | POSTED | FAILED]. *)
Inductive PostStatus : Type := UNPOSTED | QUEUED | POSTING | POSTED | FAILED.

(** [schedule.postAt] is a number or [undefined] ([None]). *)
Record SubmissionSchedule : Type := {
  isScheduled : bool;
  postAt : option Z
}.

Inductive FileSubmissionType : Type := IMAGE | TEXT | VIDEO | AUDIO | UNKNOWN.

Record FileRecord : Type := {
  location : string;
  name : string;
  mimetype : string;
  originalPath : string;
  fileType : FileSubmissionType;
  ignoredAccounts : list string
}.

(** A submission entity; the file fields are those of a [FileSubmissionEntity]
    and are empty on a notification.  [order] is a floating-point number in the
    source and a rational here; no property below reads it. *)
Record SubmissionEntity : Type := {
  _id : string;
  title : option string;
  type : SubmissionType;
  schedule : SubmissionSchedule;
  sources : list string;
  order : QArith_base.Q;
  isPosting : bool;
  isQueued : bool;
  primary : option FileRecord;
  thumbnail : option FileRecord;
  fallback : option FileRecord;
  additional : list FileRecord
}.

Record SubmissionPartEntity : Type := {
  submissionId : string;
  accountId : string;
  website : string;
  isDefault : bool;
  data : string;
  postStatus : PostStatus;
  postedTo : option string
}.

(** The identifier of a stored part. *)
Definition partId (p : SubmissionPartEntity) : string :=
  submissionId p ++ "-" ++ accountId p.

Definition Problems : Type := list (string * (list string * list string)).

Record SubmissionPackage : Type := {
  submission : SubmissionEntity;
  parts : list (string * SubmissionPartEntity);
  problems : Problems
}.

(** An uploaded file; [recreate] builds one without [fieldname] and
    [encoding] for [create]. *)
Record UploadedFile : Type := {
  fieldname : option string;
  originalname : string;
  file_mimetype : string;
  encoding : option string;
  buffer : string
}.

(** [createDto.type], by what [SubmissionType[createDto.type]] finds: a key of
    the enumeration; a property the enumeration object inherits, such as
    [constructor] or [toString], which is truthy though it is no submission
    type; or any other value, for which the lookup is [undefined]. *)
Inductive TypeField : Type :=
| KnownType (t : SubmissionType)
| UnknownType (raw : string)
| InheritedKey (raw : string).

Record CreateData : Type := {
  create_title : option string;
  create_path : option string;
  create_file : option UploadedFile
}.

Record SubmissionCreate : Type := {
  create_type : TypeField;
  create_data : CreateData
}.

Record SubmissionUpdate : Type := {
  update_id : string;
  update_parts : list SubmissionPartEntity;
  update_postAt : option Z;
  update_removedParts : list string
}.

Record SubmissionOverwrite : Type := {
  overwrite_id : string;
  overwrite_parts : list SubmissionPartEntity
}.

(** A [SubmissionLogEntity], as far as [recreate] reads it. *)
Record SubmissionLogEntity : Type := {
  log_submission : SubmissionEntity;
  log_parts : list SubmissionPartEntity;   (* responsePart.part, for each entry *)
  log_defaultPart : SubmissionPartEntity
}.

(** [string | SubmissionEntity] *)
Inductive SubmissionEntityReference : Type :=
| ById (id : string)
| ByEntity (entity : SubmissionEntity).

Inductive SubmissionEvent : Type := CREATED | UPDATED | REMOVED.

(** What the collaborators were asked to do, in order: an event emitted with
    the submissions it is about, a call of the validator. *)
Inductive Event : Type :=
| Emitted (event : SubmissionEvent) (ids : list string)
| Validated (id : string).

(** How the next fallible call on a repository behaves. *)
Inductive Fault : Type :=
| NoFault
| FailBefore (e : Error)   (* throws, nothing written *)
| FailAfter (e : Error).   (* writes, then throws *)

(** The state the service works on: both repositories, the state of the post
    service, the events so far, the faults to come, the identifiers used. *)
Record World : Type := {
  submissions : list SubmissionEntity;
  storedParts : list SubmissionPartEntity;
  posting : list string;
  queued : list string;
  cancelled : list string;
  events : list Event;
  faults : list Fault;
  idSupply : nat
}.

Definition withSubmissions (f : list SubmissionEntity -> list SubmissionEntity) (w : World)
  : World :=
  {| submissions := f (submissions w); storedParts := storedParts w; posting := posting w;
     queued := queued w; cancelled := cancelled w; events := events w; faults := faults w;
     idSupply := idSupply w |}.

Definition withParts (f : list SubmissionPartEntity -> list SubmissionPartEntity) (w : World)
  : World :=
  {| submissions := submissions w; storedParts := f (storedParts w); posting := posting w;
     queued := queued w; cancelled := cancelled w; events := events w; faults := faults w;
     idSupply := idSupply w |}.

Definition withQueued (f : list string -> list string) (w : World) : World :=
  {| submissions := submissions w; storedParts := storedParts w; posting := posting w;
     queued := f (queued w); cancelled := cancelled w; events := events w; faults := faults w;
     idSupply := idSupply w |}.

Definition withCancelled (f : list string -> list string) (w : World) : World :=
  {| submissions := submissions w; storedParts := storedParts w; posting := posting w;
     queued := queued w; cancelled := f (cancelled w); events := events w; faults := faults w;
     idSupply := idSupply w |}.

Definition withEvents (f : list Event -> list Event) (w : World) : World :=
  {| submissions := submissions w; storedParts := storedParts w; posting := posting w;
     queued := queued w; cancelled := cancelled w; events := f (events w); faults := faults w;
     idSupply := idSupply w |}.

Definition withFaults (f : list Fault -> list Fault) (w : World) : World :=
  {| submissions := submissions w; storedParts := storedParts w; posting := posting w;
     queued := queued w; cancelled := cancelled w; events := events w; faults := f (faults w);
     idSupply := idSupply w |}.

Definition addEvents (evs : list Event) (w : World) : World :=
  withEvents (fun l => l ++ evs) w.

Definition withIdSupply (f : nat -> nat) (w : World) : World :=
  {| submissions := submissions w; storedParts := storedParts w; posting := posting w;
     queued := queued w; cancelled := cancelled w; events := events w; faults := faults w;
     idSupply := f (idSupply w) |}.

(** *** Entity updates *)

Definition setId (id : string) (s : SubmissionEntity) : SubmissionEntity :=
  {| _id := id; title := title s; type := type s; schedule := schedule s;
     sources := sources s; order := order s; isPosting := isPosting s;
     isQueued := isQueued s; primary := primary s; thumbnail := thumbnail s;
     fallback := fallback s; additional := additional s |}.

Definition setSchedule (sch : SubmissionSchedule) (s : SubmissionEntity) : SubmissionEntity :=
  {| _id := _id s; title := title s; type := type s; schedule := sch;
     sources := sources s; order := order s; isPosting := isPosting s;
     isQueued := isQueued s; primary := primary s; thumbnail := thumbnail s;
     fallback := fallback s; additional := additional s |}.

Definition setOrder (o : QArith_base.Q) (s : SubmissionEntity) : SubmissionEntity :=
  {| _id := _id s; title := title s; type := type s; schedule := schedule s;
     sources := sources s; order := o; isPosting := isPosting s;
     isQueued := isQueued s; primary := primary s; thumbnail := thumbnail s;
     fallback := fallback s; additional := additional s |}.

Definition setFlags (p q : bool) (s : SubmissionEntity) : SubmissionEntity :=
  {| _id := _id s; title := title s; type := type s; schedule := schedule s;
     sources := sources s; order := order s; isPosting := p;
     isQueued := q; primary := primary s; thumbnail := thumbnail s;
     fallback := fallback s; additional := additional s |}.

Definition setPrimary (f : option FileRecord) (s : SubmissionEntity) : SubmissionEntity :=
  {| _id := _id s; title := title s; type := type s; schedule := schedule s;
     sources := sources s; order := order s; isPosting := isPosting s;
     isQueued := isQueued s; primary := f; thumbnail := thumbnail s;
     fallback := fallback s; additional := additional s |}.

Definition setAdditional (fs : list FileRecord) (s : SubmissionEntity) : SubmissionEntity :=
  {| _id := _id s; title := title s; type := type s; schedule := schedule s;
     sources := sources s; order := order s; isPosting := isPosting s;
     isQueued := isQueued s; primary := primary s; thumbnail := thumbnail s;
     fallback := fallback s; additional := fs |}.

Definition setPostAtField (t : option Z) (sch : SubmissionSchedule) : SubmissionSchedule :=
  {| isScheduled := isScheduled sch; postAt := t |}.

Definition setIsScheduled (b : bool) (sch : SubmissionSchedule) : SubmissionSchedule :=
  {| isScheduled := b; postAt := postAt sch |}.

Definition setSubmissionId (id : string) (p : SubmissionPartEntity) : SubmissionPartEntity :=
  {| submissionId := id; accountId := accountId p; website := website p;
     isDefault := isDefault p; data := data p; postStatus := postStatus p;
     postedTo := postedTo p |}.

Definition setPostStatus (st : PostStatus) (p : SubmissionPartEntity) : SubmissionPartEntity :=
  {| submissionId := submissionId p; accountId := accountId p; website := website p;
     isDefault := isDefault p; data := data p; postStatus := st;
     postedTo := postedTo p |}.

Definition setPostedTo (t : option string) (p : SubmissionPartEntity) : SubmissionPartEntity :=
  {| submissionId := submissionId p; accountId := accountId p; website := website p;
     isDefault := isDefault p; data := data p; postStatus := postStatus p;
     postedTo := t |}.

Definition setData (d : string) (p : SubmissionPartEntity) : SubmissionPartEntity :=
  {| submissionId := submissionId p; accountId := accountId p; website := website p;
     isDefault := isDefault p; data := d; postStatus := postStatus p;
     postedTo := postedTo p |}.

(** [!postAt]: [undefined] and [0] are falsy. *)
Definition falsyNumber (t : option Z) : bool :=
  match t with
  | None => true
  | Some z => Z.eqb z 0
  end.

(** *** Collaborators that are not in the sources *)

(** The pure parts: the validator, the file submission service (which works on
    the entity and on files, not on the repositories), the file system, the
    website registry, the identifiers new entities take, and the filter behind
    the second argument of [getPartsForSubmission]. *)
Class Collaborators : Type := {
  newId : nat -> string;
  validateParts : SubmissionEntity -> list SubmissionPartEntity -> Problems;
  (** The parts [getPartsForSubmission(id, true)] keeps.  The part service is
      not in the sources, which pass [true] where they validate, duplicate and
      split, and [false] where they need all the parts; what a property needs
      of the filter is a hypothesis of that property. *)
  incompleteOnlySelects : SubmissionPartEntity -> bool;
  readFile : string -> Result string;
  (** [constructor.name] and [acceptsAdditionalFiles] of each website module *)
  websiteModules : list (string * bool);
  createFileSubmission : SubmissionEntity -> CreateData -> Result SubmissionEntity;
  duplicateFileSubmission : SubmissionEntity -> Result SubmissionEntity;
  cleanupSubmission : SubmissionEntity -> Result unit;
  changeFallbackFile : SubmissionEntity -> UploadedFile -> Result SubmissionEntity;
  removeFallbackFile : SubmissionEntity -> Result SubmissionEntity;
  removeThumbnail : SubmissionEntity -> Result SubmissionEntity;
  removeAdditionalFile : SubmissionEntity -> string -> Result SubmissionEntity;
  changeThumbnailFile : SubmissionEntity -> UploadedFile -> string -> Result SubmissionEntity;
  changePrimaryFile : SubmissionEntity -> UploadedFile -> string -> Result SubmissionEntity;
  addAdditionalFile : SubmissionEntity -> UploadedFile -> string -> Result SubmissionEntity
}.

Section Service.

Context {deps : Collaborators}.

(** A promise nobody awaits: its effects happen, its rejection is dropped. *)
Definition detached {A} (m : M World A) : M World unit :=
  fun w => (Ok tt, snd (m w)).

Definition nextFault : M World Fault :=
  fun w => match faults w with
           | [] => (Ok NoFault, w)
           | f :: rest => (Ok f, withFaults (fun _ => rest) w)
           end.

(** A repository write that may fail, before or after it has written. *)
Definition fallible {A} (m : M World A) : M World A :=
  f <- nextFault ;;
  match f with
  | NoFault => m
  | FailBefore e => throw e
  | FailAfter e => (m ;;; throw e)
  end.

Definition freshId : M World string :=
  fun w => (Ok (newId (idSupply w)), withIdSupply S w).

(** *** The submission repository

    Modelled from the spec: [SubmissionRepository] is not in the sources; the
    spec names [find/findOne/save/update/remove/count] over submission
    records, and says the flags [isPosting] and [isQueued] are not persisted. *)

Definition hasId (id : string) (s : SubmissionEntity) : bool := String.eqb id (_id s).

(** Modelled from the spec: the record the repository keeps of [s]; the
    flags are "derived, not persisted". *)
Definition persisted (s : SubmissionEntity) : SubmissionEntity := setFlags false false s.

(** Modelled from the spec: [repository.findOne(id)]. *)
Definition findOne (id : string) : M World (option SubmissionEntity) :=
  gets (fun w => find (hasId id) (submissions w)).

Definition sameType (a b : SubmissionType) : bool :=
  match a, b with
  | FILE, FILE | NOTIFICATION, NOTIFICATION => true
  | _, _ => false
  end.

(** Modelled from the spec: [repository.find(query)], in the order of the
    records. *)
Definition repositoryFind (query : option SubmissionType) : M World (list SubmissionEntity) :=
  gets (fun w => match query with
                 | None => submissions w
                 | Some t => filter (fun s => sameType t (type s)) (submissions w)
                 end).

(** Modelled from the spec: [repository.count()]. *)
Definition repositoryCount : M World nat := gets (fun w => length (submissions w)).

(** Modelled from the spec: [repository.save(s)], which answers the entity. *)
Definition repositorySave (s : SubmissionEntity) : M World SubmissionEntity :=
  fallible (modify (withSubmissions (fun l => l ++ [persisted s])) ;;; ret s).

(** Modelled from the spec: [repository.update(s)]. *)
Definition repositoryUpdate (s : SubmissionEntity) : M World unit :=
  modify (withSubmissions (map (fun x => if hasId (_id s) x then persisted s else x))).

(** Modelled from the spec: [repository.remove(id)], which answers the number
    of records removed. *)
Definition repositoryRemove (id : string) : M World nat :=
  fun w => (Ok (length (filter (hasId id) (submissions w))),
            withSubmissions (filter (fun s => negb (hasId id s))) w).

(** *** The part service

    Modelled from the spec: [SubmissionPartService] is not in the sources; its
    records are kept by submission and account, and written as they are
    given. *)

Definition ofSubmission (sid : string) (p : SubmissionPartEntity) : bool :=
  String.eqb sid (submissionId p).

Definition samePart (sid aid : string) (p : SubmissionPartEntity) : bool :=
  String.eqb sid (submissionId p) && String.eqb aid (accountId p).

(** Modelled from the spec: a part is saved, or updated where the submission
    has one for that account. *)
Definition upsertPart (part : SubmissionPartEntity) (l : list SubmissionPartEntity)
  : list SubmissionPartEntity :=
  if existsb (samePart (submissionId part) (accountId part)) l
  then map (fun p => if samePart (submissionId part) (accountId part) p then part else p) l
  else l ++ [part].

(** Modelled from the spec: [partService.getPartsForSubmission(id, flag)]: the
    parts of the submission, filtered by [incompleteOnlySelects] when the flag
    is set. *)
Definition getPartsForSubmission (sid : string) (incompleteOnly : bool)
  : M World (list SubmissionPartEntity) :=
  gets (fun w => filter (fun p => ofSubmission sid p
                                   && (if incompleteOnly then incompleteOnlySelects p else true))
                        (storedParts w)).

(** Modelled from the spec: [partService.getSubmissionPart(id, accountId)]. *)
Definition getSubmissionPart (sid aid : string) : M World (option SubmissionPartEntity) :=
  gets (fun w => find (samePart sid aid) (storedParts w)).

(** Modelled from the spec: [partService.createOrUpdateSubmissionPart(part,
    type)]: the part is written as it is given. *)
Definition createOrUpdateSubmissionPart (part : SubmissionPartEntity) (t : SubmissionType)
  : M World SubmissionPartEntity :=
  fallible (modify (withParts (upsertPart part)) ;;; ret part).

(** Modelled from the spec: the "synthetic part per submission holding shared
    defaults". *)
Definition defaultPartOf (s : SubmissionEntity) : SubmissionPartEntity :=
  {| submissionId := _id s; accountId := "default"; website := "default";
     isDefault := true; data := ""; postStatus := UNPOSTED; postedTo := None |}.

(** Modelled from the spec: [partService.createDefaultPart(submission)]. *)
Definition createDefaultPart (s : SubmissionEntity) : M World unit :=
  fallible (modify (withParts (upsertPart (defaultPartOf s)))).

(** Modelled from the spec: [partService.removeBySubmissionId(id)]. *)
Definition removeBySubmissionId (sid : string) : M World unit :=
  modify (withParts (filter (fun p => negb (ofSubmission sid p)))).

(** Modelled from the spec: [partService.removeSubmissionPart(partId)]. *)
Definition removeSubmissionPart (id : string) : M World unit :=
  modify (withParts (filter (fun p => negb (String.eqb id (partId p))))).

(** *** The post service

    Modelled from the spec: [PostService] is not in the sources.  Section 4.4:
    [queue] "adds to the pending set if not already queued or posting";
    [cancel] "signals the submission's active CancellationToken (if posting)
    and removes it from the pending set (if merely queued)". *)

(** Modelled from the spec: [postService.isCurrentlyPosting(submission)], a
    read-only predicate. *)
Definition isCurrentlyPosting (s : SubmissionEntity) (w : World) : bool :=
  existsb (String.eqb (_id s)) (posting w).

(** Modelled from the spec: [postService.isCurrentlyQueued(submission)], a
    read-only predicate. *)
Definition isCurrentlyQueued (s : SubmissionEntity) (w : World) : bool :=
  existsb (String.eqb (_id s)) (queued w).

(** Modelled from the spec: [postService.queue(submission)] "adds to the
    pending set if not already queued or posting". *)
Definition queue (s : SubmissionEntity) : M World unit :=
  fun w => if isCurrentlyPosting s w || isCurrentlyQueued s w then (Ok tt, w)
           else (Ok tt, withQueued (fun q => q ++ [_id s]) w).

(** Modelled from the spec: [postService.cancel(submission)] "signals the
    submission's active CancellationToken (if posting) and removes it from the
    pending set (if merely queued)". *)
Definition cancel (s : SubmissionEntity) : M World unit :=
  fun w =>
    let w1 := if isCurrentlyPosting s w then withCancelled (fun c => c ++ [_id s]) w else w in
    (Ok tt, withQueued (filter (fun id => negb (String.eqb (_id s) id))) w1).

(** *** Events *)

(** Modelled from the spec: [eventEmitter.emit(event, payload)]; the payload
    is kept as the identifiers of the submissions it is about. *)
Definition emit (ev : SubmissionEvent) (ids : list string) : M World unit :=
  modify (addEvents [Emitted ev ids]).

(** Modelled from the spec: [eventEmitter.emitOnComplete(event,
    promiseOfPayload)], which emits once the promise is fulfilled; nobody
    awaits it. *)
Definition emitOnComplete (ev : SubmissionEvent) (payload : M World (list string))
  : M World unit :=
  detached (ids <- payload ;; emit ev ids).

(** *** The service *)

Definition get (id : SubmissionEntityReference) : M World SubmissionEntity :=
  match id with
  | ByEntity entity => ret entity
  | ById id =>
      found <- findOne id ;;
      match found with
      | None => throw (NotFoundException ("Submission " ++ id ++ " could not be found"))
      | Some s =>
          p <- gets (isCurrentlyPosting s) ;;
          q <- gets (isCurrentlyQueued s) ;;
          ret (setFlags p q s)
      end
  end.

(** [parts.forEach(part => (mappedParts[part.accountId] = part.asPlain()))] *)
Fixpoint mapByAccount (ps : list SubmissionPartEntity) (acc : list (string * SubmissionPartEntity))
  : list (string * SubmissionPartEntity) :=
  match ps with
  | [] => acc
  | p :: ps' =>
      mapByAccount ps'
        (if existsb (fun kv => String.eqb (accountId p) (fst kv)) acc
         then map (fun kv => if String.eqb (accountId p) (fst kv) then (fst kv, p) else kv) acc
         else acc ++ [(accountId p, p)])
  end.

Definition validate (ref : SubmissionEntityReference) : M World SubmissionPackage :=
  s <- get ref ;;
  ps <- getPartsForSubmission (_id s) true ;;
  modify (addEvents [Validated (_id s)]) ;;;
  ret {| submission := s; parts := mapByAccount ps []; problems := validateParts s ps |}.

Definition getAndValidate (id : SubmissionEntityReference) : M World SubmissionPackage :=
  s <- get id ;;
  validate (ByEntity s).

Definition getAll (t : option SubmissionType) : M World (list SubmissionEntity) :=
  found <- repositoryFind t ;;
  gets (fun w => map (fun s => setFlags (isCurrentlyPosting s w) (isCurrentlyQueued s w) s) found).

Definition getAllAndValidate (t : option SubmissionType) : M World (list SubmissionPackage) :=
  all <- getAll t ;;
  promiseAll (fun s => validate (ByEntity s)) all.

Definition packageIds (ps : list SubmissionPackage) : list string :=
  map (fun p => _id (submission p)) ps.

Definition postingStateChanged : M World unit :=
  emitOnComplete UPDATED (ps <- getAllAndValidate None ;; ret (packageIds ps)).

Definition verifyAll : M World unit :=
  emitOnComplete UPDATED (ps <- getAllAndValidate None ;; ret (packageIds ps)).

Definition dryValidate (id : SubmissionEntityReference) (ps : list SubmissionPartEntity)
  : M World Problems :=
  match ps with
  | [] => ret []
  | _ :: _ => s <- get id ;; ret (validateParts s ps)
  end.

Definition scheduleSubmission (id : SubmissionEntityReference) (scheduled : bool)
  (at_ : option Z) : M World unit :=
  s <- get id ;;
  let sch1 := if falsyNumber at_ then schedule s else setPostAtField at_ (schedule s) in
  if falsyNumber (postAt sch1) then
    throw (BadRequestException
             "Submission cannot be scheduled because it does not have a postAt value")
  else
    let s' := setSchedule (setIsScheduled scheduled sch1) s in
    repositoryUpdate s' ;;;
    emitOnComplete UPDATED (p <- validate (ByEntity s') ;; ret [_id (submission p)]).

Definition deleteSubmission (id : SubmissionEntityReference) (skipCancel : bool)
  : M World nat :=
  s <- get id ;;
  let id := _id s in
  (if skipCancel then ret tt else cancel s) ;;;
  match type s with
  | FILE => lift (cleanupSubmission s)
  | NOTIFICATION => ret tt
  end ;;;
  removeBySubmissionId id ;;;
  emit REMOVED [id] ;;;
  repositoryRemove id.

Definition setPart (s : SubmissionEntity) (submissionPart : SubmissionPartEntity)
  : M World SubmissionPartEntity :=
  existingPart <- getSubmissionPart (_id s) (accountId submissionPart) ;;
  let part :=
    match existingPart with
    | Some existing => setData (data submissionPart) existing
    | None =>
        {| data := data submissionPart;
           accountId := accountId submissionPart;
           submissionId := _id s;
           website := website submissionPart;
           isDefault := isDefault submissionPart;
           postedTo := postedTo submissionPart;
           postStatus := postStatus submissionPart |}
    end in
  createOrUpdateSubmissionPart part (type s).

Definition posting_refusal : Error :=
  BadRequestException "Cannot update a submission that is posting".

Definition updateSubmission (update : SubmissionUpdate) : M World SubmissionPackage :=
  submissionToUpdate <- get (ById (update_id update)) ;;
  if isPosting submissionToUpdate then throw posting_refusal
  else
    let sch1 := setPostAtField (update_postAt update) (schedule submissionToUpdate) in
    let sch2 := if falsyNumber (update_postAt update) then setIsScheduled false sch1 else sch1 in
    let s' := setSchedule sch2 submissionToUpdate in
    repositoryUpdate s' ;;;
    promiseAll removeSubmissionPart (update_removedParts update) ;;;
    promiseAll (setPart s') (update_parts update) ;;;
    packaged <- validate (ByEntity s') ;;
    emit UPDATED [_id (submission packaged)] ;;;
    ret packaged.

Definition overwriteSubmissionParts (o : SubmissionOverwrite) : M World unit :=
  s <- get (ById (overwrite_id o)) ;;
  if isPosting s then throw posting_refusal
  else
    allParts <- getPartsForSubmission (_id s) false ;;
    let keepIds := map accountId (overwrite_parts o) in
    let removeParts := filter (fun p => negb (includes keepIds (accountId p))) allParts in
    promiseAll (setPart s) (overwrite_parts o) ;;;
    promiseAll (fun p => removeSubmissionPart (partId p)) removeParts ;;;
    packaged <- validate (ByEntity s) ;;
    emit UPDATED [_id (submission packaged)].

Definition setPostAt (id : SubmissionEntityReference) (at_ : option Z) : M World unit :=
  s <- get id ;;
  if isPosting s then throw posting_refusal
  else
    let s' := setSchedule (setPostAtField at_ (schedule s)) s in
    repositoryUpdate s' ;;;
    emitOnComplete UPDATED (p <- validate (ByEntity s') ;; ret [_id (submission p)]).

(** *** File submission actions *)

Definition getFallbackText (id : string) : M World string :=
  s <- get (ById id) ;;
  match fallback s with
  | Some f =>
      match readFile (location f) with
      | Ok text => ret text
      | Throw _ => ret ""
      end
  | None => ret ""
  end.

Definition setFallbackFile (file : UploadedFile) (id : string) : M World SubmissionPackage :=
  s <- get (ById id) ;;
  if isPosting s then throw posting_refusal
  else
    s' <- lift (changeFallbackFile s file) ;;
    repositoryUpdate s' ;;;
    validated <- validate (ByEntity s') ;;
    emit UPDATED [_id (submission validated)] ;;;
    ret validated.

Definition removeFileSubmissionThumbnail (id : string) : M World SubmissionPackage :=
  s <- get (ById id) ;;
  if isPosting s then throw posting_refusal
  else
    s' <- lift (removeThumbnail s) ;;
    repositoryUpdate s' ;;;
    validated <- validate (ByEntity s') ;;
    emit UPDATED [_id (submission validated)] ;;;
    ret validated.

Definition removeFileSubmissionAdditionalFile (id location : string)
  : M World SubmissionPackage :=
  s <- get (ById id) ;;
  if isPosting s then throw posting_refusal
  else
    s' <- lift (removeAdditionalFile s location) ;;
    repositoryUpdate s' ;;;
    validated <- validate (ByEntity s') ;;
    emit UPDATED [_id (submission validated)] ;;;
    ret validated.

Definition changeFileSubmissionThumbnailFile (file : UploadedFile) (id path : string)
  : M World SubmissionPackage :=
  s <- get (ById id) ;;
  if isPosting s then throw posting_refusal
  else
    s' <- lift (changeThumbnailFile s file path) ;;
    repositoryUpdate s' ;;;
    validated <- validate (ByEntity s') ;;
    emit UPDATED [_id (submission validated)] ;;;
    ret validated.

Definition isTEXT (t : FileSubmissionType) : bool :=
  match t with TEXT => true | _ => false end.

Definition changeFileSubmissionPrimaryFile (file : UploadedFile) (id path : string)
  : M World SubmissionPackage :=
  s <- get (ById id) ;;
  if isPosting s then throw posting_refusal
  else
    s1 <- lift (changePrimaryFile s file path) ;;
    (* [submission.primary.type] throws on a missing primary file *)
    s2 <- match fallback s1, primary s1 with
          | None, _ => ret s1
          | Some _, None => throw (TypeError "Cannot read properties of undefined")
          | Some _, Some f =>
              if negb (isTEXT (fileType f)) then lift (removeFallbackFile s1) else ret s1
          end ;;
    repositoryUpdate s2 ;;;
    validated <- validate (ByEntity s2) ;;
    emit UPDATED [_id (submission validated)] ;;;
    ret validated.

Definition addFileSubmissionAdditionalFile (file : UploadedFile) (id path : string)
  : M World SubmissionPackage :=
  s <- get (ById id) ;;
  if isPosting s then throw posting_refusal
  else
    s' <- lift (addAdditionalFile s file path) ;;
    repositoryUpdate s' ;;;
    validated <- validate (ByEntity s') ;;
    emit UPDATED [_id (submission validated)] ;;;
    ret validated.

Definition setIgnoredAccounts (accounts : list string) (r : FileRecord) : FileRecord :=
  {| location := location r; name := name r; mimetype := mimetype r;
     originalPath := originalPath r; fileType := fileType r; ignoredAccounts := accounts |}.

(** The first record at [loc] takes the ignored accounts. *)
Fixpoint updateRecordAt (loc : string) (accounts : list string) (rs : list FileRecord)
  : list FileRecord :=
  match rs with
  | [] => []
  | r :: rs' =>
      if String.eqb (location r) loc then setIgnoredAccounts accounts r :: rs'
      else r :: updateRecordAt loc accounts rs'
  end.

Definition updateFileSubmissionAdditionalFile (id : string) (record : FileRecord)
  : M World unit :=
  s <- get (ById id) ;;
  if isPosting s then throw posting_refusal
  else
    match find (fun r => String.eqb (location r) (location record)) (additional s) with
    | Some _ =>
        let s' := setAdditional
                    (updateRecordAt (location record) (ignoredAccounts record) (additional s))
                    s in
        detached (repositoryUpdate s') ;;;
        emitOnComplete UPDATED (p <- validate (ByEntity s') ;; ret [_id (submission p)])
    | None => ret tt
    end.

(** *** The scheduler tick *)

(** [p.submission.schedule.postAt <= now]: false on [undefined]. *)
Definition dueBy (now : Z) (p : SubmissionPackage) : bool :=
  match postAt (schedule (submission p)) with
  | Some t => Z.leb t now
  | None => false
  end.

(** [a.submission.schedule.postAt - b.submission.schedule.postAt > 0]; the
    difference is [NaN], which [sort] reads as [0], when a side is
    [undefined]. *)
Definition laterThan (a b : SubmissionEntity) : bool :=
  match postAt (schedule a), postAt (schedule b) with
  | Some x, Some y => Z.ltb 0 (x - y)
  | _, _ => false
  end.

Definition postAtAfter (a b : SubmissionPackage) : bool :=
  laterThan (submission a) (submission b).

(** The four filters and the sort of [queueScheduledSubmissions]. *)
Definition dueSubmissions (now : Z) (all : list SubmissionPackage) (w : World)
  : list SubmissionPackage :=
  sortBy postAtAfter
    (filter (fun p => negb (isCurrentlyQueued (submission p) w))
       (filter (fun p => negb (isCurrentlyPosting (submission p) w))
          (filter (dueBy now)
             (filter (fun p => isScheduled (schedule (submission p))) all)))).

(** The callback of [forEach].  The promise of [scheduleSubmission] is not
    awaited. *)
Definition promote (p : SubmissionPackage) : M World unit :=
  detached (scheduleSubmission (ById (_id (submission p))) false None) ;;;
  queue (submission p).

(** [now] is what [Date.now()] answers. *)
Definition queueScheduledSubmissions (now : Z) : M World unit :=
  all <- getAllAndValidate None ;;
  due <- gets (dueSubmissions now all) ;;
  forEachM promote due.

(** *** Creating submissions *)

Definition emptySchedule : SubmissionSchedule := {| isScheduled := false; postAt := None |}.

Definition hundredth : QArith_base.Q := QArith_base.Qmake 1 100.

(** Modelled from the spec: the [try] block of [create] when
    [completedSubmission] is [null]: the repository is not in the sources, and
    saving [null] fails before anything is written; the [catch] then calls
    [deleteSubmission(null)], whose [get] finds no submission. *)
Definition storeNull {A} : M World A :=
  throw (NotFoundException "Submission null could not be found").

(** Lines 118-141 of [create]: the entity, before anything is stored.  The
    guard [!SubmissionType[createDto.type]] refuses a value the lookup does not
    find.  An inherited key passes the guard; the entity is built, no [case]
    of the [switch] is taken and [completedSubmission] stays [null]. *)
Definition newSubmission (createDto : SubmissionCreate) : M World SubmissionEntity :=
  match create_type createDto with
  | UnknownType raw => throw (BadRequestException ("Unknown submission type: " ++ raw))
  | InheritedKey raw =>
      repositoryCount ;;;
      freshId ;;;
      storeNull
  | KnownType t =>
      n <- repositoryCount ;;
      id <- freshId ;;
      let submission :=
        {| _id := id; title := create_title (create_data createDto); type := t;
           schedule := emptySchedule; sources := [];
           order := QArith_base.inject_Z (Z.of_nat n);
           isPosting := false; isQueued := false; primary := None; thumbnail := None;
           fallback := None; additional := [] |} in
      match t with
      | FILE => lift (createFileSubmission submission (create_data createDto))
      | NOTIFICATION => ret submission
      end
  end.

(** The [try] block of [create]. *)
Definition storeNew (completedSubmission : SubmissionEntity) : M World unit :=
  repositorySave completedSubmission ;;;
  createDefaultPart completedSubmission.

Definition create (createDto : SubmissionCreate) : M World SubmissionEntity :=
  completedSubmission <- newSubmission createDto ;;
  tryCatch (storeNew completedSubmission)
    (fun err =>
       (* Clean up bad data on failure *)
       deleteSubmission (ByEntity completedSubmission) false ;;;
       throw (InternalServerErrorException err)) ;;;
  emitOnComplete CREATED
    (p <- validate (ByEntity completedSubmission) ;; ret [_id (submission p)]) ;;;
  ret completedSubmission.

(** The copy [duplicate] builds, before anything is stored. *)
Definition newDuplicate (originalId : string) : M World SubmissionEntity :=
  original <- get (ById originalId) ;;
  id <- freshId ;;
  let duplicate := setOrder (QArith_base.Qplus (order original) hundredth) (setId id original) in
  match type duplicate with
  | FILE => lift (duplicateFileSubmission duplicate)
  | NOTIFICATION => ret duplicate
  end.

(** What [duplicate] and [splitAdditionalIntoSubmissions] write for a part
    [p] of the original. *)
Definition copiedPart (newId : string) (p : SubmissionPartEntity) : SubmissionPartEntity :=
  setPostStatus UNPOSTED (setSubmissionId newId p).

(** The [try] block of [duplicate]. *)
Definition storeDuplicate (originalId : string) (duplicate : SubmissionEntity)
  : M World SubmissionEntity :=
  createdSubmission <- repositorySave duplicate ;;
  (* Duplicate parts *)
  ps <- getPartsForSubmission originalId true ;;
  promiseAll (fun p => createOrUpdateSubmissionPart (copiedPart (_id duplicate) p)
                         (type duplicate)) ps ;;;
  emitOnComplete CREATED
    (p <- validate (ByEntity createdSubmission) ;; ret [_id (submission p)]) ;;;
  ret createdSubmission.

Definition duplicate (originalId : string) : M World SubmissionEntity :=
  dup <- newDuplicate originalId ;;
  tryCatch (storeDuplicate originalId dup)
    (fun err =>
       deleteSubmission (ById (_id dup)) false ;;;
       throw (InternalServerErrorException err)).

(** The [catch] of the loop of [splitAdditionalIntoSubmissions]. *)
Definition splitFailure {A} (newSubmission : SubmissionEntity) (err : Error) : M World A :=
  deleteSubmission (ByEntity newSubmission) false ;;;
  throw (InternalServerErrorException err).

(** The [try] block of that loop, after [duplicateSubmission] has answered.
    Without a default part, the callback of [map] throws on the [undefined]
    that was pushed last, after the writes before it have been started. *)
Definition storeSplit (newSubmission : SubmissionEntity)
  (toSplit : list SubmissionPartEntity) (defaultPart : option SubmissionPartEntity)
  : M World unit :=
  createdSubmission <- repositorySave newSubmission ;;
  let write p :=
    createOrUpdateSubmissionPart (copiedPart (_id newSubmission) p) (type newSubmission) in
  match defaultPart with
  | Some d => promiseAll write (toSplit ++ [d]) ;;; ret tt
  | None =>
      detached (promiseAll write toSplit) ;;;
      throw (TypeError "Cannot set properties of undefined")
  end ;;;
  emitOnComplete CREATED
    (p <- validate (ByEntity createdSubmission) ;; ret [_id (submission p)]).

(** One turn of the loop, for the additional file [file] and the order it takes. *)
Definition splitOne (s : SubmissionEntity)
  (toSplit : list SubmissionPartEntity) (defaultPart : option SubmissionPartEntity)
  (order' : QArith_base.Q) (file : FileRecord) : M World unit :=
  id <- freshId ;;
  let newSubmission0 :=
    setOrder order' (setPrimary (Some file) (setAdditional [] (setId id s))) in
  newSubmission <- tryCatch (lift (duplicateFileSubmission newSubmission0))
                     (splitFailure newSubmission0) ;;
  tryCatch (storeSplit newSubmission toSplit defaultPart) (splitFailure newSubmission).

Fixpoint splitLoop (s : SubmissionEntity)
  (toSplit : list SubmissionPartEntity) (defaultPart : option SubmissionPartEntity)
  (order0 : QArith_base.Q) (files : list FileRecord) : M World unit :=
  match files with
  | [] => ret tt
  | file :: rest =>
      let order' := QArith_base.Qplus order0 hundredth in
      splitOne s toSplit defaultPart order' file ;;;
      splitLoop s toSplit defaultPart order' rest
  end.

Definition splitAdditionalIntoSubmissions (id : string) : M World unit :=
  s <- get (ById id) ;;
  match additional s with
  | [] =>
      throw (BadRequestException
               "Submission is not a File submission or does not have additional files")
  | _ :: _ =>
      let unsupportedAdditionalWebsites :=
        map fst (filter (fun w => negb (snd w)) websiteModules) in
      ps <- getPartsForSubmission (_id s) true ;;
      let websitePartsThatNeedSplitting :=
        filter (fun p => includes unsupportedAdditionalWebsites (website p))
          (filter (fun p => negb (isDefault p)) ps) in
      match websitePartsThatNeedSplitting with
      | [] => ret tt (* Nothing needs to be done *)
      | _ :: _ =>
          (* Reintroduce default part *)
          splitLoop s websitePartsThatNeedSplitting (find isDefault ps) (order s)
            (additional s)
      end
  end.

(** What [recreate] writes for a part of the log. *)
Definition recreatedPart (newId : string) (part : SubmissionPartEntity)
  : SubmissionPartEntity :=
  setPostedTo None (setPostStatus UNPOSTED (setSubmissionId newId part)).

Definition uploadOf (f : FileRecord) (content : string) : UploadedFile :=
  {| fieldname := Some "file"; originalname := name f; file_mimetype := mimetype f;
     encoding := Some ""; buffer := content |}.

(** The [try] block of [recreate].  The callback given to [filter] is [async]:
    it answers a promise, which is truthy, so every part is kept. *)
Definition restoreInto (newSubmission : SubmissionEntity) (log : SubmissionLogEntity)
  : M World unit :=
  let submissionParts :=
    filter (fun _ => true) (map (recreatedPart (_id newSubmission)) (log_parts log)) in
  let defaultEntity := setSubmissionId (_id newSubmission) (log_defaultPart log) in
  promiseAll (fun p => createOrUpdateSubmissionPart p (type newSubmission))
    (submissionParts ++ [defaultEntity]) ;;;
  match type (log_submission log) with
  | FILE =>
      match thumbnail (log_submission log) with
      | Some th =>
          tryCatch
            (content <- lift (readFile (originalPath th)) ;;
             changeFileSubmissionThumbnailFile (uploadOf th content) (_id newSubmission)
               (originalPath th) ;;;
             ret tt)
            (fun _ => ret tt) (* Ignore *)
      | None => ret tt
      end ;;;
      forEachM
        (fun additionalFile =>
           tryCatch
             (content <- lift (readFile (originalPath additionalFile)) ;;
              addFileSubmissionAdditionalFile (uploadOf additionalFile content)
                (_id newSubmission) (originalPath additionalFile) ;;;
              ret tt)
             (fun _ => ret tt)) (* Ignore dead file *)
        (additional (log_submission log))
  | NOTIFICATION => ret tt
  end.

Definition recreate (log : SubmissionLogEntity) : M World SubmissionEntity :=
  let s := log_submission log in
  createData <-
    match type s with
    | FILE =>
        match primary s with
        | None => throw (TypeError "Cannot read properties of undefined")
        | Some f =>
            let content := match readFile (originalPath f) with
                           | Ok c => c
                           | Throw _ => "" (* empty if no file found *)
                           end in
            ret {| create_type := KnownType FILE;
                   create_data := {| create_title := None;
                                     create_path := Some (originalPath f);
                                     create_file :=
                                       Some {| fieldname := None;
                                               originalname := name f;
                                               file_mimetype := mimetype f;
                                               encoding := None;
                                               buffer := content |} |} |}
        end
    | NOTIFICATION =>
        ret {| create_type := KnownType NOTIFICATION;
               create_data := {| create_title := title s; create_path := None;
                                 create_file := None |} |}
    end ;;
  newSubmission <- create createData ;;
  tryCatch (restoreInto newSubmission log)
    (fun err =>
       deleteSubmission (ByEntity newSubmission) false ;;;
       throw (InternalServerErrorException err)) ;;;
  p <- getAndValidate (ById (_id newSubmission)) ;;
  emit UPDATED [_id (submission p)] ;;;
  ret (submission p).

End Service.

(** *** A concrete installation, for the examples *)

Definition sampleDeps : Collaborators :=
  {| newId := fun n => String.append "new" (NilZero.string_of_uint (Nat.to_uint n));
     validateParts := fun _ ps =>
       map (fun p => (accountId p, (["Requires at least 5 tags."], []))) ps;
     incompleteOnlySelects := fun _ => true;
     readFile := fun path => Ok (String.append "content of " path);
     websiteModules := [("Furbooru", false); ("Weasyl", true)];
     createFileSubmission := fun s _ => Ok s;
     duplicateFileSubmission := fun s => Ok s;
     cleanupSubmission := fun _ => Ok tt;
     changeFallbackFile := fun s _ => Ok s;
     removeFallbackFile := fun s => Ok s;
     removeThumbnail := fun s => Ok s;
     removeAdditionalFile := fun s _ => Ok s;
     changeThumbnailFile := fun s _ _ => Ok s;
     changePrimaryFile := fun s _ _ => Ok s;
     addAdditionalFile := fun s _ _ => Ok s |}.

(** The same installation with a validator that finds nothing. *)
Definition lenientDeps : Collaborators :=
  {| newId := newId (Collaborators := sampleDeps);
     validateParts := fun _ _ => [];
     incompleteOnlySelects := fun _ => true;
     readFile := readFile (Collaborators := sampleDeps);
     websiteModules := [("Furbooru", false); ("Weasyl", true)];
     createFileSubmission := fun s _ => Ok s;
     duplicateFileSubmission := fun s => Ok s;
     cleanupSubmission := fun _ => Ok tt;
     changeFallbackFile := fun s _ => Ok s;
     removeFallbackFile := fun s => Ok s;
     removeThumbnail := fun s => Ok s;
     removeAdditionalFile := fun s _ => Ok s;
     changeThumbnailFile := fun s _ _ => Ok s;
     changePrimaryFile := fun s _ _ => Ok s;
     addAdditionalFile := fun s _ _ => Ok s |}.

Definition notification (id : string) (scheduled : bool) (at_ : Z) : SubmissionEntity :=
  {| _id := id; title := Some id; type := NOTIFICATION;
     schedule := {| isScheduled := scheduled; postAt := Some at_ |};
     sources := []; order := QArith_base.Qmake 0 1; isPosting := false; isQueued := false;
     primary := None; thumbnail := None; fallback := None; additional := [] |}.

(** A notification that has never been given a time. *)
Definition undated (id : string) : SubmissionEntity :=
  {| _id := id; title := Some id; type := NOTIFICATION; schedule := emptySchedule;
     sources := []; order := QArith_base.Qmake 0 1; isPosting := false; isQueued := false;
     primary := None; thumbnail := None; fallback := None; additional := [] |}.

Definition partOf (sid aid site : string) (st : PostStatus) (target : option string)
  : SubmissionPartEntity :=
  {| submissionId := sid; accountId := aid; website := site; isDefault := false;
     data := "{}"; postStatus := st; postedTo := target |}.

Definition worldOf (subs : list SubmissionEntity) (ps : list SubmissionPartEntity) : World :=
  {| submissions := subs; storedParts := ps; posting := []; queued := []; cancelled := [];
     events := []; faults := []; idSupply := 0 |}.

Definition withPosting (ids : list string) (w : World) : World :=
  {| submissions := submissions w; storedParts := storedParts w; posting := ids;
     queued := queued w; cancelled := cancelled w; events := events w; faults := faults w;
     idSupply := idSupply w |}.

(** Three scheduled notifications: due at 900, due at 500, due at 2000. *)
Definition scheduledWorld : World :=
  worldOf [notification "a" true 900; notification "b" true 500;
           notification "c" true 2000; notification "d" false 100]
          [partOf "a" "acc1" "Furbooru" UNPOSTED None].

(** A notification scheduled for time 5; its [postAt] is then set to [0]
    through [setPostAt], which leaves [isScheduled] as it is. *)
Definition epochWorld : World :=
  snd (setPostAt (deps := sampleDeps) (ById "z") (Some 0%Z)
         (worldOf [notification "z" true 5] [])).

(** Submission [p] is being posted. *)
Definition postingWorld : World :=
  withPosting ["p"]
    (worldOf [notification "p" true 5000] [partOf "p" "acc1" "Furbooru" POSTING None]).

(** [postedTo] is set if and only if the status is [POSTED]. *)
Definition postedToIffPosted (p : SubmissionPartEntity) : bool :=
  match postedTo p, postStatus p with
  | Some _, POSTED => true
  | None, POSTED => false
  | Some _, _ => false
  | None, _ => true
  end.

(** Submission [o] has been posted to Furbooru. *)
Definition postedWorld : World :=
  worldOf [notification "o" false 5000]
    [partOf "o" "acc1" "Furbooru" POSTED (Some "https://furbooru.org/images/1");
     {| submissionId := "o"; accountId := "default"; website := "default";
        isDefault := true; data := "{}"; postStatus := UNPOSTED; postedTo := None |}].

Definition withFaultScript (fs : list Fault) (w : World) : World :=
  withFaults (fun _ => fs) w.

Definition notificationDto : SubmissionCreate :=
  {| create_type := KnownType NOTIFICATION;
     create_data := {| create_title := Some "hello"; create_path := None;
                       create_file := None |} |}.

(** The save succeeds; writing the default part fails after it has written. *)
Definition failingCreateWorld : World :=
  withFaultScript [NoFault; FailAfter (ExternalError "disk full")] (worldOf [] []).

Definition helloSubmission : SubmissionEntity :=
  {| _id := "new0"; title := Some "hello"; type := NOTIFICATION; schedule := emptySchedule;
     sources := []; order := QArith_base.inject_Z 0; isPosting := false; isQueued := false;
     primary := None; thumbnail := None; fallback := None; additional := [] |}.

(** A file submission with two additional files, a part for Furbooru, which
    refuses additional files, and its default part. *)
Definition fileRecordAt (path : string) : FileRecord :=
  {| location := path; name := path; mimetype := "image/png"; originalPath := path;
     fileType := IMAGE; ignoredAccounts := [] |}.

Definition gallery : SubmissionEntity :=
  {| _id := "g"; title := Some "gallery"; type := FILE; schedule := emptySchedule;
     sources := []; order := QArith_base.Qmake 0 1; isPosting := false; isQueued := false;
     primary := Some (fileRecordAt "/f/1.png"); thumbnail := None; fallback := None;
     additional := [fileRecordAt "/f/2.png"; fileRecordAt "/f/3.png"] |}.

Definition galleryDefaultPart : SubmissionPartEntity :=
  {| submissionId := "g"; accountId := "default"; website := "default";
     isDefault := true; data := "{}"; postStatus := UNPOSTED; postedTo := None |}.

Definition galleryWorld : World :=
  worldOf [gallery] [partOf "g" "acc1" "Furbooru" UNPOSTED None; galleryDefaultPart].

(** The log of a notification that was posted with two accounts. *)
Definition postedLog : SubmissionLogEntity :=
  {| log_submission := notification "o" false 5000;
     log_parts := [partOf "o" "acc1" "Furbooru" POSTED (Some "https://furbooru.org/images/1");
                   partOf "o" "gone" "Weasyl" FAILED None];
     log_defaultPart :=
       {| submissionId := "o"; accountId := "default"; website := "default";
          isDefault := true; data := "{}"; postStatus := UNPOSTED; postedTo := None |} |}.

Definition isPOSTED (st : PostStatus) : bool :=
  match st with POSTED => true | _ => false end.

(** An installation with a given part filter, clean-up of files and way of
    adding an additional file; the rest is as in [sampleDeps]. *)
Definition installation (selects : SubmissionPartEntity -> bool)
  (cleanup : SubmissionEntity -> Result unit)
  (add : SubmissionEntity -> UploadedFile -> string -> Result SubmissionEntity)
  : Collaborators :=
  {| newId := newId (Collaborators := sampleDeps);
     validateParts := validateParts (Collaborators := sampleDeps);
     incompleteOnlySelects := selects;
     readFile := readFile (Collaborators := sampleDeps);
     websiteModules := [("Furbooru", false); ("Weasyl", true)];
     createFileSubmission := fun s _ => Ok s;
     duplicateFileSubmission := fun s => Ok s;
     cleanupSubmission := cleanup;
     changeFallbackFile := fun s _ => Ok s;
     removeFallbackFile := fun s => Ok s;
     removeThumbnail := fun s => Ok s;
     removeAdditionalFile := fun s _ => Ok s;
     changeThumbnailFile := fun s _ _ => Ok s;
     changePrimaryFile := fun s _ _ => Ok s;
     addAdditionalFile := add |}.

(** The part filter leaves the posted parts out; an additional file is added
    at the end. *)
Definition filteringDeps : Collaborators :=
  installation (fun p => negb (isPOSTED (postStatus p))) (fun _ => Ok tt)
    (fun s _ path => Ok (setAdditional (additional s ++ [fileRecordAt path]) s)).


Definition storyFile : UploadedFile :=
  {| fieldname := Some "file"; originalname := "story.txt";
     file_mimetype := "text/plain"; encoding := Some ""; buffer := "once" |}.


(** Submission [o] has been posted to Furbooru and is still to be posted to
    Weasyl. *)
Definition halfPostedWorld : World :=
  worldOf [notification "o" false 5000]
    [partOf "o" "acc1" "Furbooru" POSTED (Some "https://furbooru.org/images/1");
     partOf "o" "acc2" "Weasyl" UNPOSTED None;
     {| submissionId := "o"; accountId := "default"; website := "default";
        isDefault := true; data := "{}"; postStatus := UNPOSTED; postedTo := None |}].

(** *** Notions the statements below are written with *)

Section Notions.

Context {deps : Collaborators}.

Definition flagged (w : World) (s : SubmissionEntity) : SubmissionEntity :=
  setFlags (isCurrentlyPosting s w) (isCurrentlyQueued s w) s.

(** The parts [validate] reads for [s]. *)
Definition partsToValidate (sid : string) (w : World) : list SubmissionPartEntity :=
  filter (fun p => ofSubmission sid p && incompleteOnlySelects p) (storedParts w).

Definition packageOf (w : World) (s : SubmissionEntity) : SubmissionPackage :=
  {| submission := s;
     parts := mapByAccount (partsToValidate (_id s) w) [];
     problems := validateParts s (partsToValidate (_id s) w) |}.

(** A submission the tick promotes: scheduled, due, neither posting nor queued. *)
Definition isDue (now : Z) (w : World) (s : SubmissionEntity) : bool :=
  isScheduled (schedule s)
  && match postAt (schedule s) with Some t => Z.leb t now | None => false end
  && negb (isCurrentlyPosting s w)
  && negb (isCurrentlyQueued s w).

(** The promoted submissions, in the order in which they are handed over. *)
Definition dueEntities (now : Z) (w : World) : list SubmissionEntity :=
  sortBy laterThan (filter (isDue now w) (submissions w)).

Definition dueIds (now : Z) (w : World) : list string := map _id (dueEntities now w).

(** The stored record of [s0], once unscheduled. *)
Definition unscheduled (s0 : SubmissionEntity) : SubmissionEntity :=
  persisted (setSchedule (setIsScheduled false (schedule s0)) s0).

(** What [scheduleSubmission(id, false)] leaves. *)
Definition unscheduleWorld (id : string) (w : World) : World :=
  match find (hasId id) (submissions w) with
  | Some s0 =>
      if falsyNumber (postAt (schedule s0)) then w
      else addEvents [Validated (_id s0); Emitted UPDATED [_id s0]]
             (withSubmissions (map (fun x => if hasId (_id s0) x then unscheduled s0 else x)) w)
  | None => w
  end.

Definition queueWorld (id : string) (w : World) : World :=
  if existsb (String.eqb id) (posting w) || existsb (String.eqb id) (queued w) then w
  else withQueued (fun q => q ++ [id]) w.

Definition promoteWorld (id : string) (w : World) : World :=
  queueWorld id (unscheduleWorld id w).

Definition tickWorld (now : Z) (w : World) : World :=
  fold_left (fun w' id => promoteWorld id w') (dueIds now w)
    (addEvents (map (fun s => Validated (_id s)) (submissions w)) w).

(** [s] is unscheduled by a turn of the loop for one of [ids]. *)
Definition touched (ids : list string) (s : SubmissionEntity) : bool :=
  existsb (String.eqb (_id s)) ids && negb (falsyNumber (postAt (schedule s))).

Definition unscheduleIf (c : SubmissionEntity -> bool) (s : SubmissionEntity)
  : SubmissionEntity :=
  if c s then unscheduled s else s.

(** A due submission the tick can unschedule: its [postAt] is not falsy. *)
Definition unschedulable (now : Z) (w : World) (s : SubmissionEntity) : bool :=
  isDue now w s && negb (falsyNumber (postAt (schedule s))).

(** [a] is to be posted no later than [b]. *)
Definition noLaterThan (a b : SubmissionEntity) : Prop :=
  exists x y, postAt (schedule a) = Some x /\ postAt (schedule b) = Some y /\ (x <= y)%Z.

Definition hasPostAt (s : SubmissionEntity) : Prop :=
  exists x, postAt (schedule s) = Some x.

(** The world [deleteSubmission] leaves, for the submission [s] it resolved. *)
Definition deletedWorld (s : SubmissionEntity) (skipCancel : bool) (w : World) : World :=
  withSubmissions (filter (fun x => negb (hasId (_id s) x)))
    (addEvents [Emitted REMOVED [_id s]]
       (withParts (filter (fun p => negb (ofSubmission (_id s) p)))
          (if skipCancel then w else snd (cancel s w)))).

(** Nothing of submission [id] is stored. *)
Definition absent (id : string) (w : World) : Prop :=
  (forall x, In x (submissions w) -> _id x <> id)
  /\ (forall p, In p (storedParts w) -> submissionId p <> id).

(** Both repositories are as they were. *)
Definition untouched (w w' : World) : Prop :=
  submissions w' = submissions w /\ storedParts w' = storedParts w.

(** Writing parts and emitting events leave the submission records alone. *)
Definition keepsSubmissions {A} (m : M World A) : Prop :=
  forall w, submissions (snd (m w)) = submissions w.


Definition notFound (id : string) : Error :=
  NotFoundException ("Submission " ++ id ++ " could not be found").


(** The parts a split copies for [s], and the default part it adds to them. *)
Definition partsToSplit (s : SubmissionEntity) (w : World) : list SubmissionPartEntity :=
  filter (fun p => includes (map fst (filter (fun m => negb (snd m)) websiteModules))
                     (website p))
    (filter (fun p => negb (isDefault p)) (partsToValidate (_id s) w)).

Definition defaultPartToSplit (s : SubmissionEntity) (w : World)
  : option SubmissionPartEntity :=
  find isDefault (partsToValidate (_id s) w).

(** The parts written one after the other. *)
Definition upsertAll (ps : list SubmissionPartEntity) (l : list SubmissionPartEntity)
  : list SubmissionPartEntity :=
  fold_left (fun acc p => upsertPart p acc) ps l.

(** The part [setPart] writes when the submission has none for the account. *)
Definition newPartFor (s : SubmissionEntity) (submissionPart : SubmissionPartEntity)
  : SubmissionPartEntity :=
  {| data := data submissionPart; accountId := accountId submissionPart;
     submissionId := _id s; website := website submissionPart;
     isDefault := isDefault submissionPart; postedTo := postedTo submissionPart;
     postStatus := postStatus submissionPart |}.

(** [p] is the last part of [ps] for its account. *)
Definition lastForAccount (ps : list SubmissionPartEntity) (p : SubmissionPartEntity) : Prop :=
  exists before after,
    ps = before ++ p :: after /\ forall q, In q after -> accountId q <> accountId p.

(** The entity [create] builds for a notification. *)
Definition blankSubmission (createDto : SubmissionCreate) (t : SubmissionType) (w : World)
  : SubmissionEntity :=
  {| _id := newId (idSupply w); title := create_title (create_data createDto); type := t;
     schedule := emptySchedule; sources := [];
     order := QArith_base.inject_Z (Z.of_nat (length (submissions w)));
     isPosting := false; isQueued := false; primary := None; thumbnail := None;
     fallback := None; additional := [] |}.

(** The submissions a split stores for the additional files [files], when
    nothing fails: what [duplicateSubmission] answers for a copy of [s] that
    has the additional file as primary file, no additional files, the next
    order and a new identifier. *)
Fixpoint splitProducts (s : SubmissionEntity) (order0 : QArith_base.Q)
  (files : list FileRecord) (n : nat) : list SubmissionEntity :=
  match files with
  | [] => []
  | file :: rest =>
      let order' := QArith_base.Qplus order0 hundredth in
      let copy := setOrder order' (setPrimary (Some file) (setAdditional [] (setId (newId n) s))) in
      match duplicateFileSubmission copy with
      | Ok newSubmission => newSubmission
      | Throw _ => copy
      end :: splitProducts s order' rest (S n)
  end.

(** A part of the log, as a key: the submission and the account. *)
Definition hasPartFor (sid aid : string) (l : list SubmissionPartEntity) : Prop :=
  exists q, In q l /\ submissionId q = sid /\ accountId q = aid.

(** The part [setPart] writes for [submissionPart], over the parts [l]. *)
Definition partToWrite (s : SubmissionEntity) (submissionPart : SubmissionPartEntity)
  (l : list SubmissionPartEntity) : SubmissionPartEntity :=
  match find (samePart (_id s) (accountId submissionPart)) l with
  | Some existing => setData (data submissionPart) existing
  | None => newPartFor s submissionPart
  end.

(** The parts after [setPart] has run for each of [ps]. *)
Fixpoint setPartsList (s : SubmissionEntity) (ps : list SubmissionPartEntity)
  (l : list SubmissionPartEntity) : list SubmissionPartEntity :=
  match ps with
  | [] => l
  | submissionPart :: rest =>
      setPartsList s rest (upsertPart (partToWrite s submissionPart l) l)
  end.

(** The parts after [removeSubmissionPart] has run for each of [ids]. *)
Definition removeAll (ids : list string) (l : list SubmissionPartEntity)
  : list SubmissionPartEntity :=
  fold_left (fun acc i => filter (fun p => negb (String.eqb i (partId p))) acc) ids l.

(** What [recreate] asks [create] for, for a notification. *)
Definition recreateNotificationDto (log : SubmissionLogEntity) : SubmissionCreate :=
  {| create_type := KnownType NOTIFICATION;
     create_data := {| create_title := title (log_submission log); create_path := None;
                       create_file := None |} |}.

(** The six file actions on submission [id]. *)
Definition fileActions (file : UploadedFile) (id path location : string)
  : list (M World SubmissionPackage) :=
  [setFallbackFile file id;
   removeFileSubmissionThumbnail id;
   removeFileSubmissionAdditionalFile id location;
   changeFileSubmissionThumbnailFile file id path;
   changeFileSubmissionPrimaryFile file id path;
   addFileSubmissionAdditionalFile file id path].

(** Every stored part satisfies [P]. *)
Definition allParts (P : SubmissionPartEntity -> Prop) (w : World) : Prop :=
  forall p, In p (storedParts w) -> P p.

(** Whatever [m] does, it leaves every stored part satisfying [P] if every
    stored part did. *)
Definition keeps {A} (P : SubmissionPartEntity -> Prop) (m : M World A) : Prop :=
  forall w, allParts P w -> allParts P (snd (m w)).


(** A part that is yet to be posted: [UNPOSTED], and no posting target. *)
Definition isReset (p : SubmissionPartEntity) : Prop :=
  postStatus p = UNPOSTED /\ postedTo p = None.

(** [p] is the copy of a stored part the part service selects: [UNPOSTED],
    and everything else but the submission as that part has it. *)
Definition copyOfSelected (w : World) (p : SubmissionPartEntity) : Prop :=
  exists q, In q (storedParts w) /\ incompleteOnlySelects q = true
            /\ postStatus p = UNPOSTED /\ postedTo p = postedTo q
            /\ accountId p = accountId q /\ website p = website q
            /\ data p = data q /\ isDefault p = isDefault q.

(** What the file service answers to [changeFileSubmissionPrimaryFile]: the
    submission with its new primary file, without its fallback file when the
    new primary file is no text. *)
Definition primaryFileAnswer (file : UploadedFile) (path : string) (s : SubmissionEntity)
  : Result SubmissionEntity :=
  match changePrimaryFile s file path with
  | Throw e => Throw e
  | Ok s1 =>
      match fallback s1, primary s1 with
      | None, _ => Ok s1
      | Some _, None => Throw (TypeError "Cannot read properties of undefined")
      | Some _, Some f => if negb (isTEXT (fileType f)) then removeFallbackFile s1 else Ok s1
      end
  end.

(** What the file service answers to each of the six file actions, in the
    order of [fileActions], for the submission [s] they found. *)
Definition fileAnswers (file : UploadedFile) (path location : string) (s : SubmissionEntity)
  : list (Result SubmissionEntity) :=
  [changeFallbackFile s file;
   removeThumbnail s;
   removeAdditionalFile s location;
   changeThumbnailFile s file path;
   primaryFileAnswer file path s;
   addAdditionalFile s file path].

(** What a file action leaves when the file service has answered [answer]:
    the answer is written, validated and announced, or its error is thrown. *)
Definition fileActionResult (answer : Result SubmissionEntity) (w : World)
  : Result SubmissionPackage * World :=
  match answer with
  | Ok s' =>
      (Ok (packageOf w s'),
       addEvents [Validated (_id s'); Emitted UPDATED [_id s']]
         (withSubmissions (map (fun x => if hasId (_id s') x then persisted s' else x)) w))
  | Throw e => (Throw e, w)
  end.

End Notions.

Ltac refuse Hget Hpost :=
  cbv [bind]; rewrite Hget; rewrite Hpost; reflexivity.

(** *** Properties *)

(** *** How the basic operations run *)

Section Runs.

Context {deps : Collaborators}.

Lemma addEvents_addEvents (a b : list Event) (w : World) :
  addEvents b (addEvents a w) = addEvents (a ++ b) w.
Proof.
  unfold addEvents, withEvents. simpl. rewrite app_assoc. reflexivity.
Qed.

Lemma addEvents_nil (w : World) : addEvents [] w = w.
Proof.
  destruct w. unfold addEvents, withEvents. simpl. rewrite app_nil_r. reflexivity.
Qed.

Lemma get_found (id : string) (s0 : SubmissionEntity) (w : World) :
  find (hasId id) (submissions w) = Some s0 ->
  get (ById id) w = (Ok (flagged w s0), w).
Proof.
  intros H. unfold get, bind, findOne, gets, ret. rewrite H. reflexivity.
Qed.

Lemma get_missing (id : string) (w : World) :
  find (hasId id) (submissions w) = None ->
  get (ById id) w
  = (Throw (NotFoundException ("Submission " ++ id ++ " could not be found")), w).
Proof.
  intros H. unfold get, bind, findOne, gets, throw. rewrite H. reflexivity.
Qed.

Lemma validate_entity (s : SubmissionEntity) (w : World) :
  validate (ByEntity s) w = (Ok (packageOf w s), addEvents [Validated (_id s)] w).
Proof. reflexivity. Qed.

Lemma packageOf_addEvents (evs : list Event) (w : World) (s : SubmissionEntity) :
  packageOf (addEvents evs w) s = packageOf w s.
Proof. reflexivity. Qed.

Lemma validate_all (l : list SubmissionEntity) (w : World) :
  promiseAll (fun s => validate (ByEntity s)) l w
  = (Ok (map (packageOf w) l), addEvents (map (fun s => Validated (_id s)) l) w).
Proof.
  revert w. induction l as [|s l IH]; intros w.
  - simpl. unfold ret. rewrite addEvents_nil. reflexivity.
  - cbn [promiseAll]. rewrite validate_entity, IH.
    rewrite addEvents_addEvents. reflexivity.
Qed.

Lemma getAllAndValidate_run (w : World) :
  getAllAndValidate None w
  = (Ok (map (packageOf w) (map (flagged w) (submissions w))),
     addEvents (map (fun s => Validated (_id s)) (submissions w)) w).
Proof.
  cbv [getAllAndValidate bind getAll repositoryFind gets].
  fold (flagged w). rewrite validate_all. rewrite !map_map. reflexivity.
Qed.

(** **** Lists *)

Lemma filter_map_comm {A B} (f : B -> bool) (g : A -> B) (l : list A) :
  filter f (map g l) = map g (filter (fun x => f (g x)) l).
Proof.
  induction l as [|x l IH]; simpl; [reflexivity|].
  destruct (f (g x)); simpl; rewrite IH; reflexivity.
Qed.

Lemma filter_filter_and {A} (f g : A -> bool) (l : list A) :
  filter f (filter g l) = filter (fun x => g x && f x) l.
Proof.
  induction l as [|x l IH]; simpl; [reflexivity|].
  destruct (g x); simpl; [destruct (f x)|]; rewrite IH; reflexivity.
Qed.

Lemma insertBy_map {A B} (g : A -> B) (afterA : A -> A -> bool) (afterB : B -> B -> bool)
  (H : forall x y, afterB (g x) (g y) = afterA x y) (x : A) (l : list A) :
  insertBy afterB (g x) (map g l) = map g (insertBy afterA x l).
Proof.
  induction l as [|y l IH]; simpl; [reflexivity|].
  rewrite H. destruct (afterA x y); simpl; [rewrite IH|]; reflexivity.
Qed.

Lemma sortBy_map {A B} (g : A -> B) (afterA : A -> A -> bool) (afterB : B -> B -> bool)
  (H : forall x y, afterB (g x) (g y) = afterA x y) (l : list A) :
  sortBy afterB (map g l) = map g (sortBy afterA l).
Proof.
  induction l as [|x l IH]; simpl; [reflexivity|].
  rewrite IH. apply insertBy_map. exact H.
Qed.

Lemma insertBy_perm {A} (after : A -> A -> bool) (x : A) (l : list A) :
  Permutation (insertBy after x l) (x :: l).
Proof.
  induction l as [|y l IH]; simpl; [apply Permutation_refl|].
  destruct (after x y); [|apply Permutation_refl].
  eapply Permutation_trans; [apply perm_skip; exact IH | apply perm_swap].
Qed.

Lemma sortBy_perm {A} (after : A -> A -> bool) (l : list A) :
  Permutation (sortBy after l) l.
Proof.
  induction l as [|x l IH]; simpl; [apply Permutation_refl|].
  eapply Permutation_trans; [apply insertBy_perm | apply perm_skip; exact IH].
Qed.

Lemma scheduleSubmission_false_world (id : string) (w : World) :
  snd (scheduleSubmission (ById id) false None w) = unscheduleWorld id w.
Proof.
  unfold scheduleSubmission, unscheduleWorld, bind.
  destruct (find (hasId id) (submissions w)) as [s0|] eqn:Hf.
  - rewrite (get_found id s0 w Hf). cbn [falsyNumber].
    change (postAt (schedule (flagged w s0))) with (postAt (schedule s0)).
    destruct (falsyNumber (postAt (schedule s0))); [reflexivity|].
    cbv [repositoryUpdate modify emitOnComplete detached bind emit ret].
    rewrite validate_entity. cbn [snd].
    rewrite addEvents_addEvents. reflexivity.
  - rewrite (get_missing id w Hf). reflexivity.
Qed.

Lemma promote_run (p : SubmissionPackage) (w : World) :
  promote p w = (Ok tt, promoteWorld (_id (submission p)) w).
Proof.
  unfold promote, bind, detached. rewrite scheduleSubmission_false_world.
  unfold queue, promoteWorld, queueWorld, isCurrentlyPosting, isCurrentlyQueued.
  destruct (existsb _ _ || existsb _ _); reflexivity.
Qed.

Lemma forEachM_promote (due : list SubmissionPackage) (w : World) :
  forEachM promote due w
  = (Ok tt, fold_left (fun w' id => promoteWorld id w')
              (map (fun p => _id (submission p)) due) w).
Proof.
  revert w. induction due as [|p due IH]; intros w; [reflexivity|].
  cbn [forEachM map fold_left]. unfold bind. rewrite promote_run. apply IH.
Qed.

Lemma dueSubmissions_ids (now : Z) (w : World) (evs : list Event) :
  map (fun p => _id (submission p))
    (dueSubmissions now (map (packageOf w) (map (flagged w) (submissions w)))
       (addEvents evs w))
  = dueIds now w.
Proof.
  unfold dueSubmissions, dueIds, dueEntities.
  rewrite !filter_filter_and, map_map.
  rewrite filter_map_comm.
  rewrite (sortBy_map (fun s => packageOf w (flagged w s)) laterThan postAtAfter)
    by reflexivity.
  rewrite map_map.
  erewrite filter_ext; [reflexivity|].
  intros s. unfold isDue, dueBy. cbn [submission packageOf].
  change (schedule (flagged w s)) with (schedule s).
  change (isCurrentlyPosting (flagged w s) (addEvents evs w)) with (isCurrentlyPosting s w).
  change (isCurrentlyQueued (flagged w s) (addEvents evs w)) with (isCurrentlyQueued s w).
  rewrite !andb_assoc. reflexivity.
Qed.

(** One tick, from its start to its end. *)
Lemma queueScheduledSubmissions_run (now : Z) (w : World) :
  queueScheduledSubmissions now w = (Ok tt, tickWorld now w).
Proof.
  unfold queueScheduledSubmissions, bind. rewrite getAllAndValidate_run.
  unfold gets. rewrite forEachM_promote, dueSubmissions_ids. reflexivity.
Qed.

(** **** What a tick leaves *)

Lemma promoteWorld_frame (id : string) (w : World) :
  storedParts (promoteWorld id w) = storedParts w
  /\ posting (promoteWorld id w) = posting w
  /\ cancelled (promoteWorld id w) = cancelled w
  /\ faults (promoteWorld id w) = faults w
  /\ idSupply (promoteWorld id w) = idSupply w.
Proof.
  unfold promoteWorld, queueWorld, unscheduleWorld.
  destruct (find (hasId id) (submissions w)) as [s0|];
    [destruct (falsyNumber (postAt (schedule s0)))|];
    match goal with
    | |- context [if ?c then _ else _] => destruct c
    end; repeat split; reflexivity.
Qed.

Lemma tickWorld_frame (now : Z) (w : World) :
  storedParts (tickWorld now w) = storedParts w
  /\ posting (tickWorld now w) = posting w
  /\ cancelled (tickWorld now w) = cancelled w
  /\ faults (tickWorld now w) = faults w
  /\ idSupply (tickWorld now w) = idSupply w.
Proof.
  unfold tickWorld.
  change (storedParts w) with
    (storedParts (addEvents (map (fun s => Validated (_id s)) (submissions w)) w)).
  change (posting w) with
    (posting (addEvents (map (fun s => Validated (_id s)) (submissions w)) w)).
  change (cancelled w) with
    (cancelled (addEvents (map (fun s => Validated (_id s)) (submissions w)) w)).
  change (faults w) with
    (faults (addEvents (map (fun s => Validated (_id s)) (submissions w)) w)).
  change (idSupply w) with
    (idSupply (addEvents (map (fun s => Validated (_id s)) (submissions w)) w)).
  generalize (addEvents (map (fun s => Validated (_id s)) (submissions w)) w).
  induction (dueIds now w) as [|id ids IH]; intros w0; [repeat split; reflexivity|].
  cbn [fold_left].
  destruct (IH (promoteWorld id w0)) as [H1 [H2 [H3 [H4 H5]]]].
  destruct (promoteWorld_frame id w0) as [F1 [F2 [F3 [F4 F5]]]].
  rewrite H1, H2, H3, H4, H5, F1, F2, F3, F4, F5. repeat split; reflexivity.
Qed.

Lemma existsb_eqb_In (id : string) (ids : list string) :
  existsb (String.eqb id) ids = true <-> In id ids.
Proof.
  rewrite existsb_exists. split.
  - intros [x [Hin Heq]]. apply String.eqb_eq in Heq. subst. exact Hin.
  - intros Hin. exists id. split; [exact Hin | apply String.eqb_refl].
Qed.

Lemma existsb_eqb_notIn (id : string) (ids : list string) :
  existsb (String.eqb id) ids = false <-> ~ In id ids.
Proof.
  rewrite <- existsb_eqb_In. destruct (existsb (String.eqb id) ids); split; intro H;
    try reflexivity; try discriminate; try (intro; discriminate).
  exfalso. apply H. reflexivity.
Qed.

Lemma promoteWorld_queued (id : string) (w : World) :
  existsb (String.eqb id) (posting w) = false ->
  existsb (String.eqb id) (queued w) = false ->
  queued (promoteWorld id w) = queued w ++ [id].
Proof.
  intros Hp Hq. unfold promoteWorld, queueWorld.
  assert (Hsame : posting (unscheduleWorld id w) = posting w
                  /\ queued (unscheduleWorld id w) = queued w).
  { unfold unscheduleWorld. destruct (find (hasId id) (submissions w)) as [s0|];
      [destruct (falsyNumber (postAt (schedule s0)))|]; split; reflexivity. }
  destruct Hsame as [-> E]. rewrite E, Hp, Hq. simpl. rewrite E. reflexivity.
Qed.

(** Handed to the queue once each, in order. *)
Lemma fold_promote_queued (ids : list string) (w : World) :
  NoDup ids ->
  (forall id, In id ids ->
     existsb (String.eqb id) (posting w) = false
     /\ existsb (String.eqb id) (queued w) = false) ->
  queued (fold_left (fun w' id => promoteWorld id w') ids w) = queued w ++ ids.
Proof.
  revert w. induction ids as [|id ids IH]; intros w Hnd Hfree.
  - simpl. rewrite app_nil_r. reflexivity.
  - cbn [fold_left]. inversion Hnd as [|? ? Hnotin Hnd']; subst.
    destruct (Hfree id (or_introl eq_refl)) as [Hp Hq].
    rewrite IH; [| exact Hnd' |].
    + rewrite (promoteWorld_queued id w Hp Hq), <- app_assoc. reflexivity.
    + intros id' Hin'. destruct (Hfree id' (or_intror Hin')) as [Hp' Hq'].
      destruct (promoteWorld_frame id w) as [_ [Fp _]].
      rewrite Fp, (promoteWorld_queued id w Hp Hq). split; [exact Hp'|].
      rewrite existsb_app, Hq'. simpl. rewrite orb_false_r.
      apply String.eqb_neq. intros ->. contradiction.
Qed.

Lemma NoDup_ids_inj (l : list SubmissionEntity) (a b : SubmissionEntity) :
  NoDup (map _id l) -> In a l -> In b l -> _id a = _id b -> a = b.
Proof.
  induction l as [|x l IH]; intros Hnd Ha Hb Hab; [destruct Ha|].
  simpl in Hnd. inversion Hnd as [|? ? Hnotin Hnd']; subst.
  destruct Ha as [<-|Ha], Hb as [<-|Hb].
  - reflexivity.
  - exfalso. apply Hnotin. rewrite Hab. apply in_map. exact Hb.
  - exfalso. apply Hnotin. rewrite <- Hab. apply in_map. exact Ha.
  - apply IH; assumption.
Qed.

Lemma find_hasId_map (g : SubmissionEntity -> SubmissionEntity) (id : string)
  (l : list SubmissionEntity) :
  (forall s, _id (g s) = _id s) ->
  find (hasId id) (map g l) = option_map g (find (hasId id) l).
Proof.
  intros Hg. induction l as [|x l IH]; simpl; [reflexivity|].
  unfold hasId at 1 3. rewrite Hg. fold (hasId id x).
  destruct (hasId id x); [reflexivity | exact IH].
Qed.

Lemma find_hasId_Some (id : string) (l : list SubmissionEntity) (s0 : SubmissionEntity) :
  find (hasId id) l = Some s0 -> In s0 l /\ _id s0 = id.
Proof.
  intros H. apply find_some in H. destruct H as [Hin Hid].
  split; [exact Hin|]. unfold hasId in Hid. apply String.eqb_eq in Hid. symmetry. exact Hid.
Qed.

Lemma find_hasId_None (id : string) (l : list SubmissionEntity) (s : SubmissionEntity) :
  find (hasId id) l = None -> In s l -> _id s <> id.
Proof.
  intros H Hin Heq. pose proof (find_none _ _ H s Hin) as Hn.
  unfold hasId in Hn. rewrite Heq, String.eqb_refl in Hn. discriminate.
Qed.

Lemma unscheduleIf_id (c : SubmissionEntity -> bool) (s : SubmissionEntity) :
  _id (unscheduleIf c s) = _id s.
Proof. unfold unscheduleIf. destruct (c s); reflexivity. Qed.

Lemma fold_promote_submissions (l0 : list SubmissionEntity) (ids done : list string)
  (w : World) :
  NoDup (map _id l0) ->
  NoDup (done ++ ids) ->
  submissions w = map (unscheduleIf (touched done)) l0 ->
  submissions (fold_left (fun w' id => promoteWorld id w') ids w)
  = map (unscheduleIf (touched (done ++ ids))) l0.
Proof.
  intros Hnd. revert done w. induction ids as [|id ids IH]; intros done w Hdn Hw.
  - simpl. rewrite app_nil_r. exact Hw.
  - cbn [fold_left].
    replace (done ++ id :: ids) with ((done ++ [id]) ++ ids)
      by (rewrite <- app_assoc; reflexivity).
    apply IH; [rewrite <- app_assoc; exact Hdn|].
    assert (Hfresh : ~ In id done).
    { intros Hin. apply NoDup_app_remove_r in Hdn as Hd.
      apply (NoDup_remove_2 done ids id Hdn). apply in_or_app. left. exact Hin. }
    assert (Hsub : submissions (promoteWorld id w) = submissions (unscheduleWorld id w)).
    { unfold promoteWorld, queueWorld.
      destruct (existsb _ _ || existsb _ _); reflexivity. }
    rewrite Hsub. unfold unscheduleWorld. rewrite Hw.
    rewrite (find_hasId_map _ id l0 (unscheduleIf_id _)).
    destruct (find (hasId id) l0) as [s0|] eqn:Hf; cbn [option_map].
    + destruct (find_hasId_Some id l0 s0 Hf) as [Hin0 Hid0].
      assert (Hs0 : unscheduleIf (touched done) s0 = s0).
      { unfold unscheduleIf, touched. rewrite Hid0.
        rewrite (proj2 (existsb_eqb_notIn id done) Hfresh). reflexivity. }
      rewrite Hs0.
      destruct (falsyNumber (postAt (schedule s0))) eqn:Hfalsy.
      * rewrite Hw. apply map_ext_in. intros s Hs.
        unfold unscheduleIf, touched. rewrite existsb_app. cbn [existsb].
        destruct (String.eqb (_id s) id) eqn:E.
        -- apply String.eqb_eq in E.
           assert (s = s0) by (apply (NoDup_ids_inj l0); congruence). subst s.
           rewrite Hfalsy. rewrite !andb_false_r. reflexivity.
        -- rewrite orb_false_r. reflexivity.
      * cbn [submissions addEvents withEvents withSubmissions]. rewrite Hw, map_map.
        apply map_ext_in. intros s Hs.
        unfold hasId. rewrite unscheduleIf_id, Hid0.
        unfold unscheduleIf at 2. unfold touched at 2. rewrite existsb_app. cbn [existsb].
        rewrite (String.eqb_sym id (_id s)).
        destruct (String.eqb (_id s) id) eqn:E.
        -- apply String.eqb_eq in E.
           assert (s = s0) by (apply (NoDup_ids_inj l0); congruence). subst s.
           rewrite Hfalsy. rewrite orb_true_r. reflexivity.
        -- rewrite !orb_false_r. reflexivity.
    + rewrite Hw. apply map_ext_in. intros s Hs.
      unfold unscheduleIf, touched. rewrite existsb_app. cbn [existsb].
      pose proof (find_hasId_None id l0 s Hf Hs) as Hne.
      apply String.eqb_neq in Hne. rewrite Hne, !orb_false_r. reflexivity.
Qed.

Lemma In_dueEntities (now : Z) (w : World) (s : SubmissionEntity) :
  In s (dueEntities now w) <-> In s (submissions w) /\ isDue now w s = true.
Proof.
  unfold dueEntities. rewrite <- filter_In. split; intros H.
  - eapply Permutation_in; [apply sortBy_perm | exact H].
  - eapply Permutation_in; [apply Permutation_sym, sortBy_perm | exact H].
Qed.

Lemma NoDup_filter_map {A B} (g : A -> B) (f : A -> bool) (l : list A) :
  NoDup (map g l) -> NoDup (map g (filter f l)).
Proof.
  induction l as [|x l IH]; simpl; intros H; [constructor|].
  inversion H as [|? ? Hnotin Hnd]; subst.
  destruct (f x); simpl; [constructor|]; auto.
  intros Hin. apply Hnotin. apply in_map_iff in Hin. destruct Hin as [y [Hy Hin]].
  apply in_map_iff. exists y. split; [exact Hy|]. apply filter_In in Hin. apply Hin.
Qed.

Lemma NoDup_dueIds (now : Z) (w : World) :
  NoDup (map _id (submissions w)) -> NoDup (dueIds now w).
Proof.
  intros H. unfold dueIds, dueEntities.
  eapply Permutation_NoDup.
  - apply Permutation_map. apply Permutation_sym. apply sortBy_perm.
  - apply NoDup_filter_map. exact H.
Qed.

Lemma In_dueIds (now : Z) (w : World) (s : SubmissionEntity) :
  NoDup (map _id (submissions w)) ->
  In s (submissions w) ->
  (In (_id s) (dueIds now w) <-> isDue now w s = true).
Proof.
  intros Hnd Hin. unfold dueIds. rewrite in_map_iff. split.
  - intros [s' [Hid Hs']]. apply In_dueEntities in Hs'. destruct Hs' as [Hin' Hdue].
    assert (s' = s) by (apply (NoDup_ids_inj (submissions w)); assumption).
    subst. exact Hdue.
  - intros Hdue. exists s. split; [reflexivity|]. apply In_dueEntities. split; assumption.
Qed.

Lemma tickWorld_queued (now : Z) (w : World) :
  NoDup (map _id (submissions w)) ->
  queued (tickWorld now w) = queued w ++ dueIds now w.
Proof.
  intros Hnd. unfold tickWorld. rewrite fold_promote_queued.
  - reflexivity.
  - apply NoDup_dueIds. exact Hnd.
  - intros id Hin. unfold dueIds in Hin. apply in_map_iff in Hin.
    destruct Hin as [s [<- Hs]]. apply In_dueEntities in Hs. destruct Hs as [_ Hdue].
    unfold isDue in Hdue. apply andb_true_iff in Hdue. destruct Hdue as [Hdue Hq].
    apply andb_true_iff in Hdue. destruct Hdue as [_ Hp].
    apply negb_true_iff in Hp. apply negb_true_iff in Hq. split; assumption.
Qed.

Lemma tickWorld_submissions (now : Z) (w : World) :
  NoDup (map _id (submissions w)) ->
  submissions (tickWorld now w) = map (unscheduleIf (unschedulable now w)) (submissions w).
Proof.
  intros Hnd. unfold tickWorld.
  rewrite (fold_promote_submissions (submissions w) (dueIds now w) [] _ Hnd).
  - apply map_ext_in. intros s Hs. unfold unscheduleIf, touched, unschedulable. simpl.
    destruct (isDue now w s) eqn:Hdue.
    + rewrite (proj2 (existsb_eqb_In _ _) (proj2 (In_dueIds now w s Hnd Hs) Hdue)).
      reflexivity.
    + assert (Hn : existsb (String.eqb (_id s)) (dueIds now w) = false).
      { apply existsb_eqb_notIn. intros Hin.
        apply (In_dueIds now w s Hnd Hs) in Hin. congruence. }
      rewrite Hn. reflexivity.
  - simpl. apply NoDup_dueIds. exact Hnd.
  - simpl. symmetry. erewrite map_ext; [apply map_id|].
    intros s. reflexivity.
Qed.

Lemma promoteWorld_events (id : string) (w : World) :
  exists more, events (promoteWorld id w) = events w ++ more.
Proof.
  unfold promoteWorld, queueWorld, unscheduleWorld.
  destruct (find (hasId id) (submissions w)) as [s0|];
    [destruct (falsyNumber (postAt (schedule s0)))|];
    match goal with
    | |- context [if ?c then _ else _] => destruct c
    end; simpl; try (exists []; rewrite app_nil_r; reflexivity);
    eexists; reflexivity.
Qed.

Lemma fold_promote_events (ids : list string) (w : World) :
  exists more,
    events (fold_left (fun w' id => promoteWorld id w') ids w) = events w ++ more.
Proof.
  revert w. induction ids as [|id ids IH]; intros w.
  - exists []. simpl. rewrite app_nil_r. reflexivity.
  - cbn [fold_left]. destruct (IH (promoteWorld id w)) as [m2 H2].
    destruct (promoteWorld_events id w) as [m1 H1].
    exists (m1 ++ m2). rewrite H2, H1, app_assoc. reflexivity.
Qed.

(** Every stored submission is validated at the start of a tick. *)
Lemma tickWorld_events (now : Z) (w : World) :
  exists more,
    events (tickWorld now w)
    = events w ++ map (fun s => Validated (_id s)) (submissions w) ++ more.
Proof.
  unfold tickWorld.
  destruct (fold_promote_events (dueIds now w)
              (addEvents (map (fun s => Validated (_id s)) (submissions w)) w)) as [more H].
  exists more. rewrite H. simpl. rewrite app_assoc. reflexivity.
Qed.

Lemma insertBy_laterThan_sorted (x : SubmissionEntity) (l : list SubmissionEntity) :
  hasPostAt x -> Forall hasPostAt l ->
  StronglySorted noLaterThan l ->
  StronglySorted noLaterThan (insertBy laterThan x l).
Proof.
  intros [tx Hx] Hall Hs. induction l as [|y l IH]; simpl.
  - constructor; constructor.
  - inversion Hall as [|? ? [ty Hy] Hall']; subst.
    inversion Hs as [|? ? Hs' Hle]; subst.
    unfold laterThan. rewrite Hx, Hy.
    destruct (Z.ltb 0 (tx - ty)) eqn:E.
    + apply Z.ltb_lt in E. constructor; [apply IH; assumption|].
      eapply Permutation_Forall; [apply Permutation_sym, insertBy_perm|].
      constructor; [|exact Hle].
      exists ty, tx. repeat split; try assumption. lia.
    + apply Z.ltb_ge in E. constructor; [exact Hs|].
      constructor.
      * exists tx, ty. repeat split; try assumption. lia.
      * eapply Forall_impl; [|exact Hle].
        intros z [ty' [tz [Hy' [Hz Hyz]]]]. rewrite Hy in Hy'. inversion Hy'; subst.
        exists tx, tz. repeat split; try assumption. lia.
Qed.

Lemma sortBy_laterThan_sorted (l : list SubmissionEntity) :
  Forall hasPostAt l -> StronglySorted noLaterThan (sortBy laterThan l).
Proof.
  induction l as [|x l IH]; intros Hall; simpl; [constructor|].
  inversion Hall as [|? ? Hx Hall']; subst.
  apply insertBy_laterThan_sorted; [exact Hx | | apply IH; exact Hall'].
  eapply Permutation_Forall; [apply Permutation_sym, sortBy_perm | exact Hall'].
Qed.

Lemma dueEntities_sorted (now : Z) (w : World) :
  StronglySorted noLaterThan (dueEntities now w).
Proof.
  unfold dueEntities. apply sortBy_laterThan_sorted.
  apply Forall_forall. intros s Hs. apply filter_In in Hs. destruct Hs as [_ Hdue].
  unfold isDue in Hdue. unfold hasPostAt.
  destruct (postAt (schedule s)) as [t|]; [exists t; reflexivity|].
  rewrite andb_false_r in Hdue. discriminate.
Qed.

End Runs.

(** *** The scheduler tick *)

Example tick_scenario :
  let w' := snd (queueScheduledSubmissions (deps := sampleDeps) 1000 scheduledWorld) in
  queued w' = ["b"; "a"]
  /\ map (fun s => (_id s, isScheduled (schedule s))) (submissions w')
     = [("a", false); ("b", false); ("c", true); ("d", false)].
Proof. split; reflexivity. Qed.

(** C8, as the code has it.  A tick validates every stored submission
    ([getAllAndValidate]) and never reads what the validator answered: the
    state a tick leaves is the same under any two sets of collaborators, so
    under any two validators.  With distinct identifiers in the repository,
    the due submissions are enqueued, each once and in order, whatever their
    problems; a stored submission is either left as it was or is a due one,
    unscheduled; parts, posting set and the rest are untouched. *)
Theorem tick_validates_but_ignores_problems
  (deps1 deps2 : Collaborators) (now : Z) (w : World) :
  NoDup (map _id (submissions w)) ->
  let w' := snd (queueScheduledSubmissions (deps := deps1) now w) in
  queueScheduledSubmissions (deps := deps1) now w
  = queueScheduledSubmissions (deps := deps2) now w
  /\ (exists more,
        events w' = events w ++ map (fun s => Validated (_id s)) (submissions w) ++ more)
  /\ queued w' = queued w ++ dueIds now w
  /\ Forall2 (fun s s' => s' = s \/ (isDue now w s = true /\ s' = unscheduled s))
       (submissions w) (submissions w')
  /\ storedParts w' = storedParts w
  /\ posting w' = posting w
  /\ cancelled w' = cancelled w.
Proof.
  intros Hnd w'. subst w'.
  rewrite (queueScheduledSubmissions_run (deps := deps1)),
          (queueScheduledSubmissions_run (deps := deps2)).
  cbn [snd].
  split; [reflexivity|].
  split; [apply tickWorld_events|].
  split; [apply tickWorld_queued; exact Hnd|].
  destruct (tickWorld_frame now w) as [Hp [Hpo [Hc _]]].
  split; [|repeat split; assumption].
  rewrite (tickWorld_submissions now w Hnd).
  clear. induction (submissions w) as [|s l IH]; simpl; constructor; [|exact IH].
  unfold unscheduleIf, unschedulable.
  destruct (isDue now w s); [|left; reflexivity].
  destruct (negb (falsyNumber (postAt (schedule s)))); simpl;
    [right; split; reflexivity | left; reflexivity].
Qed.

Lemma tick_validates_but_ignores_problems_witness :
  queueScheduledSubmissions (deps := sampleDeps) 1000 scheduledWorld
  = queueScheduledSubmissions (deps := lenientDeps) 1000 scheduledWorld
  /\ queued (snd (queueScheduledSubmissions (deps := sampleDeps) 1000 scheduledWorld))
     = queued scheduledWorld ++ dueIds 1000 scheduledWorld.
Proof.
  assert (Hnd : NoDup (map _id (submissions scheduledWorld))).
  { simpl. repeat constructor; simpl; intuition discriminate. }
  pose proof (tick_validates_but_ignores_problems sampleDeps lenientDeps 1000
                scheduledWorld Hnd) as H.
  cbv zeta in H. destruct H as [H1 [_ [H3 _]]]. split; [exact H1 | exact H3].
Defined.

(** A tick does validate: for one stored submission, not even scheduled, the
    validator is called once. *)
Lemma tick_performs_validation :
  events (snd (queueScheduledSubmissions (deps := sampleDeps) 1000
                 (worldOf [notification "d" false 100] [])))
  = [Validated "d"].
Proof. reflexivity. Qed.

(** *** A due submission whose [postAt] is [0] *)

(** C3 at the failing input.  The submission is scheduled and due, neither
    posting nor queued: the tick hands it to the queue, but
    [scheduleSubmission(id, false)] throws on the falsy [postAt] and the
    submission stays scheduled; once the post service has taken it off the
    queue, the next tick promotes it again. *)
Theorem tick_leaves_zero_postAt_scheduled :
  let w' := snd (queueScheduledSubmissions (deps := sampleDeps) 1000 epochWorld) in
  map schedule (submissions epochWorld) = [{| isScheduled := true; postAt := Some 0%Z |}]
  /\ fst (scheduleSubmission (deps := sampleDeps) (ById "z") false None epochWorld)
     = Throw (BadRequestException
                "Submission cannot be scheduled because it does not have a postAt value")
  /\ queued w' = ["z"]
  /\ map schedule (submissions w') = [{| isScheduled := true; postAt := Some 0%Z |}]
  /\ queued (snd (queueScheduledSubmissions (deps := sampleDeps) 61000
                    (withQueued (fun _ => []) w'))) = ["z"].
Proof. repeat split. Qed.

(** X1.  What does hold of every tick, for a repository with distinct
    identifiers:
    exactly the due submissions are handed to the queue, each once, in
    ascending [postAt] order, and those with a [postAt] other than [0] are
    stored unscheduled. *)
Theorem tick_promotes_due_submissions
  {deps : Collaborators} (now : Z) (w : World) :
  NoDup (map _id (submissions w)) ->
  let w' := snd (queueScheduledSubmissions now w) in
  queued w' = queued w ++ map _id (dueEntities now w)
  /\ NoDup (map _id (dueEntities now w))
  /\ (forall s, In s (dueEntities now w) <-> In s (submissions w) /\ isDue now w s = true)
  /\ StronglySorted noLaterThan (dueEntities now w)
  /\ submissions w' = map (unscheduleIf (unschedulable now w)) (submissions w).
Proof.
  intros Hnd w'. subst w'. rewrite queueScheduledSubmissions_run. cbn [snd].
  split; [apply tickWorld_queued; exact Hnd|].
  split; [apply (NoDup_dueIds now w Hnd)|].
  split; [intros s; apply In_dueEntities|].
  split; [apply dueEntities_sorted|].
  apply tickWorld_submissions. exact Hnd.
Qed.

Lemma tick_promotes_due_submissions_witness :
  queued (snd (queueScheduledSubmissions (deps := sampleDeps) 1000 scheduledWorld))
  = queued scheduledWorld ++ map _id (dueEntities 1000 scheduledWorld).
Proof.
  assert (Hnd : NoDup (map _id (submissions scheduledWorld))).
  { simpl. repeat constructor; simpl; intuition discriminate. }
  exact (proj1 (tick_promotes_due_submissions (deps := sampleDeps) 1000 scheduledWorld Hnd)).
Defined.

(** *** Writes while a submission is posting *)

Section PostingGuard.

Context {deps : Collaborators}.

Lemma get_posting (id : string) (s0 : SubmissionEntity) (w : World) :
  find (hasId id) (submissions w) = Some s0 ->
  isCurrentlyPosting s0 w = true ->
  exists s, get (ById id) w = (Ok s, w) /\ isPosting s = true.
Proof.
  intros Hf Hp. exists (flagged w s0). split; [apply get_found; exact Hf|].
  unfold flagged. simpl. exact Hp.
Qed.

Lemma deleteSubmission_entity (s : SubmissionEntity) (skipCancel : bool) (w : World) :
  (type s = NOTIFICATION \/ cleanupSubmission s = Ok tt) ->
  deleteSubmission (ByEntity s) skipCancel w
  = (Ok (length (filter (hasId (_id s)) (submissions w))), deletedWorld s skipCancel w).
Proof.
  intros Hc. unfold deleteSubmission, deletedWorld.
  assert (Hclean : forall w0 : World,
             match type s return M World unit with
             | FILE => lift (cleanupSubmission s)
             | NOTIFICATION => ret tt
             end w0 = (Ok tt, w0)).
  { intros w0. destruct Hc as [Hn|Hc]; [rewrite Hn; reflexivity|].
    destruct (type s); [unfold lift; rewrite Hc|]; reflexivity. }
  cbv [bind get ret]. destruct skipCancel.
  - rewrite Hclean. reflexivity.
  - unfold cancel. cbv beta iota zeta. rewrite Hclean.
    destruct (isCurrentlyPosting s w); reflexivity.
Qed.

Lemma deleteSubmission_found (id : string) (s0 : SubmissionEntity) (skipCancel : bool)
  (w : World) :
  find (hasId id) (submissions w) = Some s0 ->
  (type s0 = NOTIFICATION \/ cleanupSubmission (flagged w s0) = Ok tt) ->
  deleteSubmission (ById id) skipCancel w
  = (Ok (length (filter (hasId (_id s0)) (submissions w))),
     deletedWorld (flagged w s0) skipCancel w).
Proof.
  intros Hf Hc.
  change (_id s0) with (_id (flagged w s0)).
  rewrite <- (deleteSubmission_entity (flagged w s0) skipCancel w Hc).
  unfold deleteSubmission, bind. rewrite (get_found id s0 w Hf). reflexivity.
Qed.

Lemma deletedWorld_absent (s : SubmissionEntity) (skipCancel : bool) (w : World) :
  (forall x, In x (submissions (deletedWorld s skipCancel w)) -> _id x <> _id s)
  /\ (forall p, In p (storedParts (deletedWorld s skipCancel w)) ->
        submissionId p <> _id s).
Proof.
  split.
  - intros x Hin. unfold deletedWorld in Hin. cbn [submissions withSubmissions] in Hin.
    apply filter_In in Hin. destruct Hin as [_ Hn]. apply negb_true_iff in Hn.
    unfold hasId in Hn. apply String.eqb_neq in Hn. congruence.
  - intros p Hin. unfold deletedWorld in Hin.
    cbn [storedParts withSubmissions addEvents withEvents withParts] in Hin.
    apply filter_In in Hin. destruct Hin as [_ Hn]. apply negb_true_iff in Hn.
    unfold ofSubmission in Hn. apply String.eqb_neq in Hn. congruence.
Qed.

(** C4, as the code has it.  While a submission is posting,
    [updateSubmission], [overwriteSubmissionParts], [setPostAt] and every file
    action on it are refused with [BadRequestException] before anything is
    written: the state is left as it was.  [deleteSubmission] is not refused:
    it cancels the running post and removes the submission and its parts. *)
Theorem writes_refused_while_posting (id : string) (s0 : SubmissionEntity) (w : World) :
  find (hasId id) (submissions w) = Some s0 ->
  isCurrentlyPosting s0 w = true ->
  (forall update, update_id update = id ->
     updateSubmission update w = (Throw posting_refusal, w))
  /\ (forall o, overwrite_id o = id ->
        overwriteSubmissionParts o w = (Throw posting_refusal, w))
  /\ (forall at_, setPostAt (ById id) at_ w = (Throw posting_refusal, w))
  /\ (forall entity at_, isPosting entity = true ->
        setPostAt (ByEntity entity) at_ w = (Throw posting_refusal, w))
  /\ (forall file, setFallbackFile file id w = (Throw posting_refusal, w))
  /\ removeFileSubmissionThumbnail id w = (Throw posting_refusal, w)
  /\ (forall loc, removeFileSubmissionAdditionalFile id loc w = (Throw posting_refusal, w))
  /\ (forall file path,
        changeFileSubmissionThumbnailFile file id path w = (Throw posting_refusal, w))
  /\ (forall file path,
        changeFileSubmissionPrimaryFile file id path w = (Throw posting_refusal, w))
  /\ (forall file path,
        addFileSubmissionAdditionalFile file id path w = (Throw posting_refusal, w))
  /\ (forall record,
        updateFileSubmissionAdditionalFile id record w = (Throw posting_refusal, w))
  /\ ((type s0 = NOTIFICATION \/ cleanupSubmission (flagged w s0) = Ok tt) ->
      exists n w',
        deleteSubmission (ById id) false w = (Ok n, w')
        /\ In id (cancelled w')
        /\ (forall x, In x (submissions w') -> _id x <> id)
        /\ (forall p, In p (storedParts w') -> submissionId p <> id)).
Proof.
  intros Hf Hp.
  destruct (get_posting id s0 w Hf Hp) as [s [Hget Hpost]].
  split; [intros update <-; unfold updateSubmission; refuse Hget Hpost|].
  split; [intros o <-; unfold overwriteSubmissionParts; refuse Hget Hpost|].
  split; [intros at_; unfold setPostAt; refuse Hget Hpost|].
  split; [intros entity at_ He; unfold setPostAt; cbv [bind get ret]; rewrite He;
          reflexivity|].
  split; [intros file; unfold setFallbackFile; refuse Hget Hpost|].
  split; [unfold removeFileSubmissionThumbnail; refuse Hget Hpost|].
  split; [intros loc; unfold removeFileSubmissionAdditionalFile; refuse Hget Hpost|].
  split; [intros file path; unfold changeFileSubmissionThumbnailFile; refuse Hget Hpost|].
  split; [intros file path; unfold changeFileSubmissionPrimaryFile; refuse Hget Hpost|].
  split; [intros file path; unfold addFileSubmissionAdditionalFile; refuse Hget Hpost|].
  split; [intros record; unfold updateFileSubmissionAdditionalFile; refuse Hget Hpost|].
  intros Hc. destruct (find_hasId_Some id _ s0 Hf) as [_ Hid].
  eexists. eexists. split; [apply (deleteSubmission_found id s0 false w Hf Hc)|].
  destruct (deletedWorld_absent (flagged w s0) false w) as [Hs Hps].
  change (_id (flagged w s0)) with (_id s0) in Hs, Hps. rewrite Hid in Hs, Hps.
  split; [|split; assumption].
  unfold deletedWorld, cancel.
  cbn [cancelled withSubmissions addEvents withEvents withParts snd].
  change (isCurrentlyPosting (flagged w s0) w) with (isCurrentlyPosting s0 w).
  rewrite Hp. cbn [cancelled withQueued withCancelled]. apply in_or_app. right.
  change (_id (flagged w s0)) with (_id s0). rewrite Hid. left. reflexivity.
Qed.

End PostingGuard.

Lemma writes_refused_while_posting_witness :
  setPostAt (deps := sampleDeps) (ById "p") (Some 7000%Z) postingWorld
  = (Throw posting_refusal, postingWorld).
Proof.
  apply (proj1 (proj2 (proj2
    (writes_refused_while_posting (deps := sampleDeps) "p" (notification "p" true 5000)
       postingWorld eq_refl eq_refl)))).
Defined.

(** Deleting, and unscheduling, a submission that is being posted are carried
    out, not refused. *)
Lemma delete_while_posting_is_carried_out :
  isCurrentlyPosting (notification "p" true 5000) postingWorld = true
  /\ fst (deleteSubmission (deps := sampleDeps) (ById "p") false postingWorld) = Ok 1
  /\ submissions (snd (deleteSubmission (deps := sampleDeps) (ById "p") false postingWorld))
     = []
  /\ fst (scheduleSubmission (deps := sampleDeps) (ById "p") false None postingWorld) = Ok tt
  /\ map schedule
       (submissions (snd (scheduleSubmission (deps := sampleDeps) (ById "p") false None
                            postingWorld)))
     = [{| isScheduled := false; postAt := Some 5000%Z |}].
Proof. repeat split. Qed.

(** *** The status and target of copied parts *)

(** With a part filter that selects every part, a posted part too,
    [duplicate] copies the posted part: the copy is [UNPOSTED] and carries the
    target of the original. *)
Example duplicate_copies_a_selected_posted_part :
  filter (fun p => ofSubmission "new0" p && negb (isDefault p))
    (storedParts (snd (duplicate (deps := sampleDeps) "o" postedWorld)))
  = [partOf "new0" "acc1" "Furbooru" UNPOSTED (Some "https://furbooru.org/images/1")].
Proof. reflexivity. Qed.

(** With a part filter that leaves the posted parts out, the posted part is
    not copied. *)
Example duplicate_leaves_an_unselected_posted_part :
  filter (fun p => ofSubmission "new0" p && negb (isDefault p))
    (storedParts (snd (duplicate (deps := filteringDeps) "o" halfPostedWorld)))
  = [partOf "new0" "acc2" "Weasyl" UNPOSTED None].
Proof. reflexivity. Qed.

(** Recreating from a log whose part was posted: the part is stored
    [UNPOSTED] with no target. *)
Example recreate_clears_postedTo :
  let r := recreate (deps := sampleDeps)
             {| log_submission := notification "o" false 5000;
                log_parts := [partOf "o" "acc1" "Furbooru" POSTED
                                (Some "https://furbooru.org/images/1")];
                log_defaultPart := defaultPartOf (notification "o" false 5000) |}
             (worldOf [] []) in
  filter (fun p => negb (isDefault p)) (storedParts (snd r))
  = [partOf "new0" "acc1" "Furbooru" UNPOSTED None]
  /\ forallb postedToIffPosted (storedParts (snd r)) = true.
Proof. repeat split. Qed.

(** *** Failures while creating, duplicating and splitting *)

Section Cleanup.

Context {deps : Collaborators}.



(** Where the clean-up of the files throws, [deleteSubmission] has removed
    nothing yet. *)
Lemma deleteSubmission_cleanup_fails (s : SubmissionEntity) (w : World) (e : Error) :
  type s = FILE ->
  cleanupSubmission s = Throw e ->
  deleteSubmission (ByEntity s) false w = (Throw e, snd (cancel s w)).
Proof.
  intros Ht Hc. unfold deleteSubmission. cbv [bind get ret]. rewrite Ht.
  unfold lift. rewrite Hc. unfold cancel. cbv beta iota zeta.
  destruct (isCurrentlyPosting s w); reflexivity.
Qed.

(** A failure in the [try] block of [create] whose clean-up fails in its
    turn: the error of the clean-up is thrown, and what had been stored
    stays. *)
Lemma create_failure_cleanup_fails (createDto : SubmissionCreate) (w w1 w2 : World)
  (c : SubmissionEntity) (err e : Error) :
  type c = FILE ->
  cleanupSubmission c = Throw e ->
  newSubmission createDto w = (Ok c, w1) ->
  storeNew c w1 = (Throw err, w2) ->
  create createDto w = (Throw e, snd (cancel c w2))
  /\ submissions (snd (cancel c w2)) = submissions w2
  /\ storedParts (snd (cancel c w2)) = storedParts w2.
Proof.
  intros Ht Hc H1 H2. split.
  - unfold create, bind at 1. rewrite H1.
    unfold bind at 1. unfold tryCatch. rewrite H2.
    unfold bind. rewrite (deleteSubmission_cleanup_fails c w2 e Ht Hc). reflexivity.
  - unfold cancel. cbv zeta. destruct (isCurrentlyPosting c w2); split; reflexivity.
Qed.

Lemma keepsSubmissions_bind {A B} (m : M World A) (k : A -> M World B) :
  keepsSubmissions m -> (forall a, keepsSubmissions (k a)) -> keepsSubmissions (bind m k).
Proof.
  intros Hm Hk w. unfold bind. specialize (Hm w).
  destruct (m w) as [[a|e] w1]; simpl in *; [rewrite Hk|]; exact Hm.
Qed.

Lemma keepsSubmissions_fallible {A} (m : M World A) :
  keepsSubmissions m -> keepsSubmissions (fallible m).
Proof.
  intros Hm w. unfold fallible, bind, nextFault.
  destruct (faults w) as [|f fs].
  - apply Hm.
  - destruct f.
    + exact (Hm (withFaults (fun _ => fs) w)).
    + reflexivity.
    + pose proof (Hm (withFaults (fun _ => fs) w)) as H.
      destruct (m (withFaults (fun _ => fs) w)) as [[a|e'] w1]; exact H.
Qed.

Lemma keepsSubmissions_write (part : SubmissionPartEntity) (t : SubmissionType) :
  keepsSubmissions (createOrUpdateSubmissionPart part t).
Proof.
  unfold createOrUpdateSubmissionPart. apply keepsSubmissions_fallible.
  intros w. reflexivity.
Qed.

Lemma keepsSubmissions_promiseAll {A B} (f : A -> M World B) (l : list A) :
  (forall a, keepsSubmissions (f a)) -> keepsSubmissions (promiseAll f l).
Proof.
  intros Hf. induction l as [|a l IH]; intros w; [reflexivity|].
  cbn [promiseAll]. specialize (Hf a w). specialize (IH (snd (f a w))).
  destruct (f a w) as [[b|e] w1]; simpl in *.
  - destruct (promiseAll f l w1) as [[bs|e] w2]; simpl in *; congruence.
  - congruence.
Qed.

Lemma keepsSubmissions_validate (s : SubmissionEntity) :
  keepsSubmissions (validate (ByEntity s)).
Proof. intros w. reflexivity. Qed.







Lemma splitAdditionalIntoSubmissions_found (id : string) (s0 : SubmissionEntity) (w : World) :
  find (hasId id) (submissions w) = Some s0 ->
  splitAdditionalIntoSubmissions id w
  = match additional s0 with
    | [] => (Throw (BadRequestException
                      "Submission is not a File submission or does not have additional files"),
             w)
    | _ :: _ =>
        match partsToSplit s0 w with
        | [] => (Ok tt, w)
        | _ :: _ =>
            splitLoop (flagged w s0) (partsToSplit s0 w) (defaultPartToSplit s0 w)
              (order s0) (additional s0) w
        end
    end.
Proof.
  intros Hf. unfold splitAdditionalIntoSubmissions, bind. rewrite (get_found id s0 w Hf).
  change (additional (flagged w s0)) with (additional s0).
  destruct (additional s0) as [|f fs]; [reflexivity|].
  unfold getPartsForSubmission, gets.
  change (_id (flagged w s0)) with (_id s0).
  fold (partsToValidate (_id s0) w). fold (partsToSplit s0 w).
  destruct (partsToSplit s0 w); reflexivity.
Qed.


(** Before their [try] blocks, [create] and [duplicate] write to neither
    repository. *)
Lemma newSubmission_untouched (createDto : SubmissionCreate) (w : World) :
  untouched w (snd (newSubmission createDto w)).
Proof.
  unfold newSubmission.
  destruct (create_type createDto) as [t|raw|raw]; [|split; reflexivity|split; reflexivity].
  cbv [bind repositoryCount gets freshId]. cbv zeta.
  destruct t; [|split; reflexivity].
  unfold lift. destruct (createFileSubmission _ _); split; reflexivity.
Qed.

Lemma newDuplicate_untouched (originalId : string) (w : World) :
  untouched w (snd (newDuplicate originalId w)).
Proof.
  unfold newDuplicate, bind at 1.
  destruct (find (hasId originalId) (submissions w)) as [s0|] eqn:Hf.
  - rewrite (get_found originalId s0 w Hf).
    cbv [bind freshId]. cbv zeta.
    destruct (type _); [|split; reflexivity].
    unfold lift. destruct (duplicateFileSubmission _); split; reflexivity.
  - rewrite (get_missing originalId w Hf). split; reflexivity.
Qed.





End Cleanup.

(** Concrete failures. *)



Example failed_create_leaves_nothing :
  let r := create (deps := sampleDeps) notificationDto failingCreateWorld in
  fst r = Throw (InternalServerErrorException (ExternalError "disk full"))
  /\ submissions (snd r) = [] /\ storedParts (snd r) = []
  /\ events (snd r) = [Emitted REMOVED ["new0"]].
Proof. repeat split. Qed.

(** Duplicating [o]: the save and the first part succeed, the second part
    fails; the duplicate and the part already copied are removed. *)
Example failed_duplicate_leaves_nothing :
  let r := duplicate (deps := sampleDeps) "o"
             (withFaultScript [NoFault; NoFault; FailBefore (ExternalError "disk full")]
                postedWorld) in
  fst r = Throw (InternalServerErrorException (ExternalError "disk full"))
  /\ submissions (snd r) = submissions postedWorld
  /\ storedParts (snd r) = storedParts postedWorld.
Proof. repeat split. Qed.

(** Duplicating [o] when the save itself fails: the deletion finds no record
    and throws in its turn. *)
Example failed_duplicate_save :
  let r := duplicate (deps := sampleDeps) "o"
             (withFaultScript [FailBefore (ExternalError "disk full")] postedWorld) in
  fst r = Throw (NotFoundException "Submission new0 could not be found")
  /\ submissions (snd r) = submissions postedWorld
  /\ storedParts (snd r) = storedParts postedWorld.
Proof. repeat split. Qed.

(** *** What the other operations do *)

Section Operations.

Context {deps : Collaborators}.

(** X13.  [dryValidate] with no parts answers the empty problems without
    looking the submission up, so not even an unknown identifier is an error;
    with parts, an unknown identifier is a [NotFoundException] and a known one
    gives what the validator says of these parts.  Nothing is written in any
    case. *)
Theorem dryValidate_looks_up_only_with_parts :
  (forall ref w, dryValidate ref [] w = (Ok [], w))
  /\ (forall id p ps w,
        find (hasId id) (submissions w) = None ->
        dryValidate (ById id) (p :: ps) w = (Throw (notFound id), w))
  /\ (forall id s0 p ps w,
        find (hasId id) (submissions w) = Some s0 ->
        dryValidate (ById id) (p :: ps) w
        = (Ok (validateParts (flagged w s0) (p :: ps)), w))
  /\ (forall s p ps w,
        dryValidate (ByEntity s) (p :: ps) w = (Ok (validateParts s (p :: ps)), w)).
Proof.
  split; [reflexivity|]. split; [|split].
  - intros id p ps w Hf. unfold dryValidate, bind. rewrite (get_missing id w Hf). reflexivity.
  - intros id s0 p ps w Hf. unfold dryValidate, bind. rewrite (get_found id s0 w Hf).
    reflexivity.
  - reflexivity.
Qed.

(** X14.  Scheduling needs a time.  The time that counts is the [postAt]
    argument when it is given and not [0], the stored [postAt] otherwise.
    Where that time is missing or [0], [scheduleSubmission] throws a
    [BadRequestException] and writes nothing.  Otherwise the stored record
    takes the flag and that time, the parts and the queue are left alone, and
    one update is announced. *)
Theorem scheduleSubmission_needs_postAt (id : string) (s0 : SubmissionEntity) (w : World)
  (scheduled : bool) (at_ : option Z) :
  find (hasId id) (submissions w) = Some s0 ->
  let effective := if falsyNumber at_ then postAt (schedule s0) else at_ in
  let r := scheduleSubmission (ById id) scheduled at_ w in
  (falsyNumber effective = true ->
     r = (Throw (BadRequestException
                   "Submission cannot be scheduled because it does not have a postAt value"),
          w))
  /\ (falsyNumber effective = false ->
        fst r = Ok tt
        /\ submissions (snd r)
           = map (fun x => if hasId id x
                           then persisted (setSchedule {| isScheduled := scheduled;
                                                          postAt := effective |} s0)
                           else x)
               (submissions w)
        /\ storedParts (snd r) = storedParts w
        /\ queued (snd r) = queued w
        /\ events (snd r) = events w ++ [Validated id; Emitted UPDATED [id]]).
Proof.
  intros Hf. destruct (find_hasId_Some _ _ _ Hf) as [_ Hid]. cbv zeta.
  unfold scheduleSubmission, bind. rewrite (get_found id s0 w Hf).
  change (schedule (flagged w s0)) with (schedule s0).
  destruct (falsyNumber at_) eqn:Ha.
  - destruct (falsyNumber (postAt (schedule s0))) eqn:Hs.
    + split; [reflexivity | discriminate].
    + split; [discriminate|]. intros _.
      cbv [repositoryUpdate modify emitOnComplete detached bind emit ret].
      rewrite validate_entity. cbn [fst snd]. rewrite addEvents_addEvents.
      change (_id (setSchedule _ (flagged w s0))) with (_id s0). rewrite Hid.
      repeat split.
      cbn [events addEvents withEvents withSubmissions packageOf submission setSchedule
           flagged setFlags _id app].
      rewrite Hid. reflexivity.
  - change (postAt (setPostAtField at_ (schedule s0))) with at_. rewrite Ha.
    split; [discriminate|]. intros _.
    cbv [repositoryUpdate modify emitOnComplete detached bind emit ret].
    rewrite validate_entity. cbn [fst snd]. rewrite addEvents_addEvents.
    change (_id (setSchedule _ (flagged w s0))) with (_id s0). rewrite Hid.
    repeat split.
    cbn [events addEvents withEvents withSubmissions packageOf submission setSchedule
         flagged setFlags _id app].
    rewrite Hid. reflexivity.
Qed.

Lemma keepsSubmissions_modifyParts
  (f : list SubmissionPartEntity -> list SubmissionPartEntity) :
  keepsSubmissions (modify (withParts f)).
Proof. intros w. reflexivity. Qed.

Lemma keepsSubmissions_setPart (s : SubmissionEntity) (p : SubmissionPartEntity) :
  keepsSubmissions (setPart s p).
Proof.
  unfold setPart. apply keepsSubmissions_bind; [intros w; reflexivity|].
  intros existing. apply keepsSubmissions_write.
Qed.

Lemma keepsSubmissions_packaged (s : SubmissionEntity) :
  keepsSubmissions (packaged <- validate (ByEntity s) ;;
                    emit UPDATED [_id (submission packaged)] ;;;
                    ret packaged).
Proof.
  apply keepsSubmissions_bind; [apply keepsSubmissions_validate|].
  intros pk. apply keepsSubmissions_bind; intros; intros w; reflexivity.
Qed.

(** X15.  Taking the time away.  On a submission that is not being posted,
    [setPostAt] writes the time it is given and leaves [isScheduled] as it is,
    while [updateSubmission] also clears [isScheduled] when the time it is
    given is missing or [0].  So a scheduled submission whose time is removed
    with [setPostAt] stays scheduled, and no tick promotes it. *)
Theorem setPostAt_keeps_isScheduled (id : string) (s0 : SubmissionEntity) (w : World) :
  find (hasId id) (submissions w) = Some s0 ->
  isCurrentlyPosting s0 w = false ->
  (forall at_,
     fst (setPostAt (ById id) at_ w) = Ok tt
     /\ submissions (snd (setPostAt (ById id) at_ w))
        = map (fun x => if hasId id x
                        then persisted
                               (setSchedule {| isScheduled := isScheduled (schedule s0);
                                               postAt := at_ |} s0)
                        else x)
            (submissions w))
  /\ (forall u, update_id u = id ->
        submissions (snd (updateSubmission u w))
        = map (fun x => if hasId id x
                        then persisted
                               (setSchedule
                                  {| isScheduled := if falsyNumber (update_postAt u) then false
                                                    else isScheduled (schedule s0);
                                     postAt := update_postAt u |} s0)
                        else x)
            (submissions w))
  /\ (forall now w' x,
        In x (submissions (snd (setPostAt (ById id) None w))) -> _id x = id ->
        isScheduled (schedule x) = isScheduled (schedule s0)
        /\ postAt (schedule x) = None
        /\ isDue now w' x = false).
Proof.
  intros Hf Hp. destruct (find_hasId_Some _ _ _ Hf) as [_ Hid].
  assert (Hset : forall at_,
    setPostAt (ById id) at_ w
    = (Ok tt,
       addEvents [Validated id; Emitted UPDATED [id]]
         (withSubmissions
            (map (fun x => if hasId id x
                           then persisted
                                  (setSchedule {| isScheduled := isScheduled (schedule s0);
                                                  postAt := at_ |} s0)
                           else x)) w))).
  { intros at_. unfold setPostAt, bind. rewrite (get_found id s0 w Hf).
    change (isPosting (flagged w s0)) with (isCurrentlyPosting s0 w). rewrite Hp.
    cbv [repositoryUpdate modify emitOnComplete detached bind emit ret].
    rewrite validate_entity. cbn [fst snd]. rewrite addEvents_addEvents.
    change (_id (setSchedule _ (flagged w s0))) with (_id s0). rewrite Hid.
    cbn [packageOf submission setSchedule flagged setFlags _id app].
    rewrite Hid. reflexivity. }
  split; [|split].
  - intros at_. rewrite Hset. split; reflexivity.
  - intros u Hu. unfold updateSubmission, bind at 1. rewrite Hu, (get_found id s0 w Hf).
    change (isPosting (flagged w s0)) with (isCurrentlyPosting s0 w). rewrite Hp.
    cbv zeta. unfold bind at 1. unfold repositoryUpdate at 1, modify at 1.
    match goal with
    | |- submissions (snd (bind ?m ?k ?w1)) = _ =>
        assert (Hk : keepsSubmissions (bind m k))
    end.
    { apply keepsSubmissions_bind.
      - apply keepsSubmissions_promiseAll. intros a w0. reflexivity.
      - intros _. apply keepsSubmissions_bind.
        + apply keepsSubmissions_promiseAll. intros a. apply keepsSubmissions_setPart.
        + intros _. apply keepsSubmissions_packaged. }
    rewrite Hk. cbn [submissions withSubmissions].
    change (_id (setSchedule _ (flagged w s0))) with (_id s0). rewrite Hid.
    apply map_ext. intros x. destruct (hasId id x); [|reflexivity].
    destruct (falsyNumber (update_postAt u)); reflexivity.
  - intros now w' x Hin Hx. rewrite Hset in Hin.
    cbn [snd submissions addEvents withEvents withSubmissions] in Hin.
    apply in_map_iff in Hin. destruct Hin as [x0 [Hx0 _]].
    destruct (hasId id x0) eqn:Hh.
    + subst x. split; [reflexivity|]. split; [reflexivity|].
      unfold isDue. cbn [postAt schedule persisted setFlags setSchedule].
      rewrite andb_false_r. reflexivity.
    + subst x0. unfold hasId in Hh. rewrite Hx, String.eqb_refl in Hh. discriminate Hh.
Qed.

(** X16.  [verifyAll] and [postingStateChanged] do the same thing and never
    throw: every stored submission is validated, in the order of the
    repository, and one update is announced that carries them all; nothing
    else changes. *)
Theorem verifyAll_announces_every_submission (w : World) :
  let ids := map _id (submissions w) in
  verifyAll w = (Ok tt, addEvents (map Validated ids ++ [Emitted UPDATED ids]) w)
  /\ postingStateChanged w = verifyAll w.
Proof.
  cbv zeta. split; [|reflexivity].
  unfold verifyAll, emitOnComplete, detached, bind.
  rewrite getAllAndValidate_run. cbv [ret emit modify]. cbn [snd].
  rewrite addEvents_addEvents. unfold packageIds. rewrite !map_map. reflexivity.
Qed.

(** X17.  [getFallbackText] writes nothing and fails only on an unknown
    identifier: a known submission gives the content of its fallback file,
    and the empty text when it has no fallback file or the file cannot be
    read. *)
Theorem getFallbackText_defaults_to_empty (id : string) (w : World) :
  snd (getFallbackText id w) = w
  /\ (find (hasId id) (submissions w) = None ->
      fst (getFallbackText id w) = Throw (notFound id))
  /\ (forall s0, find (hasId id) (submissions w) = Some s0 ->
        exists text,
          fst (getFallbackText id w) = Ok text
          /\ (fallback s0 = None -> text = "")
          /\ (forall f e, fallback s0 = Some f -> readFile (location f) = Throw e ->
                text = "")
          /\ (forall f content, fallback s0 = Some f ->
                readFile (location f) = Ok content -> text = content)).
Proof.
  unfold getFallbackText, bind.
  destruct (find (hasId id) (submissions w)) as [s0|] eqn:Hf.
  - rewrite (get_found id s0 w Hf). change (fallback (flagged w s0)) with (fallback s0).
    destruct (fallback s0) as [f|] eqn:Hfb.
    + destruct (readFile (location f)) as [content|e] eqn:Hr.
      * split; [reflexivity|]. split; [discriminate|].
        intros s1 Hs1. inversion Hs1; subst s1. exists content.
        split; [reflexivity|]. rewrite Hfb. split; [discriminate|]. split.
        -- intros f' e Hf' He. inversion Hf'; subst f'. rewrite Hr in He. discriminate He.
        -- intros f' c Hf' Hc. inversion Hf'; subst f'. rewrite Hr in Hc.
           inversion Hc. reflexivity.
      * split; [reflexivity|]. split; [discriminate|].
        intros s1 Hs1. inversion Hs1; subst s1. exists "".
        split; [reflexivity|]. rewrite Hfb. split; [reflexivity|]. split.
        -- reflexivity.
        -- intros f' c Hf' Hc. inversion Hf'; subst f'. rewrite Hr in Hc. discriminate Hc.
    + split; [reflexivity|]. split; [discriminate|].
      intros s1 Hs1. inversion Hs1; subst s1. exists "".
      split; [reflexivity|]. rewrite Hfb. split; [reflexivity|].
      split; intros f' ? Hf'; discriminate Hf'.
  - rewrite (get_missing id w Hf). split; [reflexivity|]. split; [reflexivity|].
    intros s0 H. discriminate H.
Qed.

(** X18.  [deleteSubmission] by identifier.  An unknown identifier is a
    [NotFoundException] and nothing changes.  For a file submission whose
    files cannot be cleaned up, the error is thrown after the post was
    cancelled and before any record is removed: the submission and its parts
    stay.  Otherwise the submission and all its parts are removed, every other
    submission and part stays in place, the removal is announced, and the
    submission is taken off the queue unless [skipCancel] is set, in which
    case the post service is not touched. *)
Theorem deleteSubmission_removes_submission_and_parts
  (id : string) (skipCancel : bool) (w : World) :
  (find (hasId id) (submissions w) = None ->
   deleteSubmission (ById id) skipCancel w = (Throw (notFound id), w))
  /\ (forall s0 e,
        find (hasId id) (submissions w) = Some s0 ->
        type s0 = FILE -> cleanupSubmission (flagged w s0) = Throw e ->
        fst (deleteSubmission (ById id) skipCancel w) = Throw e
        /\ untouched w (snd (deleteSubmission (ById id) skipCancel w)))
  /\ (forall s0,
        find (hasId id) (submissions w) = Some s0 ->
        type s0 = NOTIFICATION \/ cleanupSubmission (flagged w s0) = Ok tt ->
        let w' := snd (deleteSubmission (ById id) skipCancel w) in
        fst (deleteSubmission (ById id) skipCancel w)
        = Ok (length (filter (hasId id) (submissions w)))
        /\ submissions w' = filter (fun x => negb (hasId id x)) (submissions w)
        /\ storedParts w' = filter (fun p => negb (ofSubmission id p)) (storedParts w)
        /\ absent id w'
        /\ events w' = events w ++ [Emitted REMOVED [id]]
        /\ (skipCancel = false -> ~ In id (queued w'))
        /\ (skipCancel = true -> queued w' = queued w /\ cancelled w' = cancelled w)).
Proof.
  split; [|split].
  - intros Hf. unfold deleteSubmission, bind. rewrite (get_missing id w Hf). reflexivity.
  - intros s0 e Hf Ht He. unfold deleteSubmission, bind. rewrite (get_found id s0 w Hf).
    change (type (flagged w s0)) with (type s0). rewrite Ht. unfold lift. rewrite He.
    destruct skipCancel; cbv [ret cancel]; cbn [fst snd].
    + split; [reflexivity | split; reflexivity].
    + destruct (isCurrentlyPosting (flagged w s0) w);
        (split; [reflexivity | split; reflexivity]).
  - intros s0 Hf Hc. cbv zeta. destruct (find_hasId_Some _ _ _ Hf) as [_ Hid].
    rewrite (deleteSubmission_found id s0 skipCancel w Hf Hc). cbn [fst snd].
    rewrite Hid.
    pose proof (deletedWorld_absent (flagged w s0) skipCancel w) as Habs.
    unfold deletedWorld in Habs.
    change (_id (flagged w s0)) with (_id s0) in Habs. rewrite Hid in Habs.
    unfold deletedWorld. change (_id (flagged w s0)) with (_id s0). rewrite Hid.
    split; [reflexivity|]. split.
    { destruct skipCancel; [reflexivity|]. unfold cancel. cbn [snd].
      destruct (isCurrentlyPosting (flagged w s0) w); reflexivity. }
    split.
    { destruct skipCancel; [reflexivity|]. unfold cancel. cbn [snd].
      destruct (isCurrentlyPosting (flagged w s0) w); reflexivity. }
    split; [exact Habs|]. split.
    { destruct skipCancel; [reflexivity|]. unfold cancel. cbn [snd].
      destruct (isCurrentlyPosting (flagged w s0) w); reflexivity. }
    split.
    + intros ->. unfold cancel. cbn [snd].
      change (_id (flagged w s0)) with (_id s0). rewrite Hid.
      assert (Hq : forall q, ~ In id (filter (fun id' => negb (String.eqb id id')) q)).
      { intros q Hin. apply filter_In in Hin. destruct Hin as [_ Hn].
        rewrite String.eqb_refl in Hn. discriminate Hn. }
      destruct (isCurrentlyPosting (flagged w s0) w); apply Hq.
    + intros ->. split; reflexivity.
Qed.

(** **** Runs without faults *)

Lemma fallible_calm {A} (m : M World A) (w : World) :
  faults w = [] -> fallible m w = m w.
Proof.
  intros H. unfold fallible, bind, nextFault. rewrite H. reflexivity.
Qed.

Lemma repositorySave_calm (s : SubmissionEntity) (w : World) :
  faults w = [] ->
  repositorySave s w = (Ok s, withSubmissions (fun l => l ++ [persisted s]) w).
Proof. intros H. unfold repositorySave. rewrite (fallible_calm _ w H). reflexivity. Qed.

Lemma createOrUpdateSubmissionPart_calm (part : SubmissionPartEntity) (t : SubmissionType)
  (w : World) :
  faults w = [] ->
  createOrUpdateSubmissionPart part t w = (Ok part, withParts (upsertPart part) w).
Proof.
  intros H. unfold createOrUpdateSubmissionPart. rewrite (fallible_calm _ w H). reflexivity.
Qed.

Lemma createDefaultPart_calm (s : SubmissionEntity) (w : World) :
  faults w = [] ->
  createDefaultPart s w = (Ok tt, withParts (upsertPart (defaultPartOf s)) w).
Proof. intros H. unfold createDefaultPart. rewrite (fallible_calm _ w H). reflexivity. Qed.

Lemma promiseAll_write_calm (t : SubmissionType) (ps : list SubmissionPartEntity) :
  forall w, faults w = [] ->
    promiseAll (fun p => createOrUpdateSubmissionPart p t) ps w
    = (Ok ps, withParts (upsertAll ps) w).
Proof.
  induction ps as [|p ps IH]; intros w H.
  - destruct w; reflexivity.
  - cbn [promiseAll]. rewrite (createOrUpdateSubmissionPart_calm p t w H).
    rewrite IH by exact H. reflexivity.
Qed.

(** What a write of a part that returns has done. *)
Lemma createOrUpdateSubmissionPart_ok (part r : SubmissionPartEntity) (t : SubmissionType)
  (w w' : World) :
  createOrUpdateSubmissionPart part t w = (Ok r, w') ->
  r = part /\ storedParts w' = upsertPart part (storedParts w).
Proof.
  unfold createOrUpdateSubmissionPart, fallible, bind, nextFault.
  destruct (faults w) as [|f fs]; [|destruct f]; cbv [modify ret throw bind];
    intros H; inversion H; subst; split; reflexivity.
Qed.

Lemma samePart_true (sid aid : string) (p : SubmissionPartEntity) :
  samePart sid aid p = true <-> submissionId p = sid /\ accountId p = aid.
Proof.
  unfold samePart. rewrite andb_true_iff, !String.eqb_eq. split; intros [H1 H2]; auto.
Qed.

Lemma upsertPart_present (part : SubmissionPartEntity) (l : list SubmissionPartEntity) :
  existsb (samePart (submissionId part) (accountId part)) l = true ->
  length (upsertPart part l) = length l /\ In part (upsertPart part l).
Proof.
  intros H. unfold upsertPart. rewrite H. split; [apply length_map|].
  apply existsb_exists in H. destruct H as [x [Hin Hx]].
  apply in_map_iff. exists x. rewrite Hx. split; [reflexivity | exact Hin].
Qed.

Lemma upsertPart_absent (part : SubmissionPartEntity) (l : list SubmissionPartEntity) :
  existsb (samePart (submissionId part) (accountId part)) l = false ->
  upsertPart part l = l ++ [part].
Proof. intros H. unfold upsertPart. rewrite H. reflexivity. Qed.

(** X19.  [setPart] on an account the submission already has a part for
    changes the data of that part and nothing else: the website, the default
    flag, the status and the posting target stay as they are stored, whatever
    the caller sends for them, and no part is added.  On an account the
    submission has no part for, the part is added as it is sent, for this
    submission. *)
Theorem setPart_changes_only_data (s : SubmissionEntity) (submissionPart : SubmissionPartEntity)
  (w w' : World) (r : SubmissionPartEntity) :
  setPart s submissionPart w = (Ok r, w') ->
  (forall existing,
      find (samePart (_id s) (accountId submissionPart)) (storedParts w) = Some existing ->
      r = setData (data submissionPart) existing
      /\ website r = website existing /\ isDefault r = isDefault existing
      /\ postStatus r = postStatus existing /\ postedTo r = postedTo existing
      /\ submissionId r = _id s /\ accountId r = accountId submissionPart
      /\ length (storedParts w') = length (storedParts w)
      /\ In r (storedParts w'))
  /\ (find (samePart (_id s) (accountId submissionPart)) (storedParts w) = None ->
      r = newPartFor s submissionPart
      /\ storedParts w' = storedParts w ++ [r]).
Proof.
  intros Hrun. unfold setPart, bind, getSubmissionPart, gets in Hrun.
  destruct (find (samePart (_id s) (accountId submissionPart)) (storedParts w))
    as [existing|] eqn:Hf.
  - apply createOrUpdateSubmissionPart_ok in Hrun. destruct Hrun as [-> Hparts].
    split; [|discriminate]. intros ex Hex. inversion Hex; subst ex.
    pose proof (find_some _ _ Hf) as [Hin Hsame].
    apply samePart_true in Hsame. destruct Hsame as [Hsid Haid].
    split; [reflexivity|]. cbn [setData website isDefault postStatus postedTo submissionId
                                accountId].
    repeat (split; [first [reflexivity | assumption]|]).
    rewrite Hparts.
    apply upsertPart_present. cbn [setData submissionId accountId].
    apply existsb_exists. exists existing. split; [exact Hin|].
    apply samePart_true. split; reflexivity.
  - apply createOrUpdateSubmissionPart_ok in Hrun. destruct Hrun as [-> Hparts].
    split; [intros ex Hex; discriminate Hex|]. intros _.
    split; [reflexivity|]. rewrite Hparts. apply upsertPart_absent.
    cbn [submissionId accountId].
    destruct (existsb (samePart (_id s) (accountId submissionPart)) (storedParts w)) eqn:He;
      [|reflexivity].
    apply existsb_exists in He. destruct He as [x [Hin Hx]].
    pose proof (find_none _ _ Hf x Hin) as Hn. rewrite Hx in Hn. discriminate Hn.
Qed.

(** **** The map of parts by account *)

Lemma mapByAccount_step_keys (p : SubmissionPartEntity)
  (acc : list (string * SubmissionPartEntity)) :
  map fst (map (fun kv : string * SubmissionPartEntity =>
                  if String.eqb (accountId p) (fst kv) then (fst kv, p) else kv) acc)
  = map fst acc.
Proof.
  rewrite map_map. apply map_ext. intros kv.
  destruct (String.eqb (accountId p) (fst kv)); reflexivity.
Qed.

Lemma existsb_key_In (a : string) (acc : list (string * SubmissionPartEntity)) :
  existsb (fun kv => String.eqb a (fst kv)) acc = true <-> In a (map fst acc).
Proof.
  rewrite existsb_exists, in_map_iff. split.
  - intros [kv [Hin He]]. apply String.eqb_eq in He. exists kv. split; [symmetry|]; assumption.
  - intros [kv [He Hin]]. exists kv. split; [exact Hin|]. rewrite He. apply String.eqb_refl.
Qed.

Lemma mapByAccount_invariant (ps : list SubmissionPartEntity) :
  forall (seen : list SubmissionPartEntity) (acc : list (string * SubmissionPartEntity)),
    NoDup (map fst acc) ->
    (forall a, In a (map fst acc) <-> In a (map accountId seen)) ->
    (forall a p, In (a, p) acc -> accountId p = a /\ lastForAccount seen p) ->
    NoDup (map fst (mapByAccount ps acc))
    /\ (forall a, In a (map fst (mapByAccount ps acc)) <-> In a (map accountId (seen ++ ps)))
    /\ (forall a p, In (a, p) (mapByAccount ps acc) ->
          accountId p = a /\ lastForAccount (seen ++ ps) p).
Proof.
  induction ps as [|p ps IH]; intros seen acc Hnd Hkeys Hlast.
  - cbn [mapByAccount]. rewrite app_nil_r. split; [exact Hnd|]. split; assumption.
  - cbn [mapByAccount].
    replace (seen ++ p :: ps) with ((seen ++ [p]) ++ ps)
      by (rewrite <- app_assoc; reflexivity).
    destruct (existsb (fun kv => String.eqb (accountId p) (fst kv)) acc) eqn:He.
    + apply IH.
      * rewrite mapByAccount_step_keys. exact Hnd.
      * intros a. rewrite mapByAccount_step_keys, map_app, in_app_iff, Hkeys.
        cbn [map In]. split; [tauto|]. intros [H|[<-|[]]]; [exact H|].
        apply Hkeys. apply existsb_key_In. exact He.
      * intros a q Hin. apply in_map_iff in Hin. destruct Hin as [kv [Hkv Hin]].
        destruct (String.eqb (accountId p) (fst kv)) eqn:Ek.
        -- inversion Hkv; subst. apply String.eqb_eq in Ek.
           split; [exact Ek|]. exists seen, []. split; [reflexivity|]. intros x [].
        -- subst kv. destruct (Hlast a q Hin) as [Ha [before [after [Hs Hafter]]]].
           split; [exact Ha|]. exists before, (after ++ [p]). split.
           ++ rewrite Hs, <- app_assoc. reflexivity.
           ++ intros x Hx. apply in_app_iff in Hx. destruct Hx as [Hx|[<-|[]]].
              ** apply Hafter. exact Hx.
              ** cbn [fst] in Ek. apply String.eqb_neq in Ek. rewrite Ha. exact Ek.
    + assert (Hfresh : ~ In (accountId p) (map fst acc)).
      { intros Hin. apply existsb_key_In in Hin. rewrite Hin in He. discriminate He. }
      apply IH.
      * rewrite map_app. cbn [map fst].
        apply NoDup_app; [exact Hnd | constructor; [intros [] | constructor] |].
        intros a Ha [<-|[]]. contradiction.
      * intros a. rewrite !map_app, !in_app_iff, Hkeys. cbn [map fst In]. tauto.
      * intros a q Hin. apply in_app_iff in Hin. destruct Hin as [Hin|[Hin|[]]].
        -- destruct (Hlast a q Hin) as [Ha [before [after [Hs Hafter]]]].
           split; [exact Ha|]. exists before, (after ++ [p]). split.
           ++ rewrite Hs, <- app_assoc. reflexivity.
           ++ intros x Hx. apply in_app_iff in Hx. destruct Hx as [Hx|[<-|[]]].
              ** apply Hafter. exact Hx.
              ** intros Heq. apply Hfresh. rewrite Heq, Ha.
                 apply in_map_iff. exists (a, q). split; [reflexivity | exact Hin].
        -- inversion Hin; subst. split; [reflexivity|].
           exists seen, []. split; [reflexivity|]. intros x [].
Qed.

(** X20.  The parts of a validated package are keyed by account: the map
    [validate] builds holds every account of the parts it read exactly once,
    and the part under an account is the last of the parts read for that
    account; an earlier part for the same account is not in the package. *)
Theorem parts_map_has_one_entry_per_account (ps : list SubmissionPartEntity) :
  NoDup (map fst (mapByAccount ps []))
  /\ (forall a, In a (map fst (mapByAccount ps [])) <-> In a (map accountId ps))
  /\ (forall a p, In (a, p) (mapByAccount ps []) -> accountId p = a /\ lastForAccount ps p)
  /\ (forall (s : SubmissionEntity) (w : World),
        parts (packageOf w s) = mapByAccount (partsToValidate (_id s) w) []
        /\ fst (validate (ByEntity s) w) = Ok (packageOf w s)).
Proof.
  destruct (mapByAccount_invariant ps [] [] (NoDup_nil _)) as [H1 [H2 H3]].
  - intros a. split; intros [].
  - intros a p [].
  - split; [exact H1|]. split; [exact H2|]. split; [exact H3|].
    intros s w. split; reflexivity.
Qed.

(** **** Ignored accounts of an additional file *)

Lemma updateRecordAt_first (loc : string) (accounts : list string) (rs : list FileRecord)
  (r0 : FileRecord) :
  find (fun r => String.eqb (location r) loc) rs = Some r0 ->
  exists before after,
    rs = before ++ r0 :: after
    /\ (forall x, In x before -> location x <> loc)
    /\ location r0 = loc
    /\ updateRecordAt loc accounts rs = before ++ setIgnoredAccounts accounts r0 :: after.
Proof.
  induction rs as [|r rs IH]; cbn [find updateRecordAt]; [discriminate|].
  destruct (String.eqb (location r) loc) eqn:E.
  - intros H. inversion H; subst r0. apply String.eqb_eq in E.
    exists [], rs. split; [reflexivity|]. split; [intros x []|]. split; [exact E | reflexivity].
  - intros H. destruct (IH H) as [before [after [Hrs [Hb [Hl Hu]]]]].
    exists (r :: before), after. split; [rewrite Hrs; reflexivity|]. split.
    + intros x [<-|Hx]; [apply String.eqb_neq; exact E | apply Hb; exact Hx].
    + split; [exact Hl|]. rewrite Hu. reflexivity.
Qed.

(** X21.  [updateFileSubmissionAdditionalFile] on a submission that is not
    being posted.  Where no additional file is at the location of the record,
    nothing is written and nothing is announced.  Otherwise the first
    additional file at that location takes the ignored accounts of the
    record; its other fields, the other additional files and their order stay
    as they are; the submission is written and one update is announced. *)
Theorem updateFileSubmissionAdditionalFile_sets_first_match
  (id : string) (s0 : SubmissionEntity) (record : FileRecord) (w : World) :
  find (hasId id) (submissions w) = Some s0 ->
  isCurrentlyPosting s0 w = false ->
  let r := updateFileSubmissionAdditionalFile id record w in
  (find (fun x => String.eqb (location x) (location record)) (additional s0) = None ->
   r = (Ok tt, w))
  /\ (forall r0,
        find (fun x => String.eqb (location x) (location record)) (additional s0) = Some r0 ->
        exists before after,
          additional s0 = before ++ r0 :: after
          /\ (forall x, In x before -> location x <> location record)
          /\ fst r = Ok tt
          /\ submissions (snd r)
             = map (fun x =>
                      if hasId id x
                      then persisted
                             (setAdditional
                                (before ++ setIgnoredAccounts (ignoredAccounts record) r0
                                        :: after) s0)
                      else x)
                 (submissions w)
          /\ storedParts (snd r) = storedParts w
          /\ events (snd r) = events w ++ [Validated id; Emitted UPDATED [id]]).
Proof.
  intros Hf Hp. cbv zeta. destruct (find_hasId_Some _ _ _ Hf) as [_ Hid].
  unfold updateFileSubmissionAdditionalFile, bind. rewrite (get_found id s0 w Hf).
  change (isPosting (flagged w s0)) with (isCurrentlyPosting s0 w). rewrite Hp.
  change (additional (flagged w s0)) with (additional s0).
  destruct (find (fun x => String.eqb (location x) (location record)) (additional s0))
    as [r1|] eqn:Hfind.
  - split; [discriminate|]. intros r0 Hr0. inversion Hr0; subst r1.
    destruct (updateRecordAt_first (location record) (ignoredAccounts record) _ _ Hfind)
      as [before [after [Hadd [Hb [_ Hu]]]]].
    exists before, after. split; [exact Hadd|]. split; [exact Hb|].
    rewrite Hu.
    cbv [detached repositoryUpdate modify emitOnComplete bind emit ret].
    rewrite validate_entity. cbn [fst snd]. rewrite addEvents_addEvents.
    cbn [packageOf submission setAdditional flagged setFlags _id app].
    rewrite Hid. repeat split.
  - split; [reflexivity|]. intros r0 H. discriminate H.
Qed.

(** **** A submission that is created *)

Lemma newSubmission_world (createDto : SubmissionCreate) (w w1 : World)
  (c : SubmissionEntity) :
  newSubmission createDto w = (Ok c, w1) -> w1 = withIdSupply S w.
Proof.
  unfold newSubmission.
  destruct (create_type createDto) as [t|raw|raw]; [|discriminate|discriminate].
  cbv [bind repositoryCount gets freshId]. cbv zeta.
  destruct t; [unfold lift|unfold ret]; intros H; inversion H; reflexivity.
Qed.

(** X22.  [create].  A type the lookup [SubmissionType[type]] does not find
    is a [BadRequestException] and nothing is written, not even an identifier
    is taken.  A type the lookup finds without it being a submission type (an
    inherited key such as [constructor]) passes the guard: no submission is
    completed, nothing is stored, and the run ends in the
    [NotFoundException] of the clean-up.  A notification is built with a fresh
    identifier, the title of the request, no schedule, and as order the number
    of submissions stored.  When no write fails, the submission that was built
    is appended to the stored submissions, its default part is written, it is
    validated and its creation is announced. *)
Theorem create_stores_submission_and_default_part (createDto : SubmissionCreate) (w : World) :
  (forall raw, create_type createDto = UnknownType raw ->
     create createDto w
     = (Throw (BadRequestException ("Unknown submission type: " ++ raw)), w))
  /\ (forall raw, create_type createDto = InheritedKey raw ->
        create createDto w
        = (Throw (NotFoundException "Submission null could not be found"),
           withIdSupply S w))
  /\ (create_type createDto = KnownType NOTIFICATION ->
      newSubmission createDto w
      = (Ok (blankSubmission createDto NOTIFICATION w), withIdSupply S w))
  /\ (forall c w1,
        newSubmission createDto w = (Ok c, w1) ->
        faults w = [] ->
        let w' := snd (create createDto w) in
        fst (create createDto w) = Ok c
        /\ submissions w' = submissions w ++ [persisted c]
        /\ storedParts w' = upsertPart (defaultPartOf c) (storedParts w)
        /\ events w' = events w ++ [Validated (_id c); Emitted CREATED [_id c]]
        /\ idSupply w' = S (idSupply w)).
Proof.
  split; [|split; [|split]].
  - intros raw Hraw. unfold create, newSubmission, bind. rewrite Hraw. reflexivity.
  - intros raw Hraw. unfold create, newSubmission, bind. rewrite Hraw. reflexivity.
  - intros Ht. unfold newSubmission. rewrite Ht. reflexivity.
  - intros c w1 Hn Hcalm. cbv zeta.
    pose proof (newSubmission_world createDto w w1 c Hn) as ->.
    assert (Hrun : create createDto w
                   = (Ok c,
                      addEvents [Validated (_id c); Emitted CREATED [_id c]]
                        (withParts (upsertPart (defaultPartOf c))
                           (withSubmissions (fun l => l ++ [persisted c])
                              (withIdSupply S w))))).
    { unfold create, bind. rewrite Hn. unfold tryCatch, storeNew, bind.
      rewrite repositorySave_calm by exact Hcalm.
      rewrite createDefaultPart_calm by exact Hcalm.
      cbv [emitOnComplete detached bind emit modify ret].
      rewrite validate_entity. cbn [fst snd]. rewrite addEvents_addEvents. reflexivity. }
    rewrite Hrun. repeat split.
Qed.

(** **** Ticks, one after the other *)

Lemma filter_none {A} (f : A -> bool) (l : list A) :
  (forall x, In x l -> f x = false) -> filter f l = [].
Proof.
  induction l as [|x l IH]; intros H; [reflexivity|].
  cbn [filter]. rewrite (H x (or_introl eq_refl)). apply IH.
  intros y Hy. apply H. right. exact Hy.
Qed.

Lemma isDue_after_tick (now : Z) (w : World) (s : SubmissionEntity) :
  NoDup (map _id (submissions w)) ->
  In s (submissions w) ->
  isDue now (tickWorld now w) (unscheduleIf (unschedulable now w) s) = false.
Proof.
  intros Hnd Hin.
  destruct (tickWorld_frame now w) as [_ [Hpost _]].
  pose proof (tickWorld_queued now w Hnd) as Hq.
  unfold isDue, isCurrentlyPosting, isCurrentlyQueued.
  rewrite Hpost, Hq, unscheduleIf_id.
  destruct (isDue now w s) eqn:Hdue.
  - assert (H : existsb (String.eqb (_id s)) (queued w ++ dueIds now w) = true).
    { apply existsb_eqb_In, in_or_app. right. apply (In_dueIds now w s Hnd Hin). exact Hdue. }
    rewrite H. cbn [negb]. apply andb_false_r.
  - unfold unscheduleIf, unschedulable. rewrite Hdue. cbn [andb].
    unfold isDue, isCurrentlyPosting, isCurrentlyQueued in Hdue.
    rewrite existsb_app.
    destruct (isScheduled (schedule s)); [|reflexivity].
    destruct (match postAt (schedule s) with Some t => Z.leb t now | None => false end);
      [|reflexivity].
    destruct (existsb (String.eqb (_id s)) (posting w)); [reflexivity|].
    destruct (existsb (String.eqb (_id s)) (queued w)); [reflexivity|].
    discriminate Hdue.
Qed.

Lemma dueIds_after_tick (now : Z) (w : World) :
  NoDup (map _id (submissions w)) -> dueIds now (tickWorld now w) = [].
Proof.
  intros Hnd. unfold dueIds, dueEntities.
  rewrite filter_none; [reflexivity|].
  intros x Hx. rewrite (tickWorld_submissions now w Hnd) in Hx.
  apply in_map_iff in Hx. destruct Hx as [s [<- Hs]].
  apply isDue_after_tick; assumption.
Qed.

(** X23.  For a repository with distinct identifiers, a tick that runs again
    at the same instant promotes nothing: after the first tick no stored
    submission is due, so the second tick leaves the queue, the submissions
    and the parts as the first left them. *)
Theorem second_tick_promotes_nothing (now : Z) (w : World) :
  NoDup (map _id (submissions w)) ->
  let w1 := snd (queueScheduledSubmissions now w) in
  let w2 := snd (queueScheduledSubmissions now w1) in
  dueIds now w1 = []
  /\ queued w2 = queued w1
  /\ submissions w2 = submissions w1
  /\ storedParts w2 = storedParts w1.
Proof.
  intros Hnd. cbv zeta. rewrite !queueScheduledSubmissions_run. cbn [snd].
  pose proof (dueIds_after_tick now w Hnd) as Hnone.
  split; [exact Hnone|].
  assert (Hidle : tickWorld now (tickWorld now w)
                  = addEvents (map (fun s => Validated (_id s))
                                 (submissions (tickWorld now w)))
                      (tickWorld now w)).
  { unfold tickWorld at 1. rewrite Hnone. reflexivity. }
  rewrite Hidle. repeat split.
Qed.

(** X24.  Scheduling and the tick together.  For a repository with distinct
    identifiers: a stored submission that is neither posting nor queued and is
    scheduled with a time other than [0] is handed to the queue by the first
    tick at or after that time, and is stored unscheduled, with its time kept,
    from then on. *)
Theorem scheduled_submission_is_promoted_when_due
  (id : string) (s0 : SubmissionEntity) (t now : Z) (w : World) :
  NoDup (map _id (submissions w)) ->
  find (hasId id) (submissions w) = Some s0 ->
  isCurrentlyPosting s0 w = false ->
  isCurrentlyQueued s0 w = false ->
  t <> 0%Z -> (t <= now)%Z ->
  let w1 := snd (scheduleSubmission (ById id) true (Some t) w) in
  let w2 := snd (queueScheduledSubmissions now w1) in
  In id (queued w2)
  /\ find (hasId id) (submissions w2)
     = Some (persisted (setSchedule {| isScheduled := false; postAt := Some t |} s0)).
Proof.
  intros Hnd Hf Hp Hq Ht Hnow. cbv zeta.
  destruct (find_hasId_Some _ _ _ Hf) as [Hin Hid].
  set (s1 := persisted (setSchedule {| isScheduled := true; postAt := Some t |} s0)).
  assert (Hfalse : falsyNumber (Some t) = false).
  { cbn [falsyNumber]. apply Z.eqb_neq. exact Ht. }
  assert (Hw1 : snd (scheduleSubmission (ById id) true (Some t) w)
                = addEvents [Validated id; Emitted UPDATED [id]]
                    (withSubmissions (map (fun x => if hasId id x then s1 else x)) w)).
  { unfold scheduleSubmission, bind. rewrite (get_found id s0 w Hf). rewrite Hfalse.
    change (postAt (setPostAtField (Some t) (schedule (flagged w s0)))) with (Some t).
    rewrite Hfalse.
    cbv [repositoryUpdate modify emitOnComplete detached bind emit ret].
    rewrite validate_entity. cbn [fst snd]. rewrite addEvents_addEvents.
    change (_id (setSchedule _ (flagged w s0))) with (_id s0).
    cbn [packageOf submission setSchedule flagged setFlags _id app].
    rewrite Hid. reflexivity. }
  rewrite Hw1. rewrite queueScheduledSubmissions_run. cbn [snd].
  set (w1 := addEvents [Validated id; Emitted UPDATED [id]]
               (withSubmissions (map (fun x => if hasId id x then s1 else x)) w)).
  assert (Hsub1 : submissions w1 = map (fun x => if hasId id x then s1 else x) (submissions w))
    by reflexivity.
  assert (Hids : map _id (submissions w1) = map _id (submissions w)).
  { rewrite Hsub1, map_map. apply map_ext. intros x.
    destruct (hasId id x) eqn:Hx; [|reflexivity].
    unfold hasId in Hx. apply String.eqb_eq in Hx. rewrite <- Hx. exact Hid. }
  assert (Hnd1 : NoDup (map _id (submissions w1))) by (rewrite Hids; exact Hnd).
  assert (Hin1 : In s1 (submissions w1)).
  { rewrite Hsub1. apply in_map_iff. exists s0. split; [|exact Hin].
    unfold hasId. rewrite Hid, String.eqb_refl. reflexivity. }
  assert (Hdue : isDue now w1 s1 = true).
  { unfold isDue, isCurrentlyPosting, isCurrentlyQueued.
    cbn [s1 persisted setFlags setSchedule schedule isScheduled postAt _id w1 addEvents
         withEvents withSubmissions posting queued].
    unfold isCurrentlyPosting in Hp. unfold isCurrentlyQueued in Hq. rewrite Hp, Hq.
    cbn [negb andb]. rewrite !andb_true_r. apply Z.leb_le. exact Hnow. }
  split.
  - rewrite (tickWorld_queued now w1 Hnd1). apply in_or_app. right.
    change id with (id) . rewrite <- Hid. change (_id s0) with (_id s1).
    apply (In_dueIds now w1 s1 Hnd1 Hin1). exact Hdue.
  - rewrite (tickWorld_submissions now w1 Hnd1).
    rewrite find_hasId_map by (intros x; apply unscheduleIf_id).
    assert (Hfind1 : find (hasId id) (submissions w1) = Some s1).
    { rewrite Hsub1. clear - Hf Hid. induction (submissions w) as [|x l IH];
        [discriminate Hf|]. cbn [find map] in *.
      destruct (hasId id x) eqn:Hx.
      - unfold hasId at 1. change (_id s1) with (_id s0). rewrite Hid, String.eqb_refl.
        reflexivity.
      - rewrite Hx. apply IH. exact Hf. }
    rewrite Hfind1. cbn [option_map]. unfold unscheduleIf, unschedulable.
    rewrite Hdue. change (postAt (schedule s1)) with (Some t). rewrite Hfalse.
    cbn [andb negb]. reflexivity.
Qed.

(** **** Parts written one after the other *)

Lemma promiseAll_writes_calm (t : SubmissionType)
  (g : SubmissionPartEntity -> SubmissionPartEntity) (ps : list SubmissionPartEntity) :
  forall w, faults w = [] ->
    promiseAll (fun p => createOrUpdateSubmissionPart (g p) t) ps w
    = (Ok (map g ps), withParts (upsertAll (map g ps)) w).
Proof.
  induction ps as [|p ps IH]; intros w H.
  - destruct w; reflexivity.
  - cbn [promiseAll map]. rewrite (createOrUpdateSubmissionPart_calm (g p) t w H).
    rewrite IH by exact H. reflexivity.
Qed.

Lemma In_upsertPart_self (part : SubmissionPartEntity) (l : list SubmissionPartEntity) :
  In part (upsertPart part l).
Proof.
  destruct (existsb (samePart (submissionId part) (accountId part)) l) eqn:He.
  - apply upsertPart_present. exact He.
  - rewrite (upsertPart_absent part l He). apply in_or_app. right. left. reflexivity.
Qed.

Lemma In_upsertPart_inv (part q : SubmissionPartEntity) (l : list SubmissionPartEntity) :
  In q (upsertPart part l) -> q = part \/ In q l.
Proof.
  unfold upsertPart.
  destruct (existsb (samePart (submissionId part) (accountId part)) l).
  - intros H. apply in_map_iff in H. destruct H as [x [Hx Hin]].
    destruct (samePart (submissionId part) (accountId part) x); [left | right]; congruence.
  - intros H. apply in_app_iff in H. destruct H as [H|[H|[]]]; [right | left]; congruence.
Qed.

Lemma hasPartFor_upsertPart (sid aid : string) (part : SubmissionPartEntity)
  (l : list SubmissionPartEntity) :
  hasPartFor sid aid l -> hasPartFor sid aid (upsertPart part l).
Proof.
  intros [q [Hin [Hs Ha]]].
  destruct (samePart (submissionId part) (accountId part) q) eqn:Hsame.
  - apply samePart_true in Hsame. destruct Hsame as [Hs' Ha'].
    exists part. split; [apply In_upsertPart_self|]. split; congruence.
  - exists q. split; [|split; assumption]. unfold upsertPart.
    destruct (existsb (samePart (submissionId part) (accountId part)) l).
    + apply in_map_iff. exists q. rewrite Hsame. split; [reflexivity | exact Hin].
    + apply in_or_app. left. exact Hin.
Qed.

Lemma hasPartFor_upsertAll (sid aid : string) (ps : list SubmissionPartEntity) :
  forall l, hasPartFor sid aid l -> hasPartFor sid aid (upsertAll ps l).
Proof.
  induction ps as [|p ps IH]; intros l H; [exact H|].
  cbn [upsertAll fold_left]. apply IH. apply hasPartFor_upsertPart. exact H.
Qed.

Lemma upsertAll_writes_each (ps : list SubmissionPartEntity) :
  forall l p, In p ps -> hasPartFor (submissionId p) (accountId p) (upsertAll ps l).
Proof.
  induction ps as [|a ps IH]; intros l p Hin; [destruct Hin|].
  cbn [upsertAll fold_left]. destruct Hin as [<-|Hin].
  - apply hasPartFor_upsertAll. exists a.
    split; [apply In_upsertPart_self | split; reflexivity].
  - apply IH. exact Hin.
Qed.

(** Copies for a new submission, written to a store that has nothing of it,
    are appended in order. *)
Lemma upsertAll_copies_fresh (nid : string) (ps : list SubmissionPartEntity) :
  forall (done l : list SubmissionPartEntity),
    (forall q, In q l -> submissionId q <> nid) ->
    NoDup (map accountId (done ++ ps)) ->
    upsertAll (map (copiedPart nid) ps) (l ++ map (copiedPart nid) done)
    = l ++ map (copiedPart nid) (done ++ ps).
Proof.
  induction ps as [|p ps IH]; intros done l Hfresh Hnd.
  - rewrite app_nil_r. reflexivity.
  - cbn [map upsertAll fold_left].
    assert (Habsent : existsb (samePart (submissionId (copiedPart nid p))
                                 (accountId (copiedPart nid p)))
                        (l ++ map (copiedPart nid) done) = false).
    { destruct (existsb _ _) eqn:He; [|reflexivity]. exfalso.
      apply existsb_exists in He. destruct He as [q [Hin Hq]].
      apply samePart_true in Hq. cbn [copiedPart setPostStatus setSubmissionId submissionId
                                      accountId] in Hq.
      destruct Hq as [Hs Ha]. apply in_app_iff in Hin. destruct Hin as [Hin|Hin].
      - exact (Hfresh q Hin Hs).
      - apply in_map_iff in Hin. destruct Hin as [d [<- Hd]].
        cbn [copiedPart setPostStatus setSubmissionId accountId] in Ha.
        rewrite map_app in Hnd. apply NoDup_remove_2 in Hnd. apply Hnd.
        apply in_or_app. left. rewrite <- Ha. apply in_map. exact Hd. }
    rewrite (upsertPart_absent _ _ Habsent). rewrite <- app_assoc.
    change (map (copiedPart nid) done ++ [copiedPart nid p])
      with (map (copiedPart nid) done ++ map (copiedPart nid) [p]).
    rewrite <- map_app.
    change (fold_left (fun acc p0 => upsertPart p0 acc) (map (copiedPart nid) ps))
      with (upsertAll (map (copiedPart nid) ps)).
    rewrite IH.
    + rewrite <- app_assoc. reflexivity.
    + exact Hfresh.
    + rewrite <- app_assoc. exact Hnd.
Qed.

(** **** A submission that is duplicated *)

Lemma newDuplicate_world (originalId : string) (w w1 : World) (dup : SubmissionEntity) :
  newDuplicate originalId w = (Ok dup, w1) -> w1 = withIdSupply S w.
Proof.
  unfold newDuplicate, bind at 1.
  destruct (find (hasId originalId) (submissions w)) as [s0|] eqn:Hf.
  - rewrite (get_found originalId s0 w Hf). cbv [bind freshId]. cbv zeta.
    destruct (type _); [unfold lift | unfold ret]; intros H; inversion H; reflexivity.
  - rewrite (get_missing originalId w Hf). discriminate.
Qed.

(** X25.  [duplicate], when no write fails.  The copy takes a fresh
    identifier and the order of the original plus a hundredth; it is appended
    to the stored submissions; every part the part service selects for the
    original is copied for it with the status [UNPOSTED], in order, after the
    parts that were stored, which stay as they are (given that no stored part
    carries the new identifier and the selected parts are for distinct
    accounts); the copy is validated and its creation announced. *)
Theorem duplicate_copies_the_parts (originalId : string) (w w1 : World)
  (dup : SubmissionEntity) :
  newDuplicate originalId w = (Ok dup, w1) ->
  faults w = [] ->
  (forall q, In q (storedParts w) -> submissionId q <> _id dup) ->
  NoDup (map accountId (partsToValidate originalId w)) ->
  let w' := snd (duplicate originalId w) in
  fst (duplicate originalId w) = Ok dup
  /\ submissions w' = submissions w ++ [persisted dup]
  /\ storedParts w'
     = storedParts w ++ map (copiedPart (_id dup)) (partsToValidate originalId w)
  /\ events w' = events w ++ [Validated (_id dup); Emitted CREATED [_id dup]]
  /\ (forall s0, find (hasId originalId) (submissions w) = Some s0 ->
        type s0 = NOTIFICATION ->
        dup = setOrder (QArith_base.Qplus (order s0) hundredth)
                (setId (newId (idSupply w)) (flagged w s0))).
Proof.
  intros Hn Hcalm Hfresh Hnd. cbv zeta.
  pose proof (newDuplicate_world originalId w w1 dup Hn) as ->.
  assert (Hrun : duplicate originalId w
                 = (Ok dup,
                    addEvents [Validated (_id dup); Emitted CREATED [_id dup]]
                      (withParts
                         (upsertAll (map (copiedPart (_id dup))
                                       (partsToValidate originalId w)))
                         (withSubmissions (fun l => l ++ [persisted dup])
                            (withIdSupply S w))))).
  { unfold duplicate, bind. rewrite Hn. unfold tryCatch, storeDuplicate, bind.
    rewrite repositorySave_calm by exact Hcalm.
    unfold getPartsForSubmission, gets.
    cbn [storedParts withSubmissions withIdSupply].
    fold (partsToValidate originalId w).
    rewrite (promiseAll_writes_calm (type dup) (copiedPart (_id dup))) by exact Hcalm.
    cbv [emitOnComplete detached bind emit modify ret].
    rewrite validate_entity. cbn [fst snd]. rewrite addEvents_addEvents. reflexivity. }
  rewrite Hrun. cbn [fst snd]. split; [reflexivity|]. split; [reflexivity|]. split.
  - cbn [storedParts addEvents withEvents withParts withSubmissions withIdSupply].
    pose proof (upsertAll_copies_fresh (_id dup) (partsToValidate originalId w) []
                  (storedParts w) Hfresh Hnd) as H.
    cbn [map app] in H. rewrite app_nil_r in H. exact H.
  - split; [reflexivity|]. intros s0 Hf Ht.
    unfold newDuplicate, bind at 1 in Hn. rewrite (get_found originalId s0 w Hf) in Hn.
    cbv [bind freshId] in Hn. cbv zeta in Hn.
    change (type (setOrder _ (setId _ (flagged w s0)))) with (type s0) in Hn.
    rewrite Ht in Hn. inversion Hn. reflexivity.
Qed.

(** **** A submission that is split *)

Lemma splitOne_calm (s : SubmissionEntity) (toSplit : list SubmissionPartEntity)
  (d : SubmissionPartEntity) (order' : QArith_base.Q) (file : FileRecord) (w : World)
  (n : SubmissionEntity) :
  faults w = [] ->
  duplicateFileSubmission
    (setOrder order' (setPrimary (Some file) (setAdditional [] (setId (newId (idSupply w)) s))))
  = Ok n ->
  splitOne s toSplit (Some d) order' file w
  = (Ok tt,
     addEvents [Validated (_id n); Emitted CREATED [_id n]]
       (withParts (upsertAll (map (copiedPart (_id n)) (toSplit ++ [d])))
          (withSubmissions (fun l => l ++ [persisted n]) (withIdSupply S w)))).
Proof.
  intros Hcalm Hdup. unfold splitOne, freshId, bind. cbv zeta.
  unfold tryCatch at 2. unfold lift. rewrite Hdup.
  unfold tryCatch, storeSplit, bind.
  rewrite repositorySave_calm by exact Hcalm.
  rewrite (promiseAll_writes_calm (type n) (copiedPart (_id n))) by exact Hcalm.
  cbv [emitOnComplete detached bind emit modify ret].
  rewrite validate_entity. cbn [fst snd]. rewrite addEvents_addEvents. reflexivity.
Qed.

Lemma splitLoop_calm (s : SubmissionEntity) (toSplit : list SubmissionPartEntity)
  (d : SubmissionPartEntity) (files : list FileRecord) :
  (forall x, exists y, duplicateFileSubmission x = Ok y) ->
  forall (order0 : QArith_base.Q) (w : World),
    faults w = [] ->
    fst (splitLoop s toSplit (Some d) order0 files w) = Ok tt
    /\ submissions (snd (splitLoop s toSplit (Some d) order0 files w))
       = submissions w ++ map persisted (splitProducts s order0 files (idSupply w)).
Proof.
  intros Hdup. induction files as [|file rest IH]; intros order0 w Hcalm.
  - cbn [splitLoop splitProducts map]. rewrite app_nil_r. split; reflexivity.
  - cbn [splitLoop splitProducts]. cbv zeta. unfold bind.
    destruct (Hdup (setOrder (QArith_base.Qplus order0 hundredth)
                      (setPrimary (Some file)
                         (setAdditional [] (setId (newId (idSupply w)) s))))) as [n Hn].
    rewrite (splitOne_calm s toSplit d _ file w n Hcalm Hn). rewrite Hn.
    match goal with
    | |- context [splitLoop s toSplit (Some d) ?o rest ?w1] =>
        destruct (IH o w1 ltac:(exact Hcalm)) as [Hfst Hsub]
    end.
    split; [exact Hfst|]. rewrite Hsub.
    cbn [submissions addEvents withEvents withParts withSubmissions withIdSupply idSupply map].
    rewrite <- app_assoc. reflexivity.
Qed.

(** X26.  [splitAdditionalIntoSubmissions] on a stored submission.  Without
    additional files it throws a [BadRequestException]; when no part other
    than the default part is for a website that refuses additional files, it
    returns at once; nothing is written in either case.  Otherwise, when
    nothing fails, it stores one new submission for each additional file, in
    their order, after the stored submissions: the copies [duplicateSubmission]
    answers, each made from the submission with that file as primary file and
    no additional files.  The stored submissions stay as they are: the
    original keeps its additional files. *)
Theorem split_stores_one_submission_per_file (id : string) (s0 : SubmissionEntity) (w : World) :
  find (hasId id) (submissions w) = Some s0 ->
  (additional s0 = [] ->
   splitAdditionalIntoSubmissions id w
   = (Throw (BadRequestException
               "Submission is not a File submission or does not have additional files"),
      w))
  /\ (additional s0 <> [] -> partsToSplit s0 w = [] ->
      splitAdditionalIntoSubmissions id w = (Ok tt, w))
  /\ (forall d,
        additional s0 <> [] -> partsToSplit s0 w <> [] ->
        defaultPartToSplit s0 w = Some d ->
        faults w = [] ->
        (forall x, exists y, duplicateFileSubmission x = Ok y) ->
        let w' := snd (splitAdditionalIntoSubmissions id w) in
        fst (splitAdditionalIntoSubmissions id w) = Ok tt
        /\ submissions w'
           = submissions w
             ++ map persisted
                  (splitProducts (flagged w s0) (order s0) (additional s0) (idSupply w))
        /\ length (submissions w') = length (submissions w) + length (additional s0)
        /\ In s0 (submissions w')).
Proof.
  intros Hf. rewrite (splitAdditionalIntoSubmissions_found id s0 w Hf).
  split; [|split].
  - intros ->. reflexivity.
  - intros Hadd ->. destruct (additional s0); [contradiction | reflexivity].
  - intros d Hadd Hparts Hd Hcalm Hdup. cbv zeta.
    destruct (additional s0) as [|f fs] eqn:Ha; [contradiction|].
    destruct (partsToSplit s0 w) as [|t ts] eqn:Hts; [contradiction|].
    rewrite Hd.
    destruct (splitLoop_calm (flagged w s0) (t :: ts) d (f :: fs) Hdup (order s0) w Hcalm)
      as [Hfst Hsub].
    split; [exact Hfst|]. split; [exact Hsub|]. split.
    + rewrite Hsub, length_app, length_map.
      assert (Hlen : forall files o n,
                length (splitProducts (flagged w s0) o files n) = length files).
      { induction files as [|x files IHf]; intros o n; [reflexivity|].
        cbn [splitProducts length]. cbv zeta. cbn [length]. rewrite IHf. reflexivity. }
      rewrite Hlen. reflexivity.
    + rewrite Hsub. apply in_or_app. left.
      apply (find_hasId_Some _ _ _ Hf).
Qed.

(** **** A submission that is recreated from a log *)

Lemma create_calm (createDto : SubmissionCreate) (w w1 : World) (c : SubmissionEntity) :
  newSubmission createDto w = (Ok c, w1) ->
  faults w = [] ->
  create createDto w
  = (Ok c,
     addEvents [Validated (_id c); Emitted CREATED [_id c]]
       (withParts (upsertPart (defaultPartOf c))
          (withSubmissions (fun l => l ++ [persisted c]) (withIdSupply S w)))).
Proof.
  intros Hn Hcalm. pose proof (newSubmission_world createDto w w1 c Hn) as ->.
  unfold create, bind. rewrite Hn. unfold tryCatch, storeNew, bind.
  rewrite repositorySave_calm by exact Hcalm.
  rewrite createDefaultPart_calm by exact Hcalm.
  cbv [emitOnComplete detached bind emit modify ret].
  rewrite validate_entity. cbn [fst snd]. rewrite addEvents_addEvents. reflexivity.
Qed.

Lemma filter_all {A} (l : list A) : filter (fun _ => true) l = l.
Proof. induction l as [|x l IH]; [reflexivity|]. cbn [filter]. rewrite IH. reflexivity. Qed.

Lemma find_app_hit {A} (f : A -> bool) (l : list A) (a : A) :
  f a = true -> exists x, find f (l ++ [a]) = Some x /\ f x = true.
Proof.
  intros Ha. induction l as [|y l IH]; cbn [app find].
  - rewrite Ha. exists a. split; [reflexivity | exact Ha].
  - destruct (f y) eqn:Hy; [exists y; split; [reflexivity | exact Hy] | exact IH].
Qed.

(** X27.  [recreate] of a notification from its log, when no write fails.
    The new submission takes a fresh identifier, and a part is written for
    it for every part of the log and for the default part of the log: the
    check that the account of a part still exists removes none of them (its
    answer is a promise, which [filter] takes for [true]).  The parts are
    written with the status [UNPOSTED] and no posting target, the default
    part as it is in the log, over the default part [create] wrote. *)
Theorem recreate_writes_every_part (log : SubmissionLogEntity) (w : World) :
  type (log_submission log) = NOTIFICATION ->
  faults w = [] ->
  let nid := newId (idSupply w) in
  let written :=
    map (recreatedPart nid) (log_parts log) ++ [setSubmissionId nid (log_defaultPart log)] in
  (exists s, fst (recreate log w) = Ok s /\ _id s = nid)
  /\ storedParts (snd (recreate log w))
     = upsertAll written
         (upsertPart (defaultPartOf (blankSubmission (recreateNotificationDto log)
                                       NOTIFICATION w))
            (storedParts w))
  /\ (forall p, In p (log_parts log) ->
        hasPartFor nid (accountId p) (storedParts (snd (recreate log w))))
  /\ hasPartFor nid (accountId (log_defaultPart log)) (storedParts (snd (recreate log w)))
  /\ length written = S (length (log_parts log)).
Proof.
  intros Ht Hcalm. cbv zeta.
  set (c := blankSubmission (recreateNotificationDto log) NOTIFICATION w).
  set (nid := newId (idSupply w)).
  set (written := map (recreatedPart nid) (log_parts log)
                  ++ [setSubmissionId nid (log_defaultPart log)]).
  set (w1 := addEvents [Validated (_id c); Emitted CREATED [_id c]]
               (withParts (upsertPart (defaultPartOf c))
                  (withSubmissions (fun l => l ++ [persisted c]) (withIdSupply S w)))).
  assert (Hcreate : create (recreateNotificationDto log) w = (Ok c, w1)).
  { apply (create_calm _ w (withIdSupply S w)); [reflexivity | exact Hcalm]. }
  assert (Hrestore : restoreInto c log w1 = (Ok tt, withParts (upsertAll written) w1)).
  { unfold restoreInto. cbv zeta. rewrite filter_all. unfold bind.
    change (_id c) with nid. fold written.
    rewrite (promiseAll_write_calm (type c) written w1 Hcalm). rewrite Ht. reflexivity. }
  destruct (find_app_hit (hasId nid) (submissions w) (persisted c))
    as [x [Hfind Hx]].
  { unfold hasId. cbn [persisted setFlags _id c blankSubmission]. apply String.eqb_refl. }
  assert (Hrun : recreate log w
                 = (Ok (flagged (withParts (upsertAll written) w1) x),
                    addEvents [Validated (_id x); Emitted UPDATED [_id x]]
                      (withParts (upsertAll written) w1))).
  { unfold recreate. cbv zeta. rewrite Ht. unfold bind at 1. unfold ret at 1.
    change {| create_type := KnownType NOTIFICATION;
              create_data := {| create_title := title (log_submission log);
                                create_path := None; create_file := None |} |}
      with (recreateNotificationDto log).
    unfold bind at 1. rewrite Hcreate. unfold bind at 1, tryCatch. rewrite Hrestore.
    unfold bind at 1. unfold getAndValidate, bind at 1.
    change (_id c) with nid.
    rewrite (get_found nid x (withParts (upsertAll written) w1) Hfind).
    rewrite validate_entity. cbv [bind emit modify ret].
    rewrite addEvents_addEvents. reflexivity. }
  rewrite Hrun. cbn [fst snd].
  change (storedParts (addEvents _ (withParts (upsertAll written) w1)))
    with (upsertAll written (upsertPart (defaultPartOf c) (storedParts w))).
  split.
  - eexists. split; [reflexivity|]. cbn [flagged setFlags _id].
    unfold hasId in Hx. apply String.eqb_eq in Hx. symmetry. exact Hx.
  - split; [reflexivity|]. split; [|split].
    + intros p Hp.
      change nid with (submissionId (recreatedPart nid p)).
      change (accountId p) with (accountId (recreatedPart nid p)).
      apply upsertAll_writes_each. unfold written. apply in_or_app. left.
      apply in_map. exact Hp.
    + change nid with (submissionId (setSubmissionId nid (log_defaultPart log))).
      change (accountId (log_defaultPart log))
        with (accountId (setSubmissionId nid (log_defaultPart log))).
      apply upsertAll_writes_each. unfold written. apply in_or_app. right. left. reflexivity.
    + unfold written. rewrite length_app, length_map. cbn [length]. lia.
Qed.

(** **** Parts that are overwritten *)

Lemma partToWrite_key (s : SubmissionEntity) (sp : SubmissionPartEntity)
  (l : list SubmissionPartEntity) :
  submissionId (partToWrite s sp l) = _id s /\ accountId (partToWrite s sp l) = accountId sp.
Proof.
  unfold partToWrite.
  destruct (find (samePart (_id s) (accountId sp)) l) as [existing|] eqn:Hf.
  - apply find_some in Hf. destruct Hf as [_ Hsame]. apply samePart_true in Hsame.
    exact Hsame.
  - split; reflexivity.
Qed.

Lemma setPart_calm (s : SubmissionEntity) (sp : SubmissionPartEntity) (w : World) :
  faults w = [] ->
  setPart s sp w
  = (Ok (partToWrite s sp (storedParts w)),
     withParts (upsertPart (partToWrite s sp (storedParts w))) w).
Proof.
  intros H. unfold setPart, bind, getSubmissionPart, gets.
  rewrite createOrUpdateSubmissionPart_calm by exact H. reflexivity.
Qed.

Lemma promiseAll_setPart_calm (s : SubmissionEntity) (ps : list SubmissionPartEntity) :
  forall w, faults w = [] ->
    exists rs, promiseAll (setPart s) ps w = (Ok rs, withParts (setPartsList s ps) w).
Proof.
  induction ps as [|sp ps IH]; intros w H.
  - exists []. destruct w; reflexivity.
  - cbn [promiseAll]. rewrite (setPart_calm s sp w H).
    destruct (IH (withParts (upsertPart (partToWrite s sp (storedParts w))) w) H)
      as [rs Hrs].
    rewrite Hrs. eexists. reflexivity.
Qed.

Lemma promiseAll_remove (rs : list SubmissionPartEntity) :
  forall w,
    promiseAll (fun p => removeSubmissionPart (partId p)) rs w
    = (Ok (map (fun _ => tt) rs), withParts (removeAll (map partId rs)) w).
Proof.
  induction rs as [|r rs IH]; intros w.
  - destruct w; reflexivity.
  - cbn [promiseAll map]. unfold removeSubmissionPart at 1, modify at 1.
    rewrite IH. reflexivity.
Qed.

Lemma In_removeAll (ids : list string) :
  forall l q, In q (removeAll ids l) <-> In q l /\ ~ In (partId q) ids.
Proof.
  induction ids as [|i ids IH]; intros l q.
  - cbn [removeAll fold_left In]. tauto.
  - cbn [removeAll fold_left]. fold (removeAll ids). rewrite IH, filter_In.
    rewrite negb_true_iff, String.eqb_neq. cbn [In]. split.
    + intros [[H1 H2] H3]. split; [exact H1|]. intros [H|H]; [exact (H2 H) | exact (H3 H)].
    + intros [H1 H2]. split; [split; [exact H1|]|]; intros H; apply H2; [left | right]; exact H.
Qed.

Lemma In_setPartsList_inv (s : SubmissionEntity) (ps : list SubmissionPartEntity) :
  forall l q,
    In q (setPartsList s ps l) ->
    In q l \/ (submissionId q = _id s /\ In (accountId q) (map accountId ps)).
Proof.
  induction ps as [|sp ps IH]; intros l q Hq; [left; exact Hq|].
  cbn [setPartsList] in Hq. destruct (IH _ _ Hq) as [Hin|[Hs Ha]].
  - apply In_upsertPart_inv in Hin. destruct Hin as [->|Hin]; [|left; exact Hin].
    right. destruct (partToWrite_key s sp l) as [Hk1 Hk2].
    split; [exact Hk1|]. left. symmetry. exact Hk2.
  - right. split; [exact Hs | right; exact Ha].
Qed.

Lemma hasPartFor_setPartsList (s : SubmissionEntity) (sid aid : string)
  (ps : list SubmissionPartEntity) :
  forall l, hasPartFor sid aid l -> hasPartFor sid aid (setPartsList s ps l).
Proof.
  induction ps as [|sp ps IH]; intros l H; [exact H|].
  cbn [setPartsList]. apply IH. apply hasPartFor_upsertPart. exact H.
Qed.

Lemma setPartsList_writes_each (s : SubmissionEntity) (ps : list SubmissionPartEntity) :
  forall l sp, In sp ps -> hasPartFor (_id s) (accountId sp) (setPartsList s ps l).
Proof.
  induction ps as [|a ps IH]; intros l sp Hin; [destruct Hin|].
  cbn [setPartsList]. destruct Hin as [<-|Hin].
  - apply hasPartFor_setPartsList. exists (partToWrite s a l).
    split; [apply In_upsertPart_self | apply partToWrite_key].
  - apply IH. exact Hin.
Qed.

Lemma append_inj (s a b : string) : String.append s a = String.append s b -> a = b.
Proof.
  induction s as [|c s IH]; cbn [String.append]; intros H; [exact H|].
  inversion H. apply IH. assumption.
Qed.

(** X28.  [overwriteSubmissionParts] on a submission that is not being
    posted, when no write fails.  Afterwards the submission has a part for
    every account of the request, and for no other account: the parts that
    were stored for accounts the request does not name are removed.  The
    submission records are not written; one update is announced. *)
Theorem overwrite_leaves_the_listed_accounts (o : SubmissionOverwrite) (s0 : SubmissionEntity)
  (w : World) :
  find (hasId (overwrite_id o)) (submissions w) = Some s0 ->
  isCurrentlyPosting s0 w = false ->
  faults w = [] ->
  let id := overwrite_id o in
  let w' := snd (overwriteSubmissionParts o w) in
  fst (overwriteSubmissionParts o w) = Ok tt
  /\ (forall q, In q (storedParts w') -> submissionId q = id ->
        In (accountId q) (map accountId (overwrite_parts o)))
  /\ (forall sp, In sp (overwrite_parts o) -> hasPartFor id (accountId sp) (storedParts w'))
  /\ submissions w' = submissions w
  /\ events w' = events w ++ [Validated id; Emitted UPDATED [id]].
Proof.
  intros Hf Hp Hcalm. cbv zeta.
  destruct (find_hasId_Some _ _ _ Hf) as [_ Hid].
  set (id := overwrite_id o) in *.
  set (keepIds := map accountId (overwrite_parts o)).
  set (allParts := filter (fun p => ofSubmission id p && true) (storedParts w)).
  set (removeParts := filter (fun p => negb (includes keepIds (accountId p))) allParts).
  set (s := flagged w s0).
  destruct (promiseAll_setPart_calm s (overwrite_parts o) w Hcalm) as [rs Hrs].
  assert (Hrun : overwriteSubmissionParts o w
                 = (Ok tt,
                    addEvents [Validated id; Emitted UPDATED [id]]
                      (withParts (removeAll (map partId removeParts))
                         (withParts (setPartsList s (overwrite_parts o)) w)))).
  { unfold overwriteSubmissionParts, bind at 1. fold id. rewrite (get_found id s0 w Hf).
    change (isPosting (flagged w s0)) with (isCurrentlyPosting s0 w). rewrite Hp.
    fold s. change (_id s) with (_id s0). rewrite Hid.
    unfold bind at 1. unfold getPartsForSubmission at 1, gets at 1.
    fold allParts. cbv zeta. fold keepIds. fold removeParts.
    unfold bind at 1. rewrite Hrs. unfold bind at 1. rewrite promiseAll_remove.
    unfold bind at 1. rewrite validate_entity. cbv [bind emit modify ret].
    rewrite addEvents_addEvents.
    cbn [packageOf submission _id s flagged setFlags app]. rewrite Hid. reflexivity. }
  rewrite Hrun. cbn [fst snd].
  change (storedParts (addEvents _ (withParts (removeAll (map partId removeParts))
                                      (withParts (setPartsList s (overwrite_parts o)) w))))
    with (removeAll (map partId removeParts)
            (setPartsList s (overwrite_parts o) (storedParts w))).
  split; [reflexivity|]. split; [|split; [|split; reflexivity]].
  - intros q Hq Hsid. apply In_removeAll in Hq. destruct Hq as [Hq Hkept].
    apply In_setPartsList_inv in Hq. destruct Hq as [Hq|[_ Ha]]; [|exact Ha].
    destruct (includes keepIds (accountId q)) eqn:Hinc.
    + apply Furbooru.includes_In. exact Hinc.
    + exfalso. apply Hkept. apply in_map. unfold removeParts, allParts.
      apply filter_In. split.
      * apply filter_In. split; [exact Hq|]. unfold ofSubmission.
        rewrite Hsid, String.eqb_refl. reflexivity.
      * rewrite Hinc. reflexivity.
  - intros sp Hsp.
    destruct (setPartsList_writes_each s (overwrite_parts o) (storedParts w) sp Hsp)
      as [q [Hq [Hs Ha]]].
    change (_id s) with (_id s0) in Hs. rewrite Hid in Hs.
    exists q. split; [|split; assumption].
    apply In_removeAll. split; [exact Hq|]. intros Hrem.
    apply in_map_iff in Hrem. destruct Hrem as [r [Hr Hin]].
    unfold removeParts, allParts in Hin. apply filter_In in Hin.
    destruct Hin as [Hin Hnot]. apply filter_In in Hin. destruct Hin as [_ Hof].
    rewrite andb_true_r in Hof. unfold ofSubmission in Hof. apply String.eqb_eq in Hof.
    unfold partId in Hr. rewrite <- Hof, Hs in Hr.
    apply append_inj in Hr. apply append_inj in Hr.
    apply negb_true_iff in Hnot. rewrite Hr, Ha in Hnot.
    assert (Hyes : includes keepIds (accountId sp) = true).
    { apply Furbooru.includes_In. unfold keepIds. apply in_map. exact Hsp. }
    rewrite Hyes in Hnot. discriminate Hnot.
Qed.

(** **** File actions *)

Lemma written_package (s' : SubmissionEntity) (w : World) :
  (validated <- validate (ByEntity s') ;;
   emit UPDATED [_id (submission validated)] ;;;
   ret validated) w
  = (Ok (packageOf w s'), addEvents [Validated (_id s'); Emitted UPDATED [_id s']] w).
Proof.
  unfold bind. rewrite validate_entity. cbv [emit modify ret].
  rewrite addEvents_addEvents. reflexivity.
Qed.

Lemma map_id_update (s' : SubmissionEntity) (l : list SubmissionEntity) :
  map _id (map (fun x => if hasId (_id s') x then persisted s' else x) l) = map _id l.
Proof.
  rewrite map_map. apply map_ext. intros x. destruct (hasId (_id s') x) eqn:Hx; [|reflexivity].
  unfold hasId in Hx. apply String.eqb_eq in Hx. exact Hx.
Qed.

(** What a file action does once the file service has answered. *)
Lemma file_action_run (answer : Result SubmissionEntity) (w : World) :
  (s' <- lift answer ;;
   repositoryUpdate s' ;;;
   validated <- validate (ByEntity s') ;;
   emit UPDATED [_id (submission validated)] ;;;
   ret validated) w
  = fileActionResult answer w.
Proof.
  destruct answer as [s'|e]; [|reflexivity].
  unfold bind at 1, lift. unfold bind at 1, repositoryUpdate, modify.
  rewrite written_package. reflexivity.
Qed.

Lemma fileActionResult_outcome (answer : Result SubmissionEntity) (w : World) :
  let r := fileActionResult answer w in
  (forall e, fst r = Throw e -> snd r = w)
  /\ (forall pk, fst r = Ok pk ->
        storedParts (snd r) = storedParts w
        /\ map _id (submissions (snd r)) = map _id (submissions w)
        /\ events (snd r)
           = events w ++ [Validated (_id (submission pk));
                          Emitted UPDATED [_id (submission pk)]]
        /\ submissions (snd r)
           = map (fun x => if hasId (_id (submission pk)) x then persisted (submission pk)
                           else x)
               (submissions w)
        /\ pk = packageOf w (submission pk)).
Proof.
  cbv zeta. destruct answer as [s'|e]; cbn [fileActionResult fst snd].
  - split; [discriminate|]. intros pk Hpk. inversion Hpk; subst pk.
    split; [reflexivity|]. split; [|split; [reflexivity|split; reflexivity]].
    cbn [submissions addEvents withEvents withSubmissions]. apply map_id_update.
  - split; [reflexivity|]. intros pk H. discriminate H.
Qed.

(** A file action on a submission that is found and is not being posted. *)
Lemma file_action_open (id : string) (s0 : SubmissionEntity) (w : World)
  (k : SubmissionEntity -> M World SubmissionPackage) :
  find (hasId id) (submissions w) = Some s0 ->
  isCurrentlyPosting s0 w = false ->
  (s <- get (ById id) ;; if isPosting s then throw posting_refusal else k s) w
  = k (flagged w s0) w.
Proof.
  intros Hf Hp. unfold bind. rewrite (get_found id s0 w Hf).
  change (isPosting (flagged w s0)) with (isCurrentlyPosting s0 w). rewrite Hp.
  reflexivity.
Qed.

(** Each of the six file actions, on a submission that is found and is not
    being posted, is the write of what the file service answers. *)
Lemma file_actions_run (file : UploadedFile) (id path location : string)
  (s0 : SubmissionEntity) (w : World) :
  find (hasId id) (submissions w) = Some s0 ->
  isCurrentlyPosting s0 w = false ->
  Forall2 (fun act answer => act w = fileActionResult answer w)
    (fileActions file id path location)
    (fileAnswers file path location (flagged w s0)).
Proof.
  intros Hf Hp. unfold fileActions, fileAnswers.
  repeat apply Forall2_cons; try apply Forall2_nil.
  - unfold setFallbackFile. rewrite (file_action_open id s0 w _ Hf Hp).
    apply file_action_run.
  - unfold removeFileSubmissionThumbnail. rewrite (file_action_open id s0 w _ Hf Hp).
    apply file_action_run.
  - unfold removeFileSubmissionAdditionalFile. rewrite (file_action_open id s0 w _ Hf Hp).
    apply file_action_run.
  - unfold changeFileSubmissionThumbnailFile. rewrite (file_action_open id s0 w _ Hf Hp).
    apply file_action_run.
  - unfold changeFileSubmissionPrimaryFile. rewrite (file_action_open id s0 w _ Hf Hp).
    unfold primaryFileAnswer.
    match goal with |- ?t = _ => remember t as r eqn:Hr end.
    unfold bind at 1, lift in Hr.
    destruct (changePrimaryFile (flagged w s0) file path) as [s1|e1];
      [|subst r; reflexivity].
    unfold bind at 1 in Hr.
    destruct (fallback s1) as [fb|].
    + destruct (primary s1) as [f|]; [|subst r; reflexivity].
      destruct (negb (isTEXT (fileType f))).
      * unfold lift in Hr. subst r. exact (file_action_run (removeFallbackFile s1) w).
      * subst r. exact (file_action_run (Ok s1) w).
    + subst r. exact (file_action_run (Ok s1) w).
  - unfold addFileSubmissionAdditionalFile. rewrite (file_action_open id s0 w _ Hf Hp).
    apply file_action_run.
Qed.

Lemma Forall2_In_left {A B} (R : A -> B -> Prop) (l : list A) (l' : list B) (a : A) :
  Forall2 R l l' -> In a l -> exists b, In b l' /\ R a b.
Proof.
  intros H. induction H as [|x y l l' Hxy _ IH]; intros Hin; [destruct Hin|].
  destruct Hin as [<-|Hin].
  - exists y. split; [left; reflexivity | exact Hxy].
  - destruct (IH Hin) as [b [Hb Hr]]. exists b. split; [right; exact Hb | exact Hr].
Qed.

(** X29.  The six file actions ([setFallbackFile],
    [removeFileSubmissionThumbnail], [removeFileSubmissionAdditionalFile],
    [changeFileSubmissionThumbnailFile], [changeFileSubmissionPrimaryFile],
    [addFileSubmissionAdditionalFile]) write all or nothing.  A run that
    throws (unknown identifier, submission being posted, failure of the file
    service, missing primary file) leaves everything as it was.  A run that
    returns has written the submission of the package it returns over every
    stored submission of that identifier, left the other submissions and the
    parts alone, validated the submission and announced one update.  On a
    submission that is found and is not being posted, each action does with
    what the file service answers to it exactly this: an answer is written,
    validated, announced and returned as a package; an error is thrown and
    nothing is written. *)
Theorem file_actions_write_all_or_nothing
  (file : UploadedFile) (id path location : string) (w : World)
  (act : M World SubmissionPackage) :
  In act (fileActions file id path location) ->
  (forall e, fst (act w) = Throw e -> snd (act w) = w)
  /\ (forall pk, fst (act w) = Ok pk ->
        storedParts (snd (act w)) = storedParts w
        /\ map _id (submissions (snd (act w))) = map _id (submissions w)
        /\ events (snd (act w))
           = events w ++ [Validated (_id (submission pk));
                          Emitted UPDATED [_id (submission pk)]]
        /\ submissions (snd (act w))
           = map (fun x => if hasId (_id (submission pk)) x then persisted (submission pk)
                           else x)
               (submissions w)
        /\ pk = packageOf w (submission pk))
  /\ (forall s0,
        find (hasId id) (submissions w) = Some s0 ->
        isCurrentlyPosting s0 w = false ->
        Forall2 (fun action answer =>
                   action w
                   = match answer with
                     | Ok s' =>
                         (Ok (packageOf w s'),
                          addEvents [Validated (_id s'); Emitted UPDATED [_id s']]
                            (withSubmissions
                               (map (fun x => if hasId (_id s') x then persisted s' else x))
                               w))
                     | Throw e => (Throw e, w)
                     end)
          (fileActions file id path location)
          (fileAnswers file path location (flagged w s0))).
Proof.
  intros Hact.
  assert (Hshut : forall (k : SubmissionEntity -> M World SubmissionPackage),
            (find (hasId id) (submissions w) = None
             \/ exists s0, find (hasId id) (submissions w) = Some s0
                           /\ isCurrentlyPosting s0 w = true) ->
            exists e,
              (s <- get (ById id) ;; if isPosting s then throw posting_refusal else k s) w
              = (Throw e, w)).
  { intros k [Hf|[s0 [Hf Hp]]]; unfold bind.
    - rewrite (get_missing id w Hf). eexists. reflexivity.
    - rewrite (get_found id s0 w Hf).
      change (isPosting (flagged w s0)) with (isCurrentlyPosting s0 w). rewrite Hp.
      eexists. reflexivity. }
  assert (Hcases : (find (hasId id) (submissions w) = None
                    \/ exists s0, find (hasId id) (submissions w) = Some s0
                                  /\ isCurrentlyPosting s0 w = true)
                   \/ exists s0, find (hasId id) (submissions w) = Some s0
                                 /\ isCurrentlyPosting s0 w = false).
  { destruct (find (hasId id) (submissions w)) as [s0|]; [|left; left; reflexivity].
    destruct (isCurrentlyPosting s0 w) eqn:Hp.
    - left. right. exists s0. split; [reflexivity | exact Hp].
    - right. exists s0. split; [reflexivity | exact Hp]. }
  assert (Hthird : forall s0,
             find (hasId id) (submissions w) = Some s0 ->
             isCurrentlyPosting s0 w = false ->
             Forall2 (fun action answer => action w = fileActionResult answer w)
               (fileActions file id path location)
               (fileAnswers file path location (flagged w s0))).
  { intros s0 Hf Hp. apply file_actions_run; assumption. }
  assert (Hfirst : (forall e, fst (act w) = Throw e -> snd (act w) = w)
                   /\ (forall pk, fst (act w) = Ok pk ->
                         storedParts (snd (act w)) = storedParts w
                         /\ map _id (submissions (snd (act w))) = map _id (submissions w)
                         /\ events (snd (act w))
                            = events w ++ [Validated (_id (submission pk));
                                           Emitted UPDATED [_id (submission pk)]]
                         /\ submissions (snd (act w))
                            = map (fun x => if hasId (_id (submission pk)) x
                                            then persisted (submission pk) else x)
                                (submissions w)
                         /\ pk = packageOf w (submission pk))).
  { destruct Hcases as [Hno|[s0 [Hf Hp]]].
    - assert (Hall : exists e, act w = (Throw e, w)).
      { unfold fileActions in Hact.
        destruct Hact as [<-|[<-|[<-|[<-|[<-|[<-|[]]]]]]]; apply Hshut; exact Hno. }
      destruct Hall as [e0 Hall]. rewrite Hall. split; [reflexivity | discriminate].
    - destruct (Forall2_In_left _ _ _ act (Hthird s0 Hf Hp) Hact) as [answer [_ Hrun]].
      rewrite Hrun. apply fileActionResult_outcome. }
  split; [exact (proj1 Hfirst)|]. split; [exact (proj2 Hfirst)|].
  intros s0 Hf Hp. exact (Hthird s0 Hf Hp).
Qed.

(** **** Parts that are updated *)

Lemma promiseAll_removeSubmissionPart (ids : list string) :
  forall w,
    promiseAll removeSubmissionPart ids w
    = (Ok (map (fun _ => tt) ids), withParts (removeAll ids) w).
Proof.
  induction ids as [|i ids IH]; intros w.
  - destruct w; reflexivity.
  - cbn [promiseAll map]. unfold removeSubmissionPart at 1, modify at 1.
    rewrite IH. reflexivity.
Qed.

(** X30.  [updateSubmission] on a submission that is not being posted, when
    no write fails.  The parts named in [removedParts] are removed first and
    the parts of the request are set afterwards: in the end the submission
    has a part for every account of the request, and a stored part whose
    identifier was to be removed is there only if it is of this submission
    and its account is in the request, that is, if it was set again. *)
Theorem updateSubmission_removes_then_sets (u : SubmissionUpdate) (s0 : SubmissionEntity)
  (w : World) :
  find (hasId (update_id u)) (submissions w) = Some s0 ->
  isCurrentlyPosting s0 w = false ->
  faults w = [] ->
  let id := update_id u in
  let w' := snd (updateSubmission u w) in
  (exists pk, fst (updateSubmission u w) = Ok pk /\ _id (submission pk) = id)
  /\ (forall sp, In sp (update_parts u) -> hasPartFor id (accountId sp) (storedParts w'))
  /\ (forall q, In q (storedParts w') -> In (partId q) (update_removedParts u) ->
        submissionId q = id /\ In (accountId q) (map accountId (update_parts u)))
  /\ (forall q, In q (storedParts w) -> ~ In (partId q) (update_removedParts u) ->
        hasPartFor (submissionId q) (accountId q) (storedParts w'))
  /\ events w' = events w ++ [Validated id; Emitted UPDATED [id]].
Proof.
  intros Hf Hp Hcalm. cbv zeta.
  destruct (find_hasId_Some _ _ _ Hf) as [_ Hid].
  set (id := update_id u) in *.
  set (sch := if falsyNumber (update_postAt u)
              then setIsScheduled false (setPostAtField (update_postAt u)
                                           (schedule (flagged w s0)))
              else setPostAtField (update_postAt u) (schedule (flagged w s0))).
  set (s' := setSchedule sch (flagged w s0)).
  set (w1 := withSubmissions (map (fun x => if hasId (_id s') x then persisted s' else x)) w).
  set (w2 := withParts (removeAll (update_removedParts u)) w1).
  destruct (promiseAll_setPart_calm s' (update_parts u) w2 Hcalm) as [rs Hrs].
  assert (Hrun : updateSubmission u w
                 = (Ok (packageOf (withParts (setPartsList s' (update_parts u)) w2) s'),
                    addEvents [Validated id; Emitted UPDATED [id]]
                      (withParts (setPartsList s' (update_parts u)) w2))).
  { unfold updateSubmission, bind at 1. fold id. rewrite (get_found id s0 w Hf).
    change (isPosting (flagged w s0)) with (isCurrentlyPosting s0 w). rewrite Hp.
    cbv zeta. fold sch. fold s'.
    unfold bind at 1. unfold repositoryUpdate at 1, modify at 1. fold w1.
    unfold bind at 1. rewrite promiseAll_removeSubmissionPart. fold w2.
    unfold bind at 1. rewrite Hrs.
    rewrite written_package.
    change (_id s') with (_id s0). rewrite Hid. reflexivity. }
  rewrite Hrun. cbn [fst snd].
  change (storedParts (addEvents _ (withParts (setPartsList s' (update_parts u)) w2)))
    with (setPartsList s' (update_parts u)
            (removeAll (update_removedParts u) (storedParts w))).
  split; [|split; [|split; [|split; [|reflexivity]]]].
  - eexists. split; [reflexivity|]. cbn [packageOf submission]. exact Hid.
  - intros sp Hsp.
    pose proof (setPartsList_writes_each s' (update_parts u)
                  (removeAll (update_removedParts u) (storedParts w)) sp Hsp) as H.
    change (_id s') with (_id s0) in H. rewrite Hid in H. exact H.
  - intros q Hq Hrem. apply In_setPartsList_inv in Hq. destruct Hq as [Hq|[Hs Ha]].
    + apply In_removeAll in Hq. destruct Hq as [_ Hn]. contradiction.
    + change (_id s') with (_id s0) in Hs. rewrite Hid in Hs. split; assumption.
  - intros q Hq Hn. apply hasPartFor_setPartsList.
    exists q. split; [|split; reflexivity]. apply In_removeAll. split; assumption.
Qed.

End Operations.

Lemma file_actions_write_all_or_nothing_witness :
  snd (setFallbackFile (deps := sampleDeps) storyFile "p" postingWorld) = postingWorld
  /\ submissions (snd (addFileSubmissionAdditionalFile (deps := filteringDeps) storyFile "g"
                         "/f/4.png" galleryWorld))
     = [setAdditional [fileRecordAt "/f/2.png"; fileRecordAt "/f/3.png";
                       fileRecordAt "/f/4.png"] gallery].
Proof.
  split.
  - apply (proj1 (file_actions_write_all_or_nothing (deps := sampleDeps) storyFile
                    "p" "/f/story.txt" "/f/2.png" postingWorld _ (or_introl eq_refl))
             posting_refusal).
    reflexivity.
  - destruct (proj1 (proj2
      (file_actions_write_all_or_nothing (deps := filteringDeps) storyFile
         "g" "/f/4.png" "/f/2.png" galleryWorld
         (addFileSubmissionAdditionalFile (deps := filteringDeps) storyFile "g" "/f/4.png")
         (or_intror (or_intror (or_intror (or_intror (or_intror (or_introl eq_refl))))))))
      (packageOf (deps := filteringDeps) galleryWorld
         (setAdditional [fileRecordAt "/f/2.png"; fileRecordAt "/f/3.png";
                         fileRecordAt "/f/4.png"] gallery))
      eq_refl) as [_ [_ [_ [Hwritten _]]]].
    rewrite Hwritten. reflexivity.
Defined.

Lemma updateSubmission_removes_then_sets_witness :
  hasPartFor "o" "acc2"
    (storedParts (snd (updateSubmission (deps := sampleDeps)
                         {| update_id := "o";
                            update_parts := [partOf "o" "acc2" "Weasyl" UNPOSTED None];
                            update_postAt := None;
                            update_removedParts := ["o-acc1"] |}
                         postedWorld))).
Proof.
  apply (proj1 (proj2
    (updateSubmission_removes_then_sets (deps := sampleDeps)
       {| update_id := "o";
          update_parts := [partOf "o" "acc2" "Weasyl" UNPOSTED None];
          update_postAt := None;
          update_removedParts := ["o-acc1"] |}
       (notification "o" false 5000) postedWorld eq_refl eq_refl eq_refl))
    (partOf "o" "acc2" "Weasyl" UNPOSTED None)).
  left. reflexivity.
Defined.

Lemma getFallbackText_defaults_to_empty_witness :
  fst (getFallbackText (deps := sampleDeps) "a" scheduledWorld) = Ok ""
  /\ fst (getFallbackText (deps := sampleDeps) "nobody" scheduledWorld)
     = Throw (notFound "nobody").
Proof.
  split.
  - destruct (proj2 (proj2 (getFallbackText_defaults_to_empty (deps := sampleDeps) "a"
                              scheduledWorld)) (notification "a" true 900) eq_refl)
      as [text [Hfst [Hnone _]]].
    rewrite Hfst, (Hnone eq_refl). reflexivity.
  - apply (proj1 (proj2 (getFallbackText_defaults_to_empty (deps := sampleDeps) "nobody"
                           scheduledWorld))).
    reflexivity.
Defined.

Lemma parts_map_has_one_entry_per_account_witness :
  accountId (partOf "o" "acc1" "Weasyl" UNPOSTED None) = "acc1"
  /\ lastForAccount
       [partOf "o" "acc1" "Furbooru" UNPOSTED None; partOf "o" "acc1" "Weasyl" UNPOSTED None]
       (partOf "o" "acc1" "Weasyl" UNPOSTED None).
Proof.
  apply (proj1 (proj2 (proj2
    (parts_map_has_one_entry_per_account (deps := sampleDeps)
       [partOf "o" "acc1" "Furbooru" UNPOSTED None; partOf "o" "acc1" "Weasyl" UNPOSTED None])))
    "acc1" (partOf "o" "acc1" "Weasyl" UNPOSTED None)).
  left. reflexivity.
Defined.

Lemma duplicate_copies_the_parts_witness :
  storedParts (snd (duplicate (deps := sampleDeps) "o" postedWorld))
  = storedParts postedWorld ++ map (copiedPart "new0") (storedParts postedWorld).
Proof.
  apply (proj1 (proj2 (proj2
    (duplicate_copies_the_parts (deps := sampleDeps) "o" postedWorld
       (withIdSupply S postedWorld)
       (setOrder (QArith_base.Qplus (order (notification "o" false 5000)) hundredth)
          (setId "new0" (notification "o" false 5000)))
       eq_refl eq_refl
       ltac:(intros q [<-|[<-|[]]]; discriminate)
       ltac:(repeat constructor; simpl; intuition discriminate))))).
Defined.

Lemma split_stores_one_submission_per_file_witness :
  length (submissions (snd (splitAdditionalIntoSubmissions (deps := sampleDeps) "g"
                              galleryWorld))) = 3.
Proof.
  apply (proj1 (proj2 (proj2
    (proj2 (proj2 (split_stores_one_submission_per_file (deps := sampleDeps) "g" gallery
                     galleryWorld eq_refl))
       galleryDefaultPart
       ltac:(discriminate)
       ltac:(intros H; vm_compute in H; discriminate H)
       eq_refl eq_refl
       (fun x => ex_intro _ x eq_refl))))).
Defined.

Lemma recreate_writes_every_part_witness :
  hasPartFor "new0" "gone" (storedParts (snd (recreate (deps := sampleDeps) postedLog
                                                (worldOf [] [])))).
Proof.
  apply (proj1 (proj2 (proj2
    (recreate_writes_every_part (deps := sampleDeps) postedLog (worldOf [] [])
       eq_refl eq_refl)))
    (partOf "o" "gone" "Weasyl" FAILED None)).
  right. left. reflexivity.
Defined.

Lemma overwrite_leaves_the_listed_accounts_witness :
  hasPartFor "o" "acc2"
    (storedParts (snd (overwriteSubmissionParts (deps := sampleDeps)
                         {| overwrite_id := "o";
                            overwrite_parts := [partOf "o" "acc2" "Weasyl" UNPOSTED None] |}
                         postedWorld))).
Proof.
  apply (proj1 (proj2 (proj2
    (overwrite_leaves_the_listed_accounts (deps := sampleDeps)
       {| overwrite_id := "o";
          overwrite_parts := [partOf "o" "acc2" "Weasyl" UNPOSTED None] |}
       (notification "o" false 5000) postedWorld eq_refl eq_refl eq_refl)))
    (partOf "o" "acc2" "Weasyl" UNPOSTED None)).
  left. reflexivity.
Defined.

Lemma second_tick_promotes_nothing_witness :
  queued (snd (queueScheduledSubmissions (deps := sampleDeps) 1000
                 (snd (queueScheduledSubmissions (deps := sampleDeps) 1000 scheduledWorld))))
  = queued (snd (queueScheduledSubmissions (deps := sampleDeps) 1000 scheduledWorld)).
Proof.
  apply (proj1 (proj2 (second_tick_promotes_nothing (deps := sampleDeps) 1000 scheduledWorld
                         ltac:(repeat constructor; simpl; intuition discriminate)))).
Defined.

Lemma scheduled_submission_is_promoted_when_due_witness :
  In "d" (queued (snd (queueScheduledSubmissions (deps := sampleDeps) 1000
                         (snd (scheduleSubmission (deps := sampleDeps) (ById "d") true
                                 (Some 700%Z) scheduledWorld))))).
Proof.
  apply (proj1 (scheduled_submission_is_promoted_when_due (deps := sampleDeps) "d"
                  (notification "d" false 100) 700 1000 scheduledWorld
                  ltac:(repeat constructor; simpl; intuition discriminate)
                  eq_refl eq_refl eq_refl ltac:(discriminate) ltac:(lia))).
Defined.

Lemma setPart_changes_only_data_witness :
  fst (setPart (notification "o" false 5000) (partOf "x" "acc1" "Weasyl" UNPOSTED None)
         postedWorld)
  = Ok (setData "{}" (partOf "o" "acc1" "Furbooru" POSTED
                        (Some "https://furbooru.org/images/1")))
  /\ postStatus (setData "{}" (partOf "o" "acc1" "Furbooru" POSTED
                                 (Some "https://furbooru.org/images/1")))
     = POSTED.
Proof.
  split; [reflexivity|].
  apply (proj1 (setPart_changes_only_data
                  (notification "o" false 5000) (partOf "x" "acc1" "Weasyl" UNPOSTED None)
                  postedWorld
                  (snd (setPart (notification "o" false 5000)
                          (partOf "x" "acc1" "Weasyl" UNPOSTED None) postedWorld))
                  (setData "{}" (partOf "o" "acc1" "Furbooru" POSTED
                                   (Some "https://furbooru.org/images/1")))
                  eq_refl)
               (partOf "o" "acc1" "Furbooru" POSTED (Some "https://furbooru.org/images/1"))
               eq_refl).
Defined.

Lemma updateFileSubmissionAdditionalFile_sets_first_match_witness :
  (exists before after,
      additional gallery = before ++ fileRecordAt "/f/3.png" :: after
      /\ (forall x, In x before -> location x <> "/f/3.png")
      /\ fst (updateFileSubmissionAdditionalFile (deps := sampleDeps) "g"
                (setIgnoredAccounts ["acc1"] (fileRecordAt "/f/3.png")) galleryWorld) = Ok tt
      /\ submissions (snd (updateFileSubmissionAdditionalFile (deps := sampleDeps) "g"
                             (setIgnoredAccounts ["acc1"] (fileRecordAt "/f/3.png"))
                             galleryWorld))
         = map (fun x =>
                  if hasId "g" x
                  then persisted
                         (setAdditional
                            (before ++ setIgnoredAccounts ["acc1"] (fileRecordAt "/f/3.png")
                                    :: after) gallery)
                  else x)
             (submissions galleryWorld)
      /\ storedParts (snd (updateFileSubmissionAdditionalFile (deps := sampleDeps) "g"
                             (setIgnoredAccounts ["acc1"] (fileRecordAt "/f/3.png"))
                             galleryWorld))
         = storedParts galleryWorld
      /\ events (snd (updateFileSubmissionAdditionalFile (deps := sampleDeps) "g"
                        (setIgnoredAccounts ["acc1"] (fileRecordAt "/f/3.png"))
                        galleryWorld))
         = events galleryWorld ++ [Validated "g"; Emitted UPDATED ["g"]])
  /\ updateFileSubmissionAdditionalFile (deps := sampleDeps) "a"
       {| location := "/tmp/x.png"; name := "x.png"; mimetype := "image/png";
          originalPath := "/home/x.png"; fileType := IMAGE; ignoredAccounts := ["acc1"] |}
       scheduledWorld
     = (Ok tt, scheduledWorld).
Proof.
  split.
  - apply (proj2 (updateFileSubmissionAdditionalFile_sets_first_match (deps := sampleDeps) "g"
                    gallery (setIgnoredAccounts ["acc1"] (fileRecordAt "/f/3.png"))
                    galleryWorld eq_refl eq_refl)
             (fileRecordAt "/f/3.png")).
    reflexivity.
  - apply (proj1 (updateFileSubmissionAdditionalFile_sets_first_match (deps := sampleDeps) "a"
                    (notification "a" true 900) _ scheduledWorld eq_refl eq_refl)).
    reflexivity.
Defined.

(** The second additional file of the gallery is given an ignored account:
    the first additional file and the primary file stay as they are. *)
Example updateFileSubmissionAdditionalFile_on_gallery :
  map additional
    (submissions (snd (updateFileSubmissionAdditionalFile (deps := sampleDeps) "g"
                         (setIgnoredAccounts ["acc1"] (fileRecordAt "/f/3.png"))
                         galleryWorld)))
  = [[fileRecordAt "/f/2.png"; setIgnoredAccounts ["acc1"] (fileRecordAt "/f/3.png")]].
Proof. reflexivity. Qed.

Lemma create_stores_submission_and_default_part_witness :
  fst (create (deps := sampleDeps) notificationDto (worldOf [] [])) = Ok helloSubmission
  /\ submissions (snd (create (deps := sampleDeps) notificationDto (worldOf [] [])))
     = [helloSubmission]
  /\ create (deps := sampleDeps)
       {| create_type := InheritedKey "constructor";
          create_data := create_data notificationDto |} scheduledWorld
     = (Throw (NotFoundException "Submission null could not be found"),
        withIdSupply S scheduledWorld).
Proof.
  destruct (proj2 (proj2 (proj2 (create_stores_submission_and_default_part
                                   (deps := sampleDeps) notificationDto (worldOf [] []))))
              helloSubmission (withIdSupply S (worldOf [] [])) eq_refl eq_refl)
    as [Hfst [Hsub _]].
  split; [exact Hfst|]. split; [exact Hsub|].
  apply (proj1 (proj2 (create_stores_submission_and_default_part (deps := sampleDeps)
                         {| create_type := InheritedKey "constructor";
                            create_data := create_data notificationDto |} scheduledWorld))
           "constructor").
  reflexivity.
Defined.

Lemma dryValidate_looks_up_only_with_parts_witness :
  dryValidate (deps := sampleDeps) (ById "nobody") [] scheduledWorld = (Ok [], scheduledWorld)
  /\ dryValidate (deps := sampleDeps) (ById "nobody")
       [partOf "nobody" "acc1" "Furbooru" UNPOSTED None] scheduledWorld
     = (Throw (notFound "nobody"), scheduledWorld).
Proof.
  split.
  - apply (proj1 (dryValidate_looks_up_only_with_parts (deps := sampleDeps))).
  - apply (proj1 (proj2 (dryValidate_looks_up_only_with_parts (deps := sampleDeps)))).
    reflexivity.
Defined.

Lemma scheduleSubmission_needs_postAt_witness :
  scheduleSubmission (deps := sampleDeps) (ById "d") true (Some 0%Z)
    (worldOf [undated "d"] [])
  = (Throw (BadRequestException
              "Submission cannot be scheduled because it does not have a postAt value"),
     worldOf [undated "d"] []).
Proof.
  apply (proj1 (scheduleSubmission_needs_postAt (deps := sampleDeps) "d" (undated "d")
                  (worldOf [undated "d"] []) true (Some 0%Z) eq_refl)).
  reflexivity.
Defined.

Lemma setPostAt_keeps_isScheduled_witness :
  submissions (snd (setPostAt (deps := sampleDeps) (ById "b") None scheduledWorld))
  = [notification "a" true 900;
     {| _id := "b"; title := Some "b"; type := NOTIFICATION;
        schedule := {| isScheduled := true; postAt := None |};
        sources := []; order := QArith_base.Qmake 0 1; isPosting := false; isQueued := false;
        primary := None; thumbnail := None; fallback := None; additional := [] |};
     notification "c" true 2000; notification "d" false 100].
Proof.
  rewrite (proj2 (proj1 (setPostAt_keeps_isScheduled (deps := sampleDeps) "b"
                           (notification "b" true 500) scheduledWorld eq_refl eq_refl) None)).
  reflexivity.
Defined.

Lemma deleteSubmission_removes_submission_and_parts_witness :
  submissions (snd (deleteSubmission (deps := sampleDeps) (ById "a") false scheduledWorld))
  = [notification "b" true 500; notification "c" true 2000; notification "d" false 100]
  /\ storedParts (snd (deleteSubmission (deps := sampleDeps) (ById "a") false scheduledWorld))
     = [].
Proof.
  destruct (proj2 (proj2 (deleteSubmission_removes_submission_and_parts (deps := sampleDeps)
                            "a" false scheduledWorld))
              (notification "a" true 900) eq_refl (or_introl eq_refl))
    as [_ [Hs [Hp _]]].
  split; [rewrite Hs | rewrite Hp]; reflexivity.
Defined.

(** *** What the operations leave of the parts *)

Section PartsKept.

Context {deps : Collaborators}.

Variable P : SubmissionPartEntity -> Prop.

Lemma keeps_same {A} (m : M World A) :
  (forall w, storedParts (snd (m w)) = storedParts w) -> keeps P m.
Proof. intros Hs w Hall p Hin. rewrite Hs in Hin. exact (Hall p Hin). Qed.

Lemma keeps_bind {A B} (m : M World A) (k : A -> M World B) :
  keeps P m -> (forall a, keeps P (k a)) -> keeps P (bind m k).
Proof.
  intros Hm Hk w Hall. unfold bind. specialize (Hm w Hall).
  destruct (m w) as [[a|e] w1]; cbn [snd] in *; [apply Hk; exact Hm | exact Hm].
Qed.

(** The same, where what follows depends on what [m] answered in [w]. *)
Lemma keeps_bind_at {A B} (m : M World A) (k : A -> M World B) (w : World) :
  keeps P m ->
  (forall a w1, m w = (Ok a, w1) -> allParts P w1 -> allParts P (snd (k a w1))) ->
  allParts P w -> allParts P (snd (bind m k w)).
Proof.
  intros Hm Hk Hall. unfold bind. specialize (Hm w Hall).
  destruct (m w) as [[a|e] w1] eqn:Hrun; cbn [snd] in *;
    [apply (Hk a w1 eq_refl Hm) | exact Hm].
Qed.

Lemma keeps_tryCatch {A} (m : M World A) (h : Error -> M World A) :
  keeps P m -> (forall e, keeps P (h e)) -> keeps P (tryCatch m h).
Proof.
  intros Hm Hh w Hall. unfold tryCatch. specialize (Hm w Hall).
  destruct (m w) as [[a|e] w1]; cbn [snd] in *; [exact Hm | apply Hh; exact Hm].
Qed.

Lemma keeps_detached {A} (m : M World A) : keeps P m -> keeps P (detached m).
Proof. intros Hm w Hall. exact (Hm w Hall). Qed.

Lemma keeps_promiseAll {A B} (f : A -> M World B) (l : list A) :
  (forall a, In a l -> keeps P (f a)) -> keeps P (promiseAll f l).
Proof.
  induction l as [|a l IH]; intros Hf w Hall; [exact Hall|].
  cbn [promiseAll].
  pose proof (Hf a (or_introl eq_refl) w Hall) as Ha.
  pose proof (IH (fun b Hb => Hf b (or_intror Hb))) as IH'.
  destruct (f a w) as [[b|e] w1]; cbn [snd] in Ha.
  - specialize (IH' w1 Ha). destruct (promiseAll f l w1) as [[bs|e] w2]; exact IH'.
  - exact (IH' w1 Ha).
Qed.

Lemma keeps_forEachM {A} (f : A -> M World unit) (l : list A) :
  (forall a, In a l -> keeps P (f a)) -> keeps P (forEachM f l).
Proof.
  induction l as [|a l IH]; intros Hf; [intros w Hall; exact Hall|].
  cbn [forEachM]. apply keeps_bind.
  - apply Hf. left. reflexivity.
  - intros _. apply IH. intros b Hb. apply Hf. right. exact Hb.
Qed.

Lemma keeps_fallible {A} (m : M World A) : keeps P m -> keeps P (fallible m).
Proof.
  intros Hm w Hall. unfold fallible, bind, nextFault.
  destruct (faults w) as [|f fs].
  - exact (Hm w Hall).
  - assert (Hall' : allParts P (withFaults (fun _ => fs) w)) by exact Hall.
    destruct f.
    + exact (Hm _ Hall').
    + exact Hall'.
    + specialize (Hm _ Hall').
      destruct (m (withFaults (fun _ => fs) w)) as [[a|e'] w1]; exact Hm.
Qed.

Lemma keeps_filter (f : SubmissionPartEntity -> bool) :
  keeps P (modify (withParts (filter f))).
Proof.
  intros w Hall p Hin. cbn [modify snd withParts storedParts] in Hin.
  apply filter_In in Hin. exact (Hall p (proj1 Hin)).
Qed.

Lemma keeps_write (part : SubmissionPartEntity) (t : SubmissionType) :
  P part -> keeps P (createOrUpdateSubmissionPart part t).
Proof.
  intros Hpart. unfold createOrUpdateSubmissionPart. apply keeps_fallible.
  intros w Hall p Hin. cbn in Hin.
  destruct (In_upsertPart_inv part p (storedParts w) Hin) as [->|Hold];
    [exact Hpart | exact (Hall p Hold)].
Qed.

Lemma keeps_createDefaultPart (s : SubmissionEntity) :
  P (defaultPartOf s) -> keeps P (createDefaultPart s).
Proof.
  intros Hpart. unfold createDefaultPart. apply keeps_fallible.
  intros w Hall p Hin. cbn in Hin.
  destruct (In_upsertPart_inv (defaultPartOf s) p (storedParts w) Hin) as [->|Hold];
    [exact Hpart | exact (Hall p Hold)].
Qed.

Lemma keeps_repositorySave (s : SubmissionEntity) : keeps P (repositorySave s).
Proof.
  unfold repositorySave. apply keeps_fallible. apply keeps_same. intros w. reflexivity.
Qed.

Lemma keeps_get (id : SubmissionEntityReference) : keeps P (get id).
Proof.
  apply keeps_same. intros w. destruct id as [id|entity]; [|reflexivity].
  unfold get, bind, findOne, gets.
  destruct (find (hasId id) (submissions w)); reflexivity.
Qed.

Lemma keeps_validate (ref : SubmissionEntityReference) : keeps P (validate ref).
Proof.
  unfold validate. apply keeps_bind; [apply keeps_get|].
  intros s. apply keeps_same. intros w. reflexivity.
Qed.

Lemma keeps_announce (ev : SubmissionEvent) (ref : SubmissionEntityReference) :
  keeps P (emitOnComplete ev (p <- validate ref ;; ret [_id (submission p)])).
Proof.
  unfold emitOnComplete. apply keeps_detached. apply keeps_bind.
  - apply keeps_bind; [apply keeps_validate|].
    intros p. apply keeps_same. intros w. reflexivity.
  - intros ids. apply keeps_same. intros w. reflexivity.
Qed.

Lemma keeps_deleteSubmission (id : SubmissionEntityReference) (skipCancel : bool) :
  keeps P (deleteSubmission id skipCancel).
Proof.
  unfold deleteSubmission. apply keeps_bind; [apply keeps_get|].
  intros s. apply keeps_bind.
  - apply keeps_same. intros w. destruct skipCancel; [reflexivity|].
    unfold cancel. cbv zeta. destruct (isCurrentlyPosting s w); reflexivity.
  - intros _. apply keeps_bind.
    + apply keeps_same. intros w. destruct (type s); [unfold lift|]; reflexivity.
    + intros _. apply keeps_bind; [apply keeps_filter|].
      intros _. apply keeps_bind; [|intros ?]; apply keeps_same; reflexivity.
Qed.

Lemma keeps_create (createDto : SubmissionCreate) :
  (forall s, P (defaultPartOf s)) -> keeps P (create createDto).
Proof.
  intros Hdefault. unfold create. apply keeps_bind.
  - apply keeps_same. intros w. exact (proj2 (newSubmission_untouched createDto w)).
  - intros c. apply keeps_bind.
    + apply keeps_tryCatch.
      * unfold storeNew. apply keeps_bind; [apply keeps_repositorySave|].
        intros _. apply keeps_createDefaultPart. apply Hdefault.
      * intros err. apply keeps_bind; [apply keeps_deleteSubmission|].
        intros _. apply keeps_same. intros w. reflexivity.
    + intros _. apply keeps_bind; [apply keeps_announce|].
      intros _. apply keeps_same. intros w. reflexivity.
Qed.

(** The parts the part service selects are stored parts it selects. *)
Lemma selected_parts (sid : string) (w : World) (p : SubmissionPartEntity) :
  In p (partsToValidate sid w) ->
  In p (storedParts w) /\ incompleteOnlySelects p = true.
Proof.
  unfold partsToValidate. intros Hin. apply filter_In in Hin.
  destruct Hin as [Hin Hsel]. apply andb_true_iff in Hsel. split; [exact Hin | apply Hsel].
Qed.

Section Copies.

(** A copy of a selected part that satisfies [P] satisfies [P]. *)
Hypothesis Hcopy :
  forall id p, P p -> incompleteOnlySelects p = true -> P (copiedPart id p).

Lemma keeps_duplicate (originalId : string) : keeps P (duplicate originalId).
Proof.
  unfold duplicate. apply keeps_bind.
  - apply keeps_same. intros w. exact (proj2 (newDuplicate_untouched originalId w)).
  - intros dup. apply keeps_tryCatch.
    + unfold storeDuplicate. apply keeps_bind; [apply keeps_repositorySave|].
      intros created w Hall. apply keeps_bind_at; [apply keeps_same; reflexivity| |exact Hall].
      intros ps w1 Hps Hall1. unfold getPartsForSubmission, gets in Hps.
      inversion Hps; subst ps w1. clear Hps.
      apply keeps_bind; [|intros _; apply keeps_bind;
                                   [apply keeps_announce
                                   |intros _; apply keeps_same; reflexivity]
                         |exact Hall1].
      apply keeps_promiseAll. intros p Hp. apply keeps_write.
      destruct (selected_parts originalId w p Hp) as [Hin Hsel].
      apply Hcopy; [exact (Hall1 p Hin) | exact Hsel].
    + intros err. apply keeps_bind; [apply keeps_deleteSubmission|].
      intros _. apply keeps_same. intros w. reflexivity.
Qed.

Lemma keeps_splitFailure {A} (s : SubmissionEntity) (err : Error) :
  keeps P (splitFailure (A := A) s err).
Proof.
  unfold splitFailure. apply keeps_bind; [apply keeps_deleteSubmission|].
  intros _. apply keeps_same. intros w. reflexivity.
Qed.

Lemma keeps_splitLoop (s : SubmissionEntity) (toSplit : list SubmissionPartEntity)
  (defaultPart : option SubmissionPartEntity) (files : list FileRecord) :
  (forall id p, In p toSplit -> P (copiedPart id p)) ->
  (forall id d, defaultPart = Some d -> P (copiedPart id d)) ->
  forall order0, keeps P (splitLoop s toSplit defaultPart order0 files).
Proof.
  intros Hsplit Hd. induction files as [|file rest IH]; intros order0.
  - apply keeps_same. intros w. reflexivity.
  - cbn [splitLoop]. cbv zeta. apply keeps_bind; [|intros _; apply IH].
    unfold splitOne. apply keeps_bind; [apply keeps_same; reflexivity|].
    intros id. cbv zeta. apply keeps_bind.
    + apply keeps_tryCatch; [apply keeps_same; reflexivity|].
      intros err. apply keeps_splitFailure.
    + intros newSub. apply keeps_tryCatch; [|intros err; apply keeps_splitFailure].
      unfold storeSplit. apply keeps_bind; [apply keeps_repositorySave|].
      intros created. cbv zeta. apply keeps_bind; [|intros _; apply keeps_announce].
      destruct defaultPart as [d|].
      * apply keeps_bind; [|intros _; apply keeps_same; reflexivity].
        apply keeps_promiseAll. intros p Hp. apply keeps_write.
        apply in_app_iff in Hp. destruct Hp as [Hp|[<-|[]]];
          [apply Hsplit; exact Hp | apply (Hd _ d eq_refl)].
      * apply keeps_bind; [|intros _; apply keeps_same; reflexivity].
        apply keeps_detached. apply keeps_promiseAll. intros p Hp. apply keeps_write.
        apply Hsplit. exact Hp.
Qed.

Lemma keeps_split (id : string) : keeps P (splitAdditionalIntoSubmissions id).
Proof.
  intros w Hall.
  destruct (find (hasId id) (submissions w)) as [s0|] eqn:Hf.
  - rewrite (splitAdditionalIntoSubmissions_found id s0 w Hf).
    destruct (additional s0) as [|f fs]; [exact Hall|].
    destruct (partsToSplit s0 w) as [|t ts] eqn:Hts; [exact Hall|].
    rewrite <- Hts. apply keeps_splitLoop; [| |exact Hall].
    + intros nid p Hp. unfold partsToSplit in Hp.
      apply filter_In in Hp. destruct Hp as [Hp _].
      apply filter_In in Hp. destruct Hp as [Hp _].
      destruct (selected_parts (_id s0) w p Hp) as [Hin Hsel].
      apply Hcopy; [exact (Hall p Hin) | exact Hsel].
    + intros nid d Hd. unfold defaultPartToSplit in Hd.
      apply find_some in Hd. destruct Hd as [Hd _].
      destruct (selected_parts (_id s0) w d Hd) as [Hin Hsel].
      apply Hcopy; [exact (Hall d Hin) | exact Hsel].
  - unfold splitAdditionalIntoSubmissions, bind. rewrite (get_missing id w Hf). exact Hall.
Qed.

End Copies.

(** The file actions leave the parts alone. *)
Lemma keeps_fileAction (id : string)
  (change : SubmissionEntity -> M World SubmissionEntity) :
  (forall s w, storedParts (snd (change s w)) = storedParts w) ->
  keeps P (s <- get (ById id) ;;
           if isPosting s then throw posting_refusal
           else
             s' <- change s ;;
             repositoryUpdate s' ;;;
             validated <- validate (ByEntity s') ;;
             emit UPDATED [_id (submission validated)] ;;;
             ret validated).
Proof.
  intros Hchange. apply keeps_bind; [apply keeps_get|].
  intros s. destruct (isPosting s); [apply keeps_same; reflexivity|].
  apply keeps_bind; [apply keeps_same; apply Hchange|].
  intros s'. apply keeps_bind; [apply keeps_same; reflexivity|].
  intros _. apply keeps_bind; [apply keeps_validate|].
  intros validated. apply keeps_bind; [|intros ?]; apply keeps_same; reflexivity.
Qed.

Lemma keeps_recreate (log : SubmissionLogEntity) :
  (forall s, P (defaultPartOf s)) ->
  (forall id p, In p (log_parts log) -> P (recreatedPart id p)) ->
  (forall id, P (setSubmissionId id (log_defaultPart log))) ->
  keeps P (recreate log).
Proof.
  intros Hdefault Hparts Hlog. unfold recreate. cbv zeta. apply keeps_bind.
  - apply keeps_same. intros w. destruct (type (log_submission log)); [|reflexivity].
    destruct (primary (log_submission log)); reflexivity.
  - intros createData. apply keeps_bind; [apply keeps_create; exact Hdefault|].
    intros newSub. apply keeps_bind.
    + apply keeps_tryCatch.
      * unfold restoreInto. cbv zeta. apply keeps_bind.
        -- apply keeps_promiseAll. intros p Hp. apply keeps_write.
           apply in_app_iff in Hp. destruct Hp as [Hp|[<-|[]]]; [|apply Hlog].
           apply filter_In in Hp. destruct Hp as [Hp _].
           apply in_map_iff in Hp. destruct Hp as [q [<- Hq]]. apply Hparts. exact Hq.
        -- intros _. destruct (type (log_submission log)); [|apply keeps_same; reflexivity].
           apply keeps_bind.
           ++ destruct (thumbnail (log_submission log)) as [th|];
                [|apply keeps_same; reflexivity].
              apply keeps_tryCatch; [|intros _; apply keeps_same; reflexivity].
              apply keeps_bind; [apply keeps_same; reflexivity|].
              intros content. apply keeps_bind; [|intros _; apply keeps_same; reflexivity].
              unfold changeFileSubmissionThumbnailFile.
              apply (keeps_fileAction _ (fun s => lift (changeThumbnailFile s _ _))).
              reflexivity.
           ++ intros _. apply keeps_forEachM. intros additionalFile _.
              apply keeps_tryCatch; [|intros _; apply keeps_same; reflexivity].
              apply keeps_bind; [apply keeps_same; reflexivity|].
              intros content. apply keeps_bind; [|intros _; apply keeps_same; reflexivity].
              unfold addFileSubmissionAdditionalFile.
              apply (keeps_fileAction _ (fun s => lift (addAdditionalFile s _ _))).
              reflexivity.
      * intros err. apply keeps_bind; [apply keeps_deleteSubmission|].
        intros _. apply keeps_same. intros w. reflexivity.
    + intros _. apply keeps_bind.
      * unfold getAndValidate. apply keeps_bind; [apply keeps_get|].
        intros s. apply keeps_validate.
      * intros p. apply keeps_bind; [|intros ?]; apply keeps_same; reflexivity.
Qed.


Section Data.

(** New data leave [P] as it is, and the parts of the caller satisfy [P]. *)
Hypothesis Hdata : forall d p, P p -> P (setData d p).




End Data.

End PartsKept.








(** X2.  Whatever the part filter selects and whatever fails on the way:
    every part [duplicate] or the split has stored anew is the copy of a
    stored part the part service selected, with the status [UNPOSTED] and
    everything else but the submission as it was read, the posting target
    too; every part [recreate] has stored anew is [UNPOSTED] with no target,
    the default part of the log apart, which is stored as the log has it. *)
Theorem copies_carry_the_target_they_read {deps : Collaborators} (w : World) :
  (forall originalId p, In p (storedParts (snd (duplicate originalId w))) ->
     In p (storedParts w) \/ copyOfSelected w p)
  /\ (forall id p, In p (storedParts (snd (splitAdditionalIntoSubmissions id w))) ->
        In p (storedParts w) \/ copyOfSelected w p)
  /\ (forall log p, In p (storedParts (snd (recreate log w))) ->
        In p (storedParts w) \/ isReset p
        \/ (postStatus p = postStatus (log_defaultPart log)
            /\ postedTo p = postedTo (log_defaultPart log)
            /\ accountId p = accountId (log_defaultPart log))).
Proof.
  set (Copy := fun p : SubmissionPartEntity => In p (storedParts w) \/ copyOfSelected w p).
  assert (Hw : allParts Copy w) by (intros p Hp; left; exact Hp).
  assert (Hcopy : forall id p, Copy p -> incompleteOnlySelects p = true ->
                               Copy (copiedPart id p)).
  { intros id p [Hold|[q Hq]] Hsel; right.
    - exists p. repeat split; assumption.
    - exists q. destruct Hq as [Hin [Hselq [_ [Ht [Ha [Hweb [Hd Hdef]]]]]]].
      repeat split; assumption. }
  split; [|split].
  - intros originalId. exact (keeps_duplicate Copy Hcopy originalId w Hw).
  - intros id. exact (keeps_split Copy Hcopy id w Hw).
  - intros log.
    apply (keeps_recreate
             (fun p => In p (storedParts w) \/ isReset p
                       \/ (postStatus p = postStatus (log_defaultPart log)
                           /\ postedTo p = postedTo (log_defaultPart log)
                           /\ accountId p = accountId (log_defaultPart log)))).
    + intros s. right. left. split; reflexivity.
    + intros id p _. right. left. split; reflexivity.
    + intros id. right. right. repeat split.
    + intros p Hp. left. exact Hp.
Qed.

End SubmissionService.
